(** * Ideograph: a shallow embedding of the graph-intelligence core

    The development follows the Python sources module by module:
    [models/edge.py], [models/position.py], [models/walker.py],
    [graph/ideograph.py], [graph/tension.py], [graph/probing.py],
    [graph/attractors.py] and [graph/compaction.py].

    Modelling conventions.
    - A Python [float] is an exact rational ([Q]); rounding is not modelled.
      Equalities between computed floats are stated with [==].
    - A Python [int] is a [Z]; a [str] is a [string].
    - A [dict] is an insertion-ordered association list ([Dict.t]); the key
      under which an object is stored plays the role of its reference, so an
      in-place mutation of a stored object is an update at its key.
    - The [datetime] fields [created_at] and [updated_at] hold wall clock
      readings that no function reads, and are left out of the records.  The
      [timestamp] of a [Source] takes part in the equality of sources; it is
      kept, as an integer reading of the clock.
    - Mutating methods return the new value of the object they mutate. *)

From Stdlib Require Import List String Ascii ZArith QArith Qabs Bool Lia Lqa.
From Stdlib Require Import DecimalString Sorted.
Import ListNotations.

Open Scope string_scope.
Open Scope Q_scope.

(* ================================================================= *)
(** ** Python built-ins used by the sources *)

(** [min(a, b)]: the first of the smallest arguments. *)
Definition py_min (a b : Q) : Q := if Qlt_le_dec b a then b else a.

(** [max(a, b)]: the first of the largest arguments. *)
Definition py_max (a b : Q) : Q := if Qlt_le_dec a b then b else a.

(** [x in xs] on a list of strings. *)
Definition str_in (x : string) (xs : list string) : bool :=
  existsb (String.eqb x) xs.

(** [int(x)] on a float: truncation toward zero. *)
Definition py_int (x : Q) : Z := Z.quot (Qnum x) (Zpos (Qden x)).

(** [str(n)] for a natural number, as used inside f-strings. *)
Definition str_of_nat (n : nat) : string :=
  NilEmpty.string_of_uint (Nat.to_uint n).

(** [not xs] on a list or a set. *)
Definition is_empty {A : Type} (xs : list A) : bool :=
  match xs with [] => true | _ => false end.

(** [set(xs)] followed by an order-insensitive use: the distinct elements. *)
Definition py_set (xs : list string) : list string := nodup string_dec xs.
Arguments py_set : simpl never.

(** [x ** n] for a natural exponent. *)
Fixpoint qpow (x : Q) (n : nat) : Q :=
  match n with
  | O => 1
  | S m => x * qpow x m
  end.

(** [xs[:n]] for an integer [n]: the first [n] elements, or all but the
    last [-n] when [n] is negative. *)
Definition py_take {A : Type} (n : Z) (xs : list A) : list A :=
  if (0 <=? n)%Z then firstn (Z.to_nat n) xs
  else firstn (List.length xs - Z.to_nat (- n)) xs.

(** [xs.sort(key=..., reverse=True)]: a stable sort, largest key first. *)
Section StableSort.
Context {A : Type}.
Variable key : A -> Q.

Fixpoint insert_desc (x : A) (l : list A) : list A :=
  match l with
  | [] => [x]
  | y :: r =>
      if Qle_bool (key y) (key x) then x :: y :: r
      else y :: insert_desc x r
  end.

Definition sort_desc (l : list A) : list A :=
  fold_right insert_desc [] l.
(** The order a list sorted by [sort_desc] is in. *)
Definition descending (x y : A) : Prop := key y <= key x.
End StableSort.

(* ================================================================= *)
(** ** Insertion-ordered dictionaries *)

Module Dict.
Section Defs.
Context {V : Type}.

Definition t := list (string * V).

Definition empty : t := [].

(** [d.get(k)] *)
Fixpoint get (d : t) (k : string) : option V :=
  match d with
  | [] => None
  | (k', v) :: r => if String.eqb k' k then Some v else get r k
  end.

(** [k in d] *)
Definition mem (d : t) (k : string) : bool :=
  match get d k with Some _ => true | None => false end.

(** [d[k] = v]: overwrite in place, or append a new entry. *)
Fixpoint set (d : t) (k : string) (v : V) : t :=
  match d with
  | [] => [(k, v)]
  | (k', v') :: r =>
      if String.eqb k' k then (k, v) :: r else (k', v') :: set r k v
  end.

Definition keys (d : t) : list string := map fst d.
Definition values (d : t) : list V := map snd d.
Definition items (d : t) : list (string * V) := d.

(** A dictionary holds at most one entry per key. *)
Definition wf (d : t) : Prop := NoDup (keys d).
End Defs.
Arguments t : clear implicits.

(** [{k: f(v) for k, v in d.items()}] *)
Definition map_values {A B : Type} (f : A -> B) (d : t A) : t B :=
  map (fun kv => (fst kv, f (snd kv))) d.
End Dict.

(* ================================================================= *)
(** ** models/edge.py *)

Inductive EdgeType : Type :=
| IMPLIES | CONTRADICTS | DERIVES_FROM | PRIORITIZES_OVER
| COLLIDER | CONFOUNDER | MEDIATOR | FORK | ASSOCIATION.

Definition EdgeType_eqb (a b : EdgeType) : bool :=
  match a, b with
  | IMPLIES, IMPLIES | CONTRADICTS, CONTRADICTS
  | DERIVES_FROM, DERIVES_FROM | PRIORITIZES_OVER, PRIORITIZES_OVER
  | COLLIDER, COLLIDER | CONFOUNDER, CONFOUNDER | MEDIATOR, MEDIATOR
  | FORK, FORK | ASSOCIATION, ASSOCIATION => true
  | _, _ => false
  end.

(** [EdgeType.value] *)
Definition EdgeType_value (ty : EdgeType) : string :=
  match ty with
  | IMPLIES => "implies"
  | CONTRADICTS => "contradicts"
  | DERIVES_FROM => "derives_from"
  | PRIORITIZES_OVER => "prioritizes_over"
  | COLLIDER => "collider"
  | CONFOUNDER => "confounder"
  | MEDIATOR => "mediator"
  | FORK => "fork"
  | ASSOCIATION => "association"
  end.

Definition all_EdgeTypes : list EdgeType :=
  [IMPLIES; CONTRADICTS; DERIVES_FROM; PRIORITIZES_OVER;
   COLLIDER; CONFOUNDER; MEDIATOR; FORK; ASSOCIATION].

(** [EdgeType(s)]: lookup by value; [None] stands for the [ValueError]. *)
Definition EdgeType_of_value (s : string) : option EdgeType :=
  find (fun ty => String.eqb (EdgeType_value ty) s) all_EdgeTypes.

Module Edge.

Record t : Type := mk {
  source_id : string;
  target_id : string;
  edge_type : EdgeType;
  weight : Q;
  evidence_count : Z;
  confidence : Q;
  co_occurrence : Z;
  tension : Q;
  priority_context : option string;
  sources : list string
}.

(** The dataclass constructor with its defaults. *)
Definition new (s tg : string) (ty : EdgeType) (w : Q) : t :=
  mk s tg ty w 0%Z 0.5 0%Z 0 None [].

(** [Edge.id] *)
Definition id (e : t) : string :=
  source_id e ++ "->" ++ target_id e ++ ":" ++ EdgeType_value (edge_type e).

(** [Edge.strengthen(amount)] *)
Definition strengthen (e : t) (amount : Q) : t :=
  mk (source_id e) (target_id e) (edge_type e)
     (py_min 1 (weight e + amount * (1 - weight e)))
     (evidence_count e) (confidence e)
     (co_occurrence e + 1)%Z
     (tension e) (priority_context e) (sources e).

(** [Edge.weaken(amount)] *)
Definition weaken (e : t) (amount : Q) : t :=
  mk (source_id e) (target_id e) (edge_type e)
     (py_max 0 (weight e - amount * weight e))
     (evidence_count e) (confidence e) (co_occurrence e)
     (tension e) (priority_context e) (sources e).

(** [Edge.add_evidence(source)] *)
Definition add_evidence (e : t) (source : string) : t :=
  if str_in source (sources e) then e
  else
    let sources' := (sources e ++ [source])%list in
    let count := Z.of_nat (List.length sources') in
    mk (source_id e) (target_id e) (edge_type e) (weight e)
       count
       (py_min 1 (0.3 + 0.1 * inject_Z count))
       (co_occurrence e) (tension e) (priority_context e) sources'.

(** [Edge.record_tension()] *)
Definition record_tension (e : t) : t :=
  mk (source_id e) (target_id e) (edge_type e) (weight e)
     (evidence_count e) (confidence e) (co_occurrence e)
     (tension e + 1)
     (priority_context e) (sources e).

(** The mutators of an edge, as a command language. *)
Inductive op : Type :=
| Strengthen (amount : Q)
| Weaken (amount : Q)
| AddEvidence (source : string)
| RecordTension.

Definition apply (e : t) (o : op) : t :=
  match o with
  | Strengthen a => strengthen e a
  | Weaken a => weaken e a
  | AddEvidence s => add_evidence e s
  | RecordTension => record_tension e
  end.

Definition run (e : t) (ops : list op) : t := fold_left apply ops e.

(** Amounts passed to [strengthen] and [weaken] lie in [[0,1]]. *)
Definition op_ok (o : op) : Prop :=
  match o with
  | Strengthen a | Weaken a => 0 <= a <= 1
  | _ => True
  end.

Definition unit_interval (x : Q) : Prop := 0 <= x <= 1.

(** The number of [record_tension] calls in a sequence of mutators. *)
Definition tension_records (ops : list op) : nat :=
  List.length
    (filter (fun o => match o with RecordTension => true | _ => false end)
            ops).

(** The three bounded fields as the data model states them. *)
Definition in_bounds (e : t) : Prop :=
  unit_interval (weight e) /\ unit_interval (confidence e)
  /\ unit_interval (tension e).

End Edge.

(* ================================================================= *)
(** ** models/position.py *)

Inductive Domain : Type :=
| ECONOMICS | CIVIL_LIBERTIES | FOREIGN_POLICY | SOCIAL | EPISTEMOLOGY
| GOVERNANCE | TECHNOLOGY | ENVIRONMENT | IDENTITY | METAPHYSICS
| UNCATEGORIZED.

(** [Domain.value] *)
Definition Domain_value (d : Domain) : string :=
  match d with
  | ECONOMICS => "economics"
  | CIVIL_LIBERTIES => "civil_liberties"
  | FOREIGN_POLICY => "foreign_policy"
  | SOCIAL => "social"
  | EPISTEMOLOGY => "epistemology"
  | GOVERNANCE => "governance"
  | TECHNOLOGY => "technology"
  | ENVIRONMENT => "environment"
  | IDENTITY => "identity"
  | METAPHYSICS => "metaphysics"
  | UNCATEGORIZED => "uncategorized"
  end.

Definition all_Domains : list Domain :=
  [ECONOMICS; CIVIL_LIBERTIES; FOREIGN_POLICY; SOCIAL; EPISTEMOLOGY;
   GOVERNANCE; TECHNOLOGY; ENVIRONMENT; IDENTITY; METAPHYSICS;
   UNCATEGORIZED].

(** [Domain(s)]: lookup by value; [None] stands for the [ValueError]. *)
Definition Domain_of_value (s : string) : option Domain :=
  find (fun d => String.eqb (Domain_value d) s) all_Domains.

Module Source.
Record t : Type := mk {
  url : option string;
  text : string;
  source_type : string;
  timestamp : option Z;
  credibility : Q
}.

(** The dataclass [__eq__] of [Source]: the tuples of the five fields are
    compared, field by field. *)
Definition eqb (a b : t) : bool :=
  match url a, url b with
  | Some x, Some y => String.eqb x y
  | None, None => true
  | _, _ => false
  end
  && String.eqb (text a) (text b)
  && String.eqb (source_type a) (source_type b)
  && match timestamp a, timestamp b with
     | Some x, Some y => Z.eqb x y
     | None, None => true
     | _, _ => false
     end
  && Qeq_bool (credibility a) (credibility b).
End Source.

Module Position.

Record t : Type := mk {
  id : string;
  claim : string;
  domain : Domain;
  valence : option Q;
  level : string;
  sources : list Source.t;
  visit_count : Z;
  canonical_score : Q;
  traditions : list string
}.

(** [Position(...)]: the dataclass constructor followed by
    [__post_init__], which derives a missing id from the claim.
    [_generate_id] hashes the claim with SHA-256 and is taken as given. *)
Definition new (_generate_id : string -> string)
           (id claim : string) (domain : Domain) (valence : option Q)
           (level : string) (visit_count : Z) (canonical_score : Q)
           (traditions : list string) : t :=
  mk (if String.eqb id "" && negb (String.eqb claim "")
      then _generate_id claim else id)
     claim domain valence level [] visit_count canonical_score traditions.

(** What [__post_init__] establishes: a claim comes with an id. *)
Definition has_id (p : t) : Prop := id p <> "" \/ claim p = "".

(** [Position.record_visit()] *)
Definition record_visit (p : t) : t :=
  mk (id p) (claim p) (domain p) (valence p) (level p) (sources p)
     (visit_count p + 1)%Z
     (canonical_score p) (traditions p).

(** [Position.__eq__]: identity is the id. *)
Definition eqb (p q : t) : bool := String.eqb (id p) (id q).

(** [Position.add_source(source)] *)
Definition add_source (p : t) (source : Source.t) : t :=
  if existsb (Source.eqb source) (sources p) then p
  else mk (id p) (claim p) (domain p) (valence p) (level p)
          (sources p ++ [source])%list
          (visit_count p) (canonical_score p) (traditions p).

(** [Position.update_canonical_score(score)] *)
Definition update_canonical_score (p : t) (score : Q) : t :=
  mk (id p) (claim p) (domain p) (valence p) (level p) (sources p)
     (visit_count p)
     (py_max 0 (py_min 1 score))
     (traditions p).

End Position.

(* ================================================================= *)
(** ** models/walker.py *)

Module Choice.

Record t : Type := mk {
  position_id : string;
  question : string;
  accepted : bool;
  confidence : Q;
  reasoning : option string;
  was_predicted : bool;
  prediction_confidence : Q;
  response_time_ms : option Z
}.

(** [Choice.was_surprising] *)
Definition was_surprising (c : t) : bool :=
  was_predicted c
  && (if Qlt_le_dec 0.7 (prediction_confidence c) then true else false)
  && negb (accepted c).

End Choice.

Module PredictionError.
Record t : Type := mk {
  position_id : string;
  predicted : bool;
  actual : bool;
  prediction_confidence : Q;
  dimension_hint : option string
}.

(** [PredictionError.severity] *)
Definition severity (e : t) : Q :=
  prediction_confidence e
  * (if negb (Bool.eqb (predicted e) (actual e)) then 1 else 0).
End PredictionError.

Module Walker.

(** The trajectory, the canonical fit and the aberration profile of a
    walker are not read or written by the operations below and are left
    out of the record. *)
Record t : Type := mk {
  user_id : string;
  session_id : string;
  path : list string;
  choices : list Choice.t;
  prediction_errors : list PredictionError.t;
  edges_strengthened : list string;
  edges_weakened : list string
}.

(** [Walker.visit(position_id)] *)
Definition visit (w : t) (position_id : string) : t :=
  if str_in position_id (path w) then w
  else mk (user_id w) (session_id w)
          (path w ++ [position_id])%list
          (choices w) (prediction_errors w)
          (edges_strengthened w) (edges_weakened w).

(** [Walker.record_choice(choice)] *)
Definition record_choice (w : t) (choice : Choice.t) : t :=
  mk (user_id w) (session_id w) (path w)
     (choices w ++ [choice])%list
     (if Choice.was_surprising choice
      then (prediction_errors w ++
            [PredictionError.mk (Choice.position_id choice) true
               (Choice.accepted choice)
               (Choice.prediction_confidence choice) None])%list
      else prediction_errors w)
     (edges_strengthened w) (edges_weakened w).

(** [Walker.strengthen_edge(edge_id)] *)
Definition strengthen_edge (w : t) (edge_id : string) : t :=
  if str_in edge_id (edges_strengthened w) then w
  else mk (user_id w) (session_id w) (path w) (choices w)
          (prediction_errors w)
          (edges_strengthened w ++ [edge_id])%list
          (edges_weakened w).

(** [Walker.weaken_edge(edge_id)] *)
Definition weaken_edge (w : t) (edge_id : string) : t :=
  if str_in edge_id (edges_weakened w) then w
  else mk (user_id w) (session_id w) (path w) (choices w)
          (prediction_errors w) (edges_strengthened w)
          (edges_weakened w ++ [edge_id])%list.

(** [Walker.positions_accepted] *)
Definition positions_accepted (w : t) : list string :=
  map Choice.position_id (filter Choice.accepted (choices w)).

(** [Walker.positions_rejected] *)
Definition positions_rejected (w : t) : list string :=
  map Choice.position_id
      (filter (fun c => negb (Choice.accepted c)) (choices w)).

(** [Walker.surprise_rate] *)
Definition surprise_rate (w : t) : Q :=
  if is_empty (choices w) then 0
  else
    let surprising := List.length (filter Choice.was_surprising (choices w)) in
    inject_Z (Z.of_nat surprising)
    / inject_Z (Z.of_nat (List.length (choices w))).

End Walker.

(* ================================================================= *)
(** ** graph/ideograph.py *)

Module IdeologicalGraph.

Record t : Type := mk {
  positions : Dict.t Position.t;
  edges : Dict.t Edge.t;
  walkers : Dict.t Walker.t;
  name : string;
  learning_rate : Q;
  decay_rate : Q
}.

(** [IdeologicalGraph()] with the dataclass defaults. *)
Definition new : t :=
  mk Dict.empty Dict.empty Dict.empty "ideograph" 0.1 0.05.

Definition with_positions (g : t) (ps : Dict.t Position.t) : t :=
  mk ps (edges g) (walkers g) (name g) (learning_rate g) (decay_rate g).

Definition with_edges (g : t) (es : Dict.t Edge.t) : t :=
  mk (positions g) es (walkers g) (name g) (learning_rate g) (decay_rate g).

(** [get_position(position_id)] *)
Definition get_position (g : t) (position_id : string) : option Position.t :=
  Dict.get (positions g) position_id.

(** [add_position(position)]: the new graph and the position object
    returned. *)
Definition add_position (g : t) (position : Position.t) : t * Position.t :=
  match Dict.get (positions g) (Position.id position) with
  | Some existing =>
      let existing' :=
        fold_left Position.add_source (Position.sources position) existing in
      (with_positions g
         (Dict.set (positions g) (Position.id position) existing'),
       existing')
  | None =>
      (with_positions g
         (Dict.set (positions g) (Position.id position) position),
       position)
  end.

(** [positions_by_domain(domain)] *)
Definition positions_by_domain (g : t) (domain : string) : list Position.t :=
  filter (fun p => String.eqb (Domain_value (Position.domain p)) domain)
         (Dict.values (positions g)).

(** [add_edge(edge)]: the new graph and the edge object returned. *)
Definition add_edge (g : t) (edge : Edge.t) : t * Edge.t :=
  match Dict.get (edges g) (Edge.id edge) with
  | Some existing =>
      let existing' := Edge.strengthen existing (learning_rate g) in
      (with_edges g (Dict.set (edges g) (Edge.id edge) existing'),
       existing')
  | None =>
      (with_edges g (Dict.set (edges g) (Edge.id edge) edge), edge)
  end.

(** Whether two edges carry the same (source, target, type) triple. *)
Definition same_triple (e1 e2 : Edge.t) : bool :=
  String.eqb (Edge.source_id e1) (Edge.source_id e2)
  && String.eqb (Edge.target_id e1) (Edge.target_id e2)
  && EdgeType_eqb (Edge.edge_type e1) (Edge.edge_type e2).

(** The stored edges that carry the triple of [e]. *)
Definition stored_for (g : t) (e : Edge.t) : list Edge.t :=
  filter (same_triple e) (Dict.values (edges g)).

(** The edge map holds one entry per key, each under the id of its edge:
    what [add_edge] establishes on a graph it populates. *)
Definition keyed_by_id (g : t) : Prop :=
  Dict.wf (edges g)
  /\ forall k e, In (k, e) (Dict.items (edges g)) -> k = Edge.id e.

(** The position map holds each position under its id: what
    [add_position] establishes on a graph it populates. *)
Definition positions_keyed_by_id (g : t) : Prop :=
  forall k p, Dict.get (positions g) k = Some p -> Position.id p = k.

(** [connect(source_id, target_id, edge_type, weight)] *)
Definition connect (g : t) (source_id target_id : string)
           (edge_type : EdgeType) (weight : Q) : t * Edge.t :=
  add_edge g (Edge.new source_id target_id edge_type weight).

(** The lookup of [get_edge], returning the stored edge together with the
    key it is stored under. *)
Definition lookup_edge (g : t) (source_id target_id : string)
           (edge_type : option EdgeType) : option (string * Edge.t) :=
  match edge_type with
  | Some ty =>
      let edge_id :=
        source_id ++ "->" ++ target_id ++ ":" ++ EdgeType_value ty in
      option_map (pair edge_id) (Dict.get (edges g) edge_id)
  | None =>
      find (fun kv =>
              String.eqb (Edge.source_id (snd kv)) source_id
              && String.eqb (Edge.target_id (snd kv)) target_id)
           (Dict.items (edges g))
  end.

(** [get_edge(source_id, target_id, edge_type=None)] *)
Definition get_edge (g : t) (source_id target_id : string)
           (edge_type : option EdgeType) : option Edge.t :=
  option_map snd (lookup_edge g source_id target_id edge_type).

(** [edges_from(position_id)] *)
Definition edges_from (g : t) (position_id : string) : list Edge.t :=
  filter (fun e => String.eqb (Edge.source_id e) position_id)
         (Dict.values (edges g)).

(** [edges_to(position_id)] *)
Definition edges_to (g : t) (position_id : string) : list Edge.t :=
  filter (fun e => String.eqb (Edge.target_id e) position_id)
         (Dict.values (edges g)).

(** [[self.positions[pid] for pid in ids if pid in self.positions]] *)
Definition resolve (g : t) (ids : list string) : list Position.t :=
  flat_map (fun pid => match Dict.get (positions g) pid with
                       | Some p => [p]
                       | None => []
                       end) ids.

(** [implied_by(position_id)] *)
Definition implied_by (g : t) (position_id : string) : list Position.t :=
  resolve g
    (map Edge.source_id
       (filter (fun e => EdgeType_eqb (Edge.edge_type e) IMPLIES)
               (edges_to g position_id))).

(** [implies(position_id)] *)
Definition implies (g : t) (position_id : string) : list Position.t :=
  resolve g
    (map Edge.target_id
       (filter (fun e => EdgeType_eqb (Edge.edge_type e) IMPLIES)
               (edges_from g position_id))).

(** [contradicts(position_id)] *)
Definition contradicts (g : t) (position_id : string) : list Position.t :=
  flat_map
    (fun edge =>
       if negb (EdgeType_eqb (Edge.edge_type edge) CONTRADICTS) then []
       else if String.eqb (Edge.source_id edge) position_id
               && Dict.mem (positions g) (Edge.target_id edge)
            then resolve g [Edge.target_id edge]
       else if String.eqb (Edge.target_id edge) position_id
               && Dict.mem (positions g) (Edge.source_id edge)
            then resolve g [Edge.source_id edge]
       else [])
    (Dict.values (edges g)).

(** [_estimate_basin_distance(position, accepted)], with the set
    [accepted] given by its distinct elements. *)
Definition _estimate_basin_distance (g : t) (position : Position.t)
           (accepted : list string) : Q :=
  if is_empty accepted then 0.5
  else
    let connections :=
      fold_left
        (fun n pos_id =>
           let n :=
             match get_edge g pos_id (Position.id position) None with
             | Some _ => (n + 1)%nat
             | None => n
             end in
           match get_edge g (Position.id position) pos_id None with
           | Some _ => (n + 1)%nat
           | None => n
           end)
        accepted 0%nat in
    let max_connections := (List.length accepted * 2)%nat in
    if (0 <? max_connections)%nat
    then 1 - inject_Z (Z.of_nat connections)
             / inject_Z (Z.of_nat max_connections)
    else 0.5.

(** The candidates of [suggest_outside_basin] with their distances, in the
    order of the position map. *)
Definition basin_candidates (g : t) (walker : Walker.t)
  : list (Position.t * Q) :=
  let visited := py_set (Walker.path walker) in
  let accepted := py_set (Walker.positions_accepted walker) in
  let implied_by_accepted :=
    py_set (flat_map (fun pos_id => map Position.id (implies g pos_id))
                     accepted) in
  flat_map
    (fun pos =>
       if str_in (Position.id pos) visited then []
       else if str_in (Position.id pos) implied_by_accepted then []
       else [(pos, _estimate_basin_distance g pos accepted)])
    (Dict.values (positions g)).

(** [suggest_outside_basin(walker, n)] *)
Definition suggest_outside_basin (g : t) (walker : Walker.t) (n : Z)
  : list Position.t :=
  map fst (py_take n (sort_desc snd (basin_candidates g walker))).

Section Walking.

(** The order in which a Python [set] of strings is iterated depends on
    the hash seed of the run; [set_iter xs] is the iteration order of
    the set built by adding the elements of [xs] one after the other. *)
Variable set_iter : list string -> list string.

(** [neighbors(position_id)] *)
Definition neighbors (g : t) (position_id : string) : list Position.t :=
  resolve g
    (set_iter (map Edge.target_id (edges_from g position_id)
               ++ map Edge.source_id (edges_to g position_id))%list).

(** [_update_edges_from_choice(walker, choice)] *)
Definition _update_edges_from_choice (g : t) (walker : Walker.t)
           (choice : Choice.t) : t * Walker.t :=
  if (List.length (Walker.path walker) <? 2)%nat then (g, walker)
  else
    let prev_position_id :=
      nth (List.length (Walker.path walker) - 2) (Walker.path walker) "" in
    let current_position_id := Choice.position_id choice in
    let edge := lookup_edge g prev_position_id current_position_id None in
    if Choice.accepted choice then
      match edge with
      | Some (key, e) =>
          let e' := Edge.strengthen e (learning_rate g) in
          (with_edges g (Dict.set (edges g) key e'),
           Walker.strengthen_edge walker (Edge.id e'))
      | None =>
          let '(g', new_edge) :=
            connect g prev_position_id current_position_id IMPLIES 0.3 in
          (g', Walker.strengthen_edge walker (Edge.id new_edge))
      end
    else
      match edge with
      | Some (key, e) =>
          if EdgeType_eqb (Edge.edge_type e) IMPLIES then
            let e' := Edge.weaken e (learning_rate g) in
            (with_edges g (Dict.set (edges g) key e'),
             Walker.weaken_edge walker (Edge.id e'))
          else (g, walker)
      | None => (g, walker)
      end.

(** [walk_step(walker, position_id, accepted, confidence, reasoning)]:
    the new graph, the new walker and the suggestions returned. *)
Definition walk_step (g : t) (walker : Walker.t) (position_id : string)
           (accepted : bool) (confidence : Q) (reasoning : option string)
  : t * Walker.t * list Position.t :=
  match get_position g position_id with
  | None => (g, walker, [])
  | Some position =>
      let walker1 := Walker.visit walker position_id in
      let g1 :=
        with_positions g
          (Dict.set (positions g) position_id
                    (Position.record_visit position)) in
      let choice :=
        Choice.mk position_id "" accepted confidence reasoning
                  false 0 None in
      let walker2 := Walker.record_choice walker1 choice in
      let '(g2, walker3) := _update_edges_from_choice g1 walker2 choice in
      let next_positions :=
        if accepted then implies g2 position_id
        else contradicts g2 position_id in
      let next_positions' :=
        fold_left
          (fun acc neighbor =>
             if negb (str_in (Position.id neighbor) (Walker.path walker3))
                && negb (existsb (Position.eqb neighbor) acc)
             then (acc ++ [neighbor])%list else acc)
          (neighbors g2 position_id) next_positions in
      (g2, walker3, firstn 5 next_positions')
  end.

(** One call of [walk_step]: the position id and the answer given. *)
Record step : Type := mk_step {
  step_position_id : string;
  step_accepted : bool;
  step_confidence : Q;
  step_reasoning : option string
}.

(** The [Choice] that [walk_step] builds for a step. *)
Definition step_choice (s : step) : Choice.t :=
  Choice.mk (step_position_id s) "" (step_accepted s) (step_confidence s)
            (step_reasoning s) false 0 None.

(** A session: [walk_step] called for each step in turn, on the same
    walker. *)
Definition walk (g : t) (walker : Walker.t) (steps : list step)
  : t * Walker.t :=
  fold_left
    (fun gw s =>
       fst (walk_step (fst gw) (snd gw) (step_position_id s)
                      (step_accepted s) (step_confidence s)
                      (step_reasoning s)))
    steps (g, walker).

End Walking.

End IdeologicalGraph.

(* ================================================================= *)
(** ** graph/ideograph.py: persistence *)

Module Persistence.

Import IdeologicalGraph.

Section Codec.

(** [Position._generate_id], used by the constructor on loading. *)
Variable _generate_id : string -> string.

(** The JSON object written for a position.  A field is [None] when the
    key is absent from the object ([valence] also when it is [null]). *)
Record position_doc : Type := mk_position_doc {
  pd_id : option string;
  pd_claim : option string;
  pd_domain : option string;
  pd_valence : option Q;
  pd_level : option string;
  pd_visit_count : option Z;
  pd_canonical_score : option Q;
  pd_traditions : option (list string)
}.

(** The JSON object written for an edge. *)
Record edge_doc : Type := mk_edge_doc {
  ed_source_id : option string;
  ed_target_id : option string;
  ed_edge_type : option string;
  ed_weight : option Q;
  ed_evidence_count : option Z;
  ed_confidence : option Q;
  ed_co_occurrence : option Z;
  ed_tension : option Q
}.

(** The top-level JSON object. *)
Record graph_doc : Type := mk_graph_doc {
  gd_name : option string;
  gd_positions : option (Dict.t position_doc);
  gd_edges : option (Dict.t edge_doc)
}.

(** What a file holds: the text of a JSON document, which [json.loads]
    turns back into the document [json.dumps] was given, or some other
    text. *)
Inductive file : Type :=
  | Json (data : graph_doc)
  | Garbage (text : string).

(** The disk: the file stored at each path, if any. *)
Definition disk : Type := string -> option file.

Definition write_text (fs : disk) (path : string) (f : file) : disk :=
  fun p => if String.eqb p path then Some f else fs p.

Definition position_to_doc (p : Position.t) : position_doc :=
  mk_position_doc
    (Some (Position.id p)) (Some (Position.claim p))
    (Some (Domain_value (Position.domain p)))
    (Position.valence p)
    (Some (Position.level p))
    (Some (Position.visit_count p))
    (Some (Position.canonical_score p))
    (Some (Position.traditions p)).

Definition edge_to_doc (e : Edge.t) : edge_doc :=
  mk_edge_doc
    (Some (Edge.source_id e)) (Some (Edge.target_id e))
    (Some (EdgeType_value (Edge.edge_type e)))
    (Some (Edge.weight e))
    (Some (Edge.evidence_count e))
    (Some (Edge.confidence e))
    (Some (Edge.co_occurrence e))
    (Some (Edge.tension e)).

(** The [data] dictionary built by [save]. *)
Definition to_doc (g : t) : graph_doc :=
  mk_graph_doc
    (Some (name g))
    (Some (Dict.map_values position_to_doc (positions g)))
    (Some (Dict.map_values edge_to_doc (edges g))).

(** [save(path)] *)
Definition save (g : t) (path : string) (fs : disk) : disk :=
  write_text fs path (Json (to_doc g)).

(** Exceptions raised by [load]. *)
Inductive error : Type :=
  | KeyError (key : string)
  | ValueError (value : string)
  | JSONDecodeError.

Inductive result (A : Type) : Type :=
  | Ok (a : A)
  | Raise (e : error).
Arguments Ok {A} a.
Arguments Raise {A} e.

Definition bind {A B : Type} (m : result A) (k : A -> result B) : result B :=
  match m with
  | Ok a => k a
  | Raise e => Raise e
  end.

Notation "x <- m ;; k" := (bind m (fun x => k))
  (at level 61, m at next level, right associativity).

(** [d[key]] *)
Definition subscript {A : Type} (key : string) (field : option A) : result A :=
  match field with
  | Some a => Ok a
  | None => Raise (KeyError key)
  end.

(** [d.get(key, default)] *)
Definition get_default {A : Type} (field : option A) (default : A) : A :=
  match field with
  | Some a => a
  | None => default
  end.

Definition parse_Domain (s : string) : result Domain :=
  match Domain_of_value s with
  | Some d => Ok d
  | None => Raise (ValueError s)
  end.

Definition parse_EdgeType (s : string) : result EdgeType :=
  match EdgeType_of_value s with
  | Some ty => Ok ty
  | None => Raise (ValueError s)
  end.

(** The [Position(...)] call of [load]. *)
Definition position_of_doc (pdata : position_doc) : result Position.t :=
  id <- subscript "id" (pd_id pdata) ;;
  claim <- subscript "claim" (pd_claim pdata) ;;
  domain <- parse_Domain (get_default (pd_domain pdata) "uncategorized") ;;
  Ok (Position.new _generate_id id claim domain
        (pd_valence pdata)
        (get_default (pd_level pdata) "position")
        (get_default (pd_visit_count pdata) 0%Z)
        (get_default (pd_canonical_score pdata) 0.5)
        (get_default (pd_traditions pdata) [])).

(** The [Edge(...)] call of [load]. *)
Definition edge_of_doc (edata : edge_doc) : result Edge.t :=
  source_id <- subscript "source_id" (ed_source_id edata) ;;
  target_id <- subscript "target_id" (ed_target_id edata) ;;
  edge_type <-
    parse_EdgeType (get_default (ed_edge_type edata) "association") ;;
  Ok (Edge.mk source_id target_id edge_type
        (get_default (ed_weight edata) 0.5)
        (get_default (ed_evidence_count edata) 0%Z)
        (get_default (ed_confidence edata) 0.5)
        (get_default (ed_co_occurrence edata) 0%Z)
        (get_default (ed_tension edata) 0)
        None []).

(** [for pid, pdata in ....items(): graph.positions[pid] = Position(...)] *)
Fixpoint load_positions (items : list (string * position_doc))
         (graph : t) : result t :=
  match items with
  | [] => Ok graph
  | (pid, pdata) :: rest =>
      pos <- position_of_doc pdata ;;
      load_positions rest
        (with_positions graph (Dict.set (positions graph) pid pos))
  end.

(** [for eid, edata in ....items(): graph.edges[eid] = Edge(...)] *)
Fixpoint load_edges (items : list (string * edge_doc))
         (graph : t) : result t :=
  match items with
  | [] => Ok graph
  | (eid, edata) :: rest =>
      edge <- edge_of_doc edata ;;
      load_edges rest (with_edges graph (Dict.set (edges graph) eid edge))
  end.

(** [IdeologicalGraph.load(path)] *)
Definition load (fs : disk) (path : string) : result t :=
  match fs path with
  | None => Ok new
  | Some (Garbage _) => Raise JSONDecodeError
  | Some (Json data) =>
      let graph :=
        mk Dict.empty Dict.empty Dict.empty
           (get_default (gd_name data) "ideograph") 0.1 0.05 in
      graph <- load_positions (get_default (gd_positions data) []) graph ;;
      load_edges (get_default (gd_edges data) []) graph
  end.

End Codec.

Arguments Ok {A} a.
Arguments Raise {A} e.

(** The fields of a position that [save] writes. *)
Definition same_saved_position (p p' : Position.t) : Prop :=
  Position.id p' = Position.id p
  /\ Position.claim p' = Position.claim p
  /\ Position.domain p' = Position.domain p
  /\ Position.valence p' = Position.valence p
  /\ Position.level p' = Position.level p
  /\ Position.visit_count p' = Position.visit_count p
  /\ Position.canonical_score p' = Position.canonical_score p
  /\ Position.traditions p' = Position.traditions p.

(** The fields of an edge that [save] writes. *)
Definition same_saved_edge (e e' : Edge.t) : Prop :=
  Edge.source_id e' = Edge.source_id e
  /\ Edge.target_id e' = Edge.target_id e
  /\ Edge.edge_type e' = Edge.edge_type e
  /\ Edge.weight e' = Edge.weight e
  /\ Edge.evidence_count e' = Edge.evidence_count e
  /\ Edge.confidence e' = Edge.confidence e
  /\ Edge.co_occurrence e' = Edge.co_occurrence e
  /\ Edge.tension e' = Edge.tension e.

(** A position as it comes back from disk: the evidence sources are not
    written. *)
Definition reloaded_position (p : Position.t) : Position.t :=
  Position.mk (Position.id p) (Position.claim p) (Position.domain p)
              (Position.valence p) (Position.level p) []
              (Position.visit_count p) (Position.canonical_score p)
              (Position.traditions p).

(** An edge as it comes back from disk: the priority context and the
    evidence sources are not written. *)
Definition reloaded_edge (e : Edge.t) : Edge.t :=
  Edge.mk (Edge.source_id e) (Edge.target_id e) (Edge.edge_type e)
          (Edge.weight e) (Edge.evidence_count e) (Edge.confidence e)
          (Edge.co_occurrence e) (Edge.tension e) None [].

(** A document in which some position names a domain, or some edge an
    edge type, that the enumerations do not have. *)
Definition unknown_domain (pdata : position_doc) : Prop :=
  Domain_of_value (get_default (pd_domain pdata) "uncategorized") = None.

Definition unknown_edge_type (edata : edge_doc) : Prop :=
  EdgeType_of_value (get_default (ed_edge_type edata) "association") = None.

Definition has_unknown_enum (data : graph_doc) : Prop :=
  Exists (fun kv => unknown_domain (snd kv))
         (get_default (gd_positions data) [])
  \/ Exists (fun kv => unknown_edge_type (snd kv))
            (get_default (gd_edges data) []).

End Persistence.

(* ================================================================= *)
(** ** graph/tension.py *)

Module WeightedBalanceState.

Record t : Type := mk {
  attitudes : Dict.t Q;
  sgm : Q;
  extremeness : Q;
  constraint : Q
}.

(** The loop over [edges] in [_get_relation_sign]. *)
Fixpoint explicit_sign (a b : string) (edges : list Edge.t) : option Q :=
  match edges with
  | [] => None
  | edge :: rest =>
      if (String.eqb (Edge.source_id edge) a
          && String.eqb (Edge.target_id edge) b)
         || (String.eqb (Edge.source_id edge) b
             && String.eqb (Edge.target_id edge) a)
      then
        if EdgeType_eqb (Edge.edge_type edge) CONTRADICTS then Some (-1)
        else if EdgeType_eqb (Edge.edge_type edge) IMPLIES then Some 1
        else explicit_sign a b rest
      else explicit_sign a b rest
  end.

(** [_get_relation_sign(a, b, edges)] *)
Definition _get_relation_sign (st : t) (a b : string)
           (edges : list Edge.t) : option Q :=
  match explicit_sign a b edges with
  | Some s => Some s
  | None =>
      match Dict.get (attitudes st) a, Dict.get (attitudes st) b with
      | Some va, Some vb =>
          Some (if Qlt_le_dec 0 (va * vb) then 1 else -1)
      | _, _ => None
      end
  end.

(** Each element of a list with the elements that follow it:
    [for i, a in enumerate(xs)] together with [xs[i+1:]]. *)
Fixpoint with_rest (xs : list string) : list (string * list string) :=
  match xs with
  | [] => []
  | x :: r => (x, r) :: with_rest r
  end.

(** The triads visited by the three nested loops, in order. *)
Definition triads (position_ids : list string)
  : list (string * string * string) :=
  flat_map
    (fun ar =>
       flat_map
         (fun br => map (fun c => (fst ar, fst br, c)) (snd br))
         (with_rest (snd ar)))
    (with_rest position_ids).

(** The body of the innermost loop: [None] when the triad is skipped,
    otherwise whether it is counted as balanced. *)
Definition classify (st : t) (edges : list Edge.t)
           (abc : string * string * string) : option bool :=
  let '(a, b, c) := abc in
  match _get_relation_sign st a b edges,
        _get_relation_sign st b c edges,
        _get_relation_sign st c a edges with
  | Some sign_ab, Some sign_bc, Some sign_ca =>
      let product := sign_ab * sign_bc * sign_ca in
      Some (if Qlt_le_dec 0 product then true else false)
  | _, _, _ => None
  end.

Definition is_balanced (o : option bool) : bool :=
  match o with Some true => true | _ => false end.

Definition is_imbalanced (o : option bool) : bool :=
  match o with Some false => true | _ => false end.

Definition balanced_count (st : t) (edges : list Edge.t) : nat :=
  List.length
    (filter is_balanced
       (map (classify st edges) (triads (Dict.keys (attitudes st))))).

Definition imbalanced_count (st : t) (edges : list Edge.t) : nat :=
  List.length
    (filter is_imbalanced
       (map (classify st edges) (triads (Dict.keys (attitudes st))))).

(** [calculate_sgm(edges)]: the new state and the value returned. *)
Definition calculate_sgm (st : t) (edges : list Edge.t) : t * Q :=
  if (List.length (attitudes st) <? 3)%nat then (st, 0)
  else
    let balanced := balanced_count st edges in
    let imbalanced := imbalanced_count st edges in
    let total := (balanced + imbalanced)%nat in
    if (total =? 0)%nat then (st, 0)
    else
      let v :=
        inject_Z (Z.of_nat balanced - Z.of_nat imbalanced)
        / inject_Z (Z.of_nat total) in
      (mk (attitudes st) v (extremeness st) (constraint st), v).

(** An edge between [x] and [y], in either direction, that carries a
    sign. *)
Definition signed_between (x y : string) (edge : Edge.t) : bool :=
  ((String.eqb (Edge.source_id edge) x
    && String.eqb (Edge.target_id edge) y)
   || (String.eqb (Edge.source_id edge) y
       && String.eqb (Edge.target_id edge) x))
  && (EdgeType_eqb (Edge.edge_type edge) CONTRADICTS
      || EdgeType_eqb (Edge.edge_type edge) IMPLIES).

(** [x] and [y] are connected by an edge of type [ty]: the first signed
    edge between them in [edges] has that type. *)
Definition joined (edges : list Edge.t) (x y : string) (ty : EdgeType)
  : Prop :=
  exists edge,
    find (signed_between x y) edges = Some edge
    /\ Edge.edge_type edge = ty.

(** A triad connected by two [implies] edges and one [contradicts]
    edge. *)
Definition two_implies_one_contradicts (edges : list Edge.t)
           (a b c : string) : Prop :=
  (joined edges a b IMPLIES /\ joined edges b c IMPLIES
   /\ joined edges c a CONTRADICTS)
  \/ (joined edges a b IMPLIES /\ joined edges b c CONTRADICTS
      /\ joined edges c a IMPLIES)
  \/ (joined edges a b CONTRADICTS /\ joined edges b c IMPLIES
      /\ joined edges c a IMPLIES).

(** The sum of the absolute values of a list of attitudes. *)
Fixpoint abs_sum (vs : list Q) : Q :=
  match vs with
  | [] => 0
  | v :: r => Qabs v + abs_sum r
  end.

(** [calculate_extremeness()]: the new state and the value returned. *)
Definition calculate_extremeness (st : t) : t * Q :=
  if is_empty (attitudes st) then (st, 0)
  else
    let total_extreme :=
      fold_left (fun acc v => acc + Qabs v) (Dict.values (attitudes st)) 0 in
    let v :=
      total_extreme / inject_Z (Z.of_nat (List.length (attitudes st))) in
    (mk (attitudes st) (sgm st) v (constraint st), v).

(** [calculate_constraint(edges)]: the new state and the value returned. *)
Definition calculate_constraint (st : t) (edges : list Edge.t) : t * Q :=
  if (List.length (attitudes st) <? 2)%nat then (st, 0)
  else
    let position_set := py_set (Dict.keys (attitudes st)) in
    let connection_count :=
      List.length
        (filter (fun edge =>
                   str_in (Edge.source_id edge) position_set
                   && str_in (Edge.target_id edge) position_set)
                edges) in
    let n := inject_Z (Z.of_nat (List.length (attitudes st))) in
    let max_connections := n * (n - 1) / 2 in
    let v :=
      if Qlt_le_dec 0 max_connections
      then inject_Z (Z.of_nat connection_count) / max_connections
      else 0 in
    (mk (attitudes st) (sgm st) (extremeness st) v, v).

(** [self.attitudes.get(a, 0)] *)
Definition attitude_or_0 (st : t) (a : string) : Q :=
  match Dict.get (attitudes st) a with
  | Some v => v
  | None => 0
  end.

(** The body of the innermost loop of [find_imbalanced_triads]: the entry
    appended for a triad, if any. *)
Definition imbalanced_entry (st : t) (edges : list Edge.t)
           (abc : string * string * string)
  : list (string * string * string * Q) :=
  let '(a, b, c) := abc in
  match _get_relation_sign st a b edges,
        _get_relation_sign st b c edges,
        _get_relation_sign st c a edges with
  | Some sign_ab, Some sign_bc, Some sign_ca =>
      let product := sign_ab * sign_bc * sign_ca in
      if Qlt_le_dec product 0
      then [(a, b, c,
             (Qabs (attitude_or_0 st a) + Qabs (attitude_or_0 st b)
              + Qabs (attitude_or_0 st c)) / 3)]
      else []
  | _, _, _ => []
  end.

(** [find_imbalanced_triads(edges)] *)
Definition find_imbalanced_triads (st : t) (edges : list Edge.t)
  : list (string * string * string * Q) :=
  sort_desc snd
    (flat_map (imbalanced_entry st edges)
              (triads (Dict.keys (attitudes st)))).

End WeightedBalanceState.

(* ================================================================= *)
(** ** The signed graph measure as the specification words it

    "For every unordered triad of attitude-bearing positions, derive each
    pairwise relation sign; skip the triad if any of the three signs is
    undeterminable.  A triad is balanced if the product of its three signs
    is positive.  SGM = (balanced - imbalanced) / total triads."  The
    pairwise sign is the one [_get_relation_sign] gives; the triads, their
    classification and the counts are defined here without the loops of
    [calculate_sgm]. *)

Module SgmSpec.

Import WeightedBalanceState.

(** The selections of [n] elements of a list, each in list order. *)
Fixpoint choose (n : nat) (xs : list string) {struct xs}
  : list (list string) :=
  match xs with
  | [] => match n with O => [[]] | S _ => [] end
  | x :: r =>
      match n with
      | O => [[]]
      | S m => (map (cons x) (choose m r) ++ choose n r)%list
      end
  end.

(** The unordered triads of the attitude-bearing positions. *)
Definition unordered_triads (st : t) : list (list string) :=
  choose 3 (Dict.keys (attitudes st)).

(** The three pairwise signs of a triad, when each is determinable. *)
Definition signs (st : t) (edges : list Edge.t) (triad : list string)
  : option (Q * Q * Q) :=
  match triad with
  | [a; b; c] =>
      match _get_relation_sign st a b edges,
            _get_relation_sign st a c edges,
            _get_relation_sign st b c edges with
      | Some sab, Some sac, Some sbc => Some (sab, sac, sbc)
      | _, _, _ => None
      end
  | _ => None
  end.

Definition product (s : Q * Q * Q) : Q := fst (fst s) * snd (fst s) * snd s.


(** Balanced: the product of the three signs is positive. *)
Definition balanced (st : t) (edges : list Edge.t) (triad : list string)
  : bool :=
  match signs st edges triad with
  | Some s => if Qlt_le_dec 0 (product s) then true else false
  | None => false
  end.

(** Imbalanced: the product of the three signs is negative. *)
Definition imbalanced (st : t) (edges : list Edge.t) (triad : list string)
  : bool :=
  match signs st edges triad with
  | Some s => if Qlt_le_dec (product s) 0 then true else false
  | None => false
  end.

(** The number of unordered triads with a property. *)
Definition count (p : list string -> bool) (st : t) : nat :=
  List.length (filter p (unordered_triads st)).


End SgmSpec.

Module TensionAnalyzer.

Import IdeologicalGraph.

(** The attitude a choice stands for: its confidence, signed by the
    answer. *)
Definition attitude_of (choice : Choice.t) : Q :=
  (if Choice.accepted choice then 1 else -1) * Choice.confidence choice.

(** The loop of [get_walker_balance_state] over the walker's choices. *)
Definition attitudes_of (choices : list Choice.t) : Dict.t Q :=
  fold_left
    (fun d choice =>
       Dict.set d (Choice.position_id choice) (attitude_of choice))
    choices Dict.empty.


(** [get_walker_balance_state(walker)] *)
Definition get_walker_balance_state (g : t) (walker : Walker.t)
  : WeightedBalanceState.t :=
  let state :=
    WeightedBalanceState.mk (attitudes_of (Walker.choices walker)) 0 0 0 in
  let all_edges := Dict.values (edges g) in
  let state := fst (WeightedBalanceState.calculate_sgm state all_edges) in
  let state := fst (WeightedBalanceState.calculate_extremeness state) in
  fst (WeightedBalanceState.calculate_constraint state all_edges).

End TensionAnalyzer.

(* ================================================================= *)
(** ** graph/probing.py *)

Module Prediction.
Record t : Type := mk {
  position_id : string;
  predicted_acceptance : Q;
  uncertainty : Q;
  reasoning : string;
  actual_acceptance : option bool;
  was_tested : bool
}.

(** [Prediction.was_wrong] *)
Definition was_wrong (p : t) : bool :=
  match was_tested p, actual_acceptance p with
  | true, Some actual =>
      let predicted_yes :=
        if Qlt_le_dec 0.5 (predicted_acceptance p) then true else false in
      negb (Bool.eqb predicted_yes actual)
  | _, _ => false
  end.

(** [Prediction.error_magnitude] *)
Definition error_magnitude (p : t) : Q :=
  match was_tested p, actual_acceptance p with
  | true, Some actual =>
      Qabs (predicted_acceptance p - (if actual then 1 else 0))
  | _, _ => 0
  end.
End Prediction.

Module ProbeQuestion.
Record t : Type := mk {
  position_id : string;
  question : string;
  prediction : Prediction.t;
  probe_type : string
}.
End ProbeQuestion.

Module AdaptiveProber.

Import IdeologicalGraph.

Definition sum_weights (es : list Edge.t) : Q :=
  fold_left (fun acc e => acc + Edge.weight e) es 0.

(** Incoming [implies] edges whose source was accepted. *)
Definition implies_signals (g : t) (accepted : list string)
           (position : Position.t) : list Edge.t :=
  filter (fun edge =>
            String.eqb (EdgeType_value (Edge.edge_type edge)) "implies"
            && str_in (Edge.source_id edge) accepted)
         (edges_to g (Position.id position)).

(** [contradicts] edges between the position and an accepted one. *)
Definition contradicts_signals (g : t) (accepted : list string)
           (position : Position.t) : list Edge.t :=
  filter (fun edge =>
            if negb (String.eqb (EdgeType_value (Edge.edge_type edge))
                                "contradicts")
            then false
            else (String.eqb (Edge.source_id edge) (Position.id position)
                  && str_in (Edge.target_id edge) accepted)
                 || (String.eqb (Edge.target_id edge) (Position.id position)
                     && str_in (Edge.source_id edge) accepted))
         (Dict.values (edges g)).

(** Rejected positions with some edge to the position. *)
Definition rejected_signals (g : t) (rejected : list string)
           (position : Position.t) : list string :=
  filter (fun rej_id =>
            match get_edge g rej_id (Position.id position) None with
            | Some _ => true
            | None => false
            end)
         rejected.

Definition join_parts (parts : list string) : string :=
  String.concat "; " parts.

(** [predict_position(walker, position)] *)
Definition predict_position (g : t) (walker : Walker.t)
           (position : Position.t) : Prediction.t :=
  let accepted := py_set (Walker.positions_accepted walker) in
  let rejected := py_set (Walker.positions_rejected walker) in
  if is_empty accepted && is_empty rejected then
    Prediction.mk (Position.id position) 0.5 1 "No prior data" None false
  else
      let implies_edges := implies_signals g accepted position in
      let implies_score := sum_weights implies_edges in
      let implies_count := List.length implies_edges in
      let contradicts_edges := contradicts_signals g accepted position in
      let contradicts_score := sum_weights contradicts_edges in
      let contradicts_count := List.length contradicts_edges in
      let rejected_similar :=
        List.length (rejected_signals g rejected position) in
      let total_signals :=
        (implies_count + contradicts_count + rejected_similar)%nat in
      if (total_signals =? 0)%nat then
        Prediction.mk (Position.id position) 0.5 0.8
                      "No related positions tested" None false
      else
        let acceptance_push :=
          implies_score / inject_Z (Z.of_nat (Nat.max implies_count 1)) in
        let rejection_push :=
          contradicts_score
          / inject_Z (Z.of_nat (Nat.max contradicts_count 1)) in
        let predicted := 0.5 + (acceptance_push - rejection_push) * 0.4 in
        let predicted := py_max 0 (py_min 1 predicted) in
        let uncertainty :=
          1 / (1 + 0.3 * inject_Z (Z.of_nat total_signals)) in
        let reasoning_parts :=
          ((if (0 <? implies_count)%nat
            then [String.append (str_of_nat implies_count)
                                " implies edges suggest acceptance"]
            else [])
           ++
           (if (0 <? contradicts_count)%nat
            then [String.append (str_of_nat contradicts_count)
                                " contradicts edges suggest rejection"]
            else []))%list in
        Prediction.mk (Position.id position) predicted uncertainty
          (match join_parts reasoning_parts with
           | EmptyString => "Based on graph structure"
           | s => s
           end)
          None false.

(** [get_untested_positions(walker)] *)
Definition get_untested_positions (g : t) (walker : Walker.t)
  : list Position.t :=
  let tested := py_set (Walker.path walker) in
  filter (fun p => negb (str_in (Position.id p) tested))
         (Dict.values (positions g)).

(** [find_highest_uncertainty(walker, n)] *)
Definition find_highest_uncertainty (g : t) (walker : Walker.t) (n : Z)
  : list Prediction.t :=
  let untested := get_untested_positions g walker in
  let predictions := map (predict_position g walker) untested in
  py_take n (sort_desc Prediction.uncertainty predictions).

(** [_infer_dimension(walker, probe)] *)
Definition _infer_dimension (g : t) (walker : Walker.t)
           (probe : ProbeQuestion.t) : option string :=
  match get_position g (ProbeQuestion.position_id probe) with
  | None => None
  | Some position =>
      let accepted := py_set (Walker.positions_accepted walker) in
      let conflicting_edges := implies_signals g accepted position in
      match conflicting_edges with
      | [] =>
          Some ("Unexpected response in "
                ++ Domain_value (Position.domain position) ++ " domain")
      | _ =>
          Some ("Implied by "
                ++ str_of_nat (List.length conflicting_edges)
                ++ " accepted positions but rejected")
      end
  end.

(** [record_response(walker, probe, accepted)]: the new walker and the
    probe with its prediction marked as tested. *)
Definition record_response (g : t) (walker : Walker.t)
           (probe : ProbeQuestion.t) (accepted : bool)
  : Walker.t * ProbeQuestion.t :=
  let prediction := ProbeQuestion.prediction probe in
  let prediction' :=
    Prediction.mk (Prediction.position_id prediction)
                  (Prediction.predicted_acceptance prediction)
                  (Prediction.uncertainty prediction)
                  (Prediction.reasoning prediction)
                  (Some accepted) true in
  let probe' :=
    ProbeQuestion.mk (ProbeQuestion.position_id probe)
                     (ProbeQuestion.question probe) prediction'
                     (ProbeQuestion.probe_type probe) in
  if Prediction.was_wrong prediction' then
    let error :=
      PredictionError.mk
        (ProbeQuestion.position_id probe')
        (if Qlt_le_dec 0.5 (Prediction.predicted_acceptance prediction')
         then true else false)
        accepted
        (1 - Prediction.uncertainty prediction')
        (_infer_dimension g walker probe') in
    (Walker.mk (Walker.user_id walker) (Walker.session_id walker)
               (Walker.path walker) (Walker.choices walker)
               (Walker.prediction_errors walker ++ [error])%list
               (Walker.edges_strengthened walker)
               (Walker.edges_weakened walker),
     probe')
  else (walker, probe').

(** The walker's history bears no signal on the position: no [implies]
    edge into it from an accepted position, no [contradicts] edge between
    it and an accepted position, no edge into it from a rejected
    position. *)
Definition no_signals (g : t) (walker : Walker.t) (position : Position.t)
  : Prop :=
  let pid := Position.id position in
  let accepted := Walker.positions_accepted walker in
  let rejected := Walker.positions_rejected walker in
  (forall e, In e (Dict.values (edges g)) ->
             Edge.edge_type e = IMPLIES -> Edge.target_id e = pid ->
             ~ In (Edge.source_id e) accepted)
  /\ (forall e, In e (Dict.values (edges g)) ->
                Edge.edge_type e = CONTRADICTS ->
                (Edge.source_id e = pid -> ~ In (Edge.target_id e) accepted)
                /\ (Edge.target_id e = pid ->
                    ~ In (Edge.source_id e) accepted))
  /\ (forall e, In e (Dict.values (edges g)) ->
                In (Edge.source_id e) rejected ->
                Edge.target_id e <> pid).

End AdaptiveProber.

(* ================================================================= *)
(** ** graph/attractors.py *)

Module Void.
Record t : Type := mk {
  position_id : string;
  position_claim : string;
  expected_from : list string;
  expected_visitors : Z;
  actual_visitors : Z;
  void_ratio : Q;
  possible_reasons : list string
}.
End Void.

Module Attractor.
Record t : Type := mk {
  center_id : string;
  center_claim : string;
  basin_ids : list string;
  visit_count : Z;
  unique_walkers : Z;
  patterns : list string;
  strength : Q
}.
End Attractor.

Module AttractorDetector.

Import IdeologicalGraph.

(** [_hypothesize_void_reasons(position, incoming_edges)] *)
Definition _hypothesize_void_reasons (g : t) (position : Position.t)
           (incoming_edges : list Edge.t) : list string :=
  let contradictions := contradicts g (Position.id position) in
  let high_traffic_contradictions :=
    filter (fun p => (10 <? Position.visit_count p)%Z) contradictions in
  let reasons1 :=
    match high_traffic_contradictions with
    | [] => []
    | _ => ["socially_costly"]
    end in
  let source_domains :=
    py_set
      (flat_map (fun edge =>
                   match get_position g (Edge.source_id edge) with
                   | Some source => [Domain_value (Position.domain source)]
                   | None => []
                   end)
                incoming_edges) in
  let reasons2 :=
    if (3 <=? List.length source_domains)%nat
    then (reasons1 ++ ["rare_combination"])%list else reasons1 in
  let reasons3 :=
    if Qlt_le_dec (Position.canonical_score position) 0.3
    then (reasons2 ++ ["unarticulated"])%list else reasons2 in
  match reasons3 with
  | [] => ["unknown"]
  | _ => reasons3
  end.

(** The accumulation of [expected] and [expected_from] over the incoming
    edges. *)
Definition expected_visits (g : t) (incoming : list Edge.t)
  : Q * list string :=
  fold_left
    (fun acc edge =>
       match get_position g (Edge.source_id edge) with
       | Some source =>
           (fst acc + inject_Z (Position.visit_count source)
                      * Edge.weight edge,
            (snd acc ++ [Edge.source_id edge])%list)
       | None => acc
       end)
    incoming (0, []).

(** The body of the loop of [detect_voids] for one position: the void
    appended, if any. *)
Definition void_at (g : t) (min_expected min_void_ratio : Q)
           (pos_id : string) (position : Position.t) : list Void.t :=
  let incoming := edges_to g pos_id in
  match incoming with
  | [] => []
  | _ =>
      let '(expected, expected_from) := expected_visits g incoming in
      if Qlt_le_dec expected min_expected then []
      else
        let actual := Position.visit_count position in
        let void_ratio :=
          if Qlt_le_dec 0 expected then 1 - inject_Z actual / expected
          else 0 in
        if Qlt_le_dec void_ratio min_void_ratio then []
        else
          [Void.mk pos_id (Position.claim position) expected_from
                   (py_int expected) actual void_ratio
                   (_hypothesize_void_reasons g position incoming)]
  end.

(** [detect_voids(min_expected, min_void_ratio)] *)
Definition detect_voids (g : t) (min_expected min_void_ratio : Q)
  : list Void.t :=
  sort_desc Void.void_ratio
    (flat_map (fun kv => void_at g min_expected min_void_ratio
                                 (fst kv) (snd kv))
              (Dict.items (positions g))).

(** [max(p.visit_count for p in self.graph.positions.values()) or 1].
    The expression is evaluated inside the loop over the positions, so the
    position map is not empty there. *)
Definition max_visits (g : t) : Z :=
  match map Position.visit_count (Dict.values (positions g)) with
  | [] => 1%Z
  | v :: vs =>
      let m := fold_left Z.max vs v in
      if (m =? 0)%Z then 1%Z else m
  end.

(** [sum(e.weight for e in incoming) if incoming else 0] *)
Definition incoming_weight (incoming : list Edge.t) : Q :=
  match incoming with
  | [] => 0
  | _ => fold_left (fun acc e => acc + Edge.weight e) incoming 0
  end.

(** The strength computed by [detect_attractors] for a position. *)
Definition attractor_strength (g : t) (pos_id : string)
           (position : Position.t) : Q :=
  let incoming := edges_to g pos_id in
  let incoming_count := List.length incoming in
  let visit_score :=
    inject_Z (Position.visit_count position) / inject_Z (max_visits g) in
  visit_score * 0.5
  + py_min 1 (inject_Z (Z.of_nat incoming_count) / 10) * 0.25
  + py_min 1 (incoming_weight incoming / 5) * 0.25.

(** The body of the loop of [detect_attractors] for one position: the
    attractor appended, if any. *)
Definition attractor_at (g : t) (min_visits : Z) (min_strength : Q)
           (pos_id : string) (position : Position.t) : list Attractor.t :=
  if (Position.visit_count position <? min_visits)%Z then []
  else
    let strength := attractor_strength g pos_id position in
    if Qlt_le_dec strength min_strength then []
    else
      [Attractor.mk pos_id (Position.claim position)
         (py_set (map Edge.source_id (edges_to g pos_id)))
         (Position.visit_count position) 0 [] strength].

(** [detect_attractors(min_visits, min_strength)] *)
Definition detect_attractors (g : t) (min_visits : Z) (min_strength : Q)
  : list Attractor.t :=
  sort_desc Attractor.strength
    (flat_map (fun kv => attractor_at g min_visits min_strength
                                      (fst kv) (snd kv))
              (Dict.items (positions g))).

(** [len(set(void.expected_from) & accepted)] *)
Definition connection_score (accepted : list string) (void : Void.t) : nat :=
  List.length
    (filter (fun x => str_in x accepted) (py_set (Void.expected_from void))).

(** [suggest_void_exploration(walker, n)] *)
Definition suggest_void_exploration (g : t) (walker : Walker.t) (n : Z)
  : list Void.t :=
  let voids := detect_voids g 5 0.7 in
  let accepted := py_set (Walker.positions_accepted walker) in
  let visited := py_set (Walker.path walker) in
  let candidates :=
    flat_map
      (fun void =>
         if str_in (Void.position_id void) visited then []
         else
           let score := connection_score accepted void in
           if (0 <? score)%nat then [(void, score)] else [])
      voids in
  map fst
      (py_take n
         (sort_desc (fun c => inject_Z (Z.of_nat (snd c))) candidates)).

(** [len(accepted & attractor.basin_ids)], plus 2 when the centre itself
    is accepted. *)
Definition basin_overlap (accepted : list string) (attractor : Attractor.t)
  : Z :=
  let overlap :=
    Z.of_nat
      (List.length
         (filter (fun x => str_in x (Attractor.basin_ids attractor))
                 accepted)) in
  if str_in (Attractor.center_id attractor) accepted
  then (overlap + 2)%Z else overlap.

(** [find_basin_for_walker(walker)]: the loop state is
    [(best_attractor, best_overlap)]. *)
Definition find_basin_for_walker (g : t) (walker : Walker.t)
  : option Attractor.t :=
  let accepted := py_set (Walker.positions_accepted walker) in
  let attractors := detect_attractors g 10 0.3 in
  fst (fold_left
         (fun best attractor =>
            let overlap := basin_overlap accepted attractor in
            if (snd best <? overlap)%Z then (Some attractor, overlap)
            else best)
         attractors (None, 0%Z)).

End AttractorDetector.

(* ================================================================= *)
(** ** graph/compaction.py *)

Module ForkDecisiveness.

Record t : Type := mk {
  fork_id : string;
  downstream_positions : Z;
  prediction_accuracy : Q;
  information_gain : Q;
  betweenness : Q;
  depth : Z;
  variance_explained : Q;
  archetype_alignment : Q
}.

(** [ForkDecisiveness.decisiveness_score] *)
Definition decisiveness_score (d : t) : Q :=
  information_gain d * 0.3
  + prediction_accuracy d * 0.25
  + (inject_Z (downstream_positions d) / 50) * 0.2
  + variance_explained d * 0.15
  + betweenness d * 0.1.

(** The score as the specification words it, with the downstream term
    capped: [0.3*ig + 0.25*pa + 0.2*min(1, downstream/50) + 0.15*ve
    + 0.1*b]. *)
Definition capped_score (d : t) : Q :=
  0.3 * information_gain d
  + 0.25 * prediction_accuracy d
  + 0.2 * py_min 1 (inject_Z (downstream_positions d) / 50)
  + 0.15 * variance_explained d
  + 0.1 * betweenness d.

(** The same sum without the cap. *)
Definition uncapped_score (d : t) : Q :=
  0.3 * information_gain d
  + 0.25 * prediction_accuracy d
  + 0.2 * (inject_Z (downstream_positions d) / 50)
  + 0.15 * variance_explained d
  + 0.1 * betweenness d.

End ForkDecisiveness.

Module Archetype.

Record t : Type := mk {
  name : string;
  description : string;
  fork_choices : Dict.t string;
  population_share : Q;
  stability : Q;
  traits : list string
}.

(** One turn of the loop of [matches] over [fork_choices.items()]; the
    state is [(matches, total)]. *)
Definition tally (walker : Walker.t) (acc : Z * Z) (kv : string * string)
  : Z * Z :=
  let fork_id := fst kv in
  let expected_choice := snd kv in
  let pos_id_a := String.append fork_id "_a" in
  let pos_id_b := String.append fork_id "_b" in
  if str_in pos_id_a (Walker.positions_accepted walker) then
    ((if (expected_choice =? "a")%string then fst acc + 1 else fst acc)%Z,
     (snd acc + 1)%Z)
  else if str_in pos_id_b (Walker.positions_accepted walker) then
    ((if (expected_choice =? "b")%string then fst acc + 1 else fst acc)%Z,
     (snd acc + 1)%Z)
  else acc.

(** [Archetype.matches(walker, tree)]; the body never reads [tree]. *)
Definition matches (self : t) (walker : Walker.t) : Q :=
  if is_empty (Dict.items (fork_choices self)) then 0
  else
    let counts :=
      fold_left (tally walker) (Dict.items (fork_choices self))
                (0%Z, 0%Z) in
    if (0 <? snd counts)%Z
    then inject_Z (fst counts) / inject_Z (snd counts)
    else 0.

End Archetype.

Module GraphCompactor.

(** The test of the [if] branch of the counting loop,
    [f"{fork_id}_a" in walker.positions_accepted], and the condition under
    which the [elif] branch is taken. *)
Definition took_a (fork_id : string) (walker : Walker.t) : bool :=
  str_in (String.append fork_id "_a") (Walker.positions_accepted walker).

Definition took_b (fork_id : string) (walker : Walker.t) : bool :=
  negb (took_a fork_id walker)
  && str_in (String.append fork_id "_b") (Walker.positions_accepted walker).

(** One turn of the counting loop of [_calculate_variance_explained]; the
    state is [(a_count, b_count)]. *)
Definition count_choice (fork_id : string) (acc : Z * Z) (walker : Walker.t)
  : Z * Z :=
  if str_in (String.append fork_id "_a") (Walker.positions_accepted walker)
  then ((fst acc + 1)%Z, snd acc)
  else if str_in (String.append fork_id "_b")
                 (Walker.positions_accepted walker)
  then (fst acc, (snd acc + 1)%Z)
  else acc.

(** [_calculate_variance_explained(fork_id, walkers)] *)
Definition _calculate_variance_explained (fork_id : string)
           (walkers : list Walker.t) : Q :=
  if is_empty walkers then 0
  else
    let counts := fold_left (count_choice fork_id) walkers (0%Z, 0%Z) in
    let a_count := fst counts in
    let b_count := snd counts in
    let total := (a_count + b_count)%Z in
    if (total =? 0)%Z then 0
    else
      let p := inject_Z a_count / inject_Z total in
      let variance := 4 * p * (1 - p) in
      variance.

End GraphCompactor.

(* ================================================================= *)
(** ** Small graphs and walkers used as test data *)

Module Scenario.

Import IdeologicalGraph.

Definition position (id : string) (visits : Z) : Position.t :=
  Position.mk id id UNCATEGORIZED None "position" [] visits 0.5 [].

Definition walker (path : list string) : Walker.t :=
  Walker.mk "user" "user_0" path [] [] [] [].

(** Positions A and B joined by a single [implies] edge A -> B. *)
Definition implies_graph : t :=
  let g := with_positions new
             [("A", position "A" 0); ("B", position "B" 0)] in
  fst (connect g "A" "B" IMPLIES 0.5).

(** Positions A and B joined by a [contradicts] edge A -> B, added first,
    and an [implies] edge A -> B, added second. *)
Definition mixed_graph : t :=
  let g := with_positions new
             [("A", position "A" 0); ("B", position "B" 0)] in
  let g := fst (connect g "A" "B" CONTRADICTS 0.5) in
  fst (connect g "A" "B" IMPLIES 0.5).

(** Position A and a [prioritizes_over] edge A -> B that applies in a
    stated context, as built by [prioritizes("A", "B", context=...)]. *)
Definition priority_graph : t :=
  let g := with_positions new [("A", position "A" 3)] in
  fst (add_edge g (Edge.mk "A" "B" PRIORITIZES_OVER 0.5 0 0.5 0 0
                           (Some "wartime") [])).



(** A walker that accepted A and rejected B. *)
Definition decided_walker : Walker.t :=
  Walker.mk "user" "user_0" ["A"; "B"]
    [Choice.mk "A" "" true 0.8 None false 0 None;
     Choice.mk "B" "" false 0.8 None false 0 None]
    [] [] [].

(** Positions A, B, C and D with a single [implies] edge C -> D. *)
Definition detached_graph : t :=
  let g := with_positions new
             [("A", position "A" 1); ("B", position "B" 1);
              ("C", position "C" 0); ("D", position "D" 0)] in
  fst (connect g "C" "D" IMPLIES 0.5).

(** A source S visited 100 times and a position P never visited, joined
    by an [implies] edge S -> P of weight 1. *)
Definition void_graph : t :=
  let g := with_positions new
             [("S", position "S" 100); ("P", position "P" 0)] in
  fst (connect g "S" "P" IMPLIES 1).

(** A fork record with the given downstream count, an information gain
    of 0.5 and all other scores 0. *)
Definition fork_record (downstream : Z) : ForkDecisiveness.t :=
  ForkDecisiveness.mk "fork" downstream 0 0.5 0 0 0 0.

(** A disk without files. *)
Definition empty_disk : Persistence.disk := fun _ => None.

(** A document whose only position names a domain that does not exist. *)
Definition bad_domain_doc : Persistence.graph_doc :=
  Persistence.mk_graph_doc (Some "g")
    (Some [("A", Persistence.mk_position_doc
                   (Some "A") (Some "A") (Some "astrology") None
                   None None None None)])
    None.

End Scenario.

(* ================================================================= *)
(** * Properties *)

(** ** Built-ins *)

Lemma py_min_le_l (a b : Q) : py_min a b <= a.
Proof.
  unfold py_min. destruct (Qlt_le_dec b a); lra.
Qed.

Lemma py_min_glb (a b c : Q) : c <= a -> c <= b -> c <= py_min a b.
Proof.
  unfold py_min. destruct (Qlt_le_dec b a); lra.
Qed.

Lemma py_min_r (a b : Q) : b <= a -> py_min a b == b.
Proof.
  unfold py_min. destruct (Qlt_le_dec b a); lra.
Qed.

Lemma py_max_ge_l (a b : Q) : a <= py_max a b.
Proof.
  unfold py_max. destruct (Qlt_le_dec a b); lra.
Qed.

Lemma py_max_lub (a b c : Q) : a <= c -> b <= c -> py_max a b <= c.
Proof.
  unfold py_max. destruct (Qlt_le_dec a b); lra.
Qed.

Lemma py_max_r (a b : Q) : a <= b -> py_max a b == b.
Proof.
  unfold py_max. destruct (Qlt_le_dec a b); lra.
Qed.

Lemma str_in_In (x : string) (xs : list string) :
  str_in x xs = true <-> In x xs.
Proof.
  unfold str_in. rewrite existsb_exists. split.
  - intros [y [Hy Heq]]. apply String.eqb_eq in Heq. now subst.
  - intros H. exists x. split; [assumption | apply String.eqb_refl].
Qed.

Lemma str_in_app_self (x : string) (xs : list string) :
  str_in x (xs ++ [x]) = true.
Proof.
  apply str_in_In, in_or_app. right. now left.
Qed.

(** ** Dictionaries *)

Section DictFacts.
Context {V : Type}.
Implicit Types (d : Dict.t V) (k : string) (v : V).

Lemma get_In d k v : Dict.get d k = Some v -> In (k, v) d.
Proof.
  induction d as [|[k' v'] r IH]; simpl; [discriminate|].
  destruct (String.eqb k' k) eqn:E.
  - apply String.eqb_eq in E. intros [= ->]. subst. now left.
  - intros H. right. now apply IH.
Qed.

Lemma get_None_keys d k : Dict.get d k = None <-> ~ In k (Dict.keys d).
Proof.
  induction d as [|[k' v'] r IH]; simpl.
  - tauto.
  - destruct (String.eqb k' k) eqn:E.
    + apply String.eqb_eq in E. split; [discriminate | intros H; tauto].
    + apply String.eqb_neq in E. rewrite IH. tauto.
Qed.

Lemma In_get d k v : Dict.wf d -> In (k, v) d -> Dict.get d k = Some v.
Proof.
  unfold Dict.wf, Dict.keys.
  induction d as [|[k' v'] r IH]; simpl; [tauto|].
  intros Hnd Hin. inversion Hnd as [|? ? Hnotin Hnd']; subst.
  destruct Hin as [[= -> ->]|Hin].
  - now rewrite String.eqb_refl.
  - destruct (String.eqb k' k) eqn:E.
    + apply String.eqb_eq in E. subst. exfalso. apply Hnotin.
      change k with (fst (k, v)). now apply in_map.
    + now apply IH.
Qed.

Lemma get_set_same d k v : Dict.get (Dict.set d k v) k = Some v.
Proof.
  induction d as [|[k' v'] r IH]; simpl.
  - now rewrite String.eqb_refl.
  - destruct (String.eqb k' k) eqn:E; simpl.
    + now rewrite String.eqb_refl.
    + now rewrite E.
Qed.

Lemma get_set_other d k k' v :
  k' <> k -> Dict.get (Dict.set d k v) k' = Dict.get d k'.
Proof.
  intros Hne. induction d as [|[k0 v0] r IH]; simpl.
  - destruct (String.eqb k k') eqn:E; [|reflexivity].
    apply String.eqb_eq in E. congruence.
  - destruct (String.eqb k0 k) eqn:E; simpl.
    + apply String.eqb_eq in E. subst k0.
      destruct (String.eqb k k') eqn:E'; [|reflexivity].
      apply String.eqb_eq in E'. congruence.
    + now rewrite IH.
Qed.

Lemma keys_set_present d k v :
  In k (Dict.keys d) -> Dict.keys (Dict.set d k v) = Dict.keys d.
Proof.
  unfold Dict.keys.
  induction d as [|[k0 v0] r IH]; simpl; [tauto|].
  intros Hin. destruct (String.eqb k0 k) eqn:E; simpl.
  - apply String.eqb_eq in E. now subst.
  - apply String.eqb_neq in E. f_equal. apply IH. tauto.
Qed.

Lemma keys_set_absent d k v :
  ~ In k (Dict.keys d) -> Dict.keys (Dict.set d k v) = (Dict.keys d ++ [k])%list.
Proof.
  unfold Dict.keys.
  induction d as [|[k0 v0] r IH]; simpl; [reflexivity|].
  intros Hin. destruct (String.eqb k0 k) eqn:E; simpl.
  - apply String.eqb_eq in E. tauto.
  - f_equal. apply IH. tauto.
Qed.

Lemma set_absent d k v :
  ~ In k (Dict.keys d) -> Dict.set d k v = (d ++ [(k, v)])%list.
Proof.
  unfold Dict.keys.
  induction d as [|[k0 v0] r IH]; simpl; [reflexivity|].
  intros Hin. destruct (String.eqb k0 k) eqn:E; simpl.
  - apply String.eqb_eq in E. tauto.
  - f_equal. apply IH. tauto.
Qed.

Lemma In_set d k v k' v' :
  In (k', v') (Dict.set d k v) -> (k' = k /\ v' = v) \/ In (k', v') d.
Proof.
  induction d as [|[k0 v0] r IH]; simpl.
  - intros [[= <- <-]|[]]. now left.
  - destruct (String.eqb k0 k); simpl.
    + intros [[= <- <-]|H]; [now left | right; now right].
    + intros [H|H]; [right; now left|].
      destruct (IH H) as [H'|H']; [now left | right; now right].
Qed.

Lemma wf_set d k v : Dict.wf d -> Dict.wf (Dict.set d k v).
Proof.
  unfold Dict.wf. intros Hwf.
  destruct (in_dec string_dec k (Dict.keys d)) as [Hin|Hnin].
  - now rewrite keys_set_present.
  - rewrite keys_set_absent by assumption.
    apply NoDup_app; [assumption | repeat constructor; simpl; tauto |].
    intros x Hx [<-|[]]. contradiction.
Qed.

End DictFacts.

(* ================================================================= *)
(** ** Edge mutators and the bounds of weight, confidence and tension *)

Section EdgeBounds.
Import Edge.

Lemma strengthen_weight_bounds (e : t) (a : Q) :
  unit_interval (weight e) -> 0 <= a <= 1 ->
  unit_interval (weight (strengthen e a)).
Proof.
  unfold unit_interval. intros Hw Ha. simpl. split.
  - apply py_min_glb; nra.
  - apply py_min_le_l.
Qed.

Lemma strengthen_weight_mono (e : t) (a : Q) :
  weight e <= 1 -> 0 <= a -> weight e <= weight (strengthen e a).
Proof.
  intros Hw Ha. simpl. apply py_min_glb; nra.
Qed.

Lemma weaken_weight_bounds (e : t) (a : Q) :
  unit_interval (weight e) -> 0 <= a <= 1 ->
  unit_interval (weight (weaken e a)).
Proof.
  unfold unit_interval. intros Hw Ha. simpl. split.
  - apply py_max_ge_l.
  - apply py_max_lub; nra.
Qed.

Lemma add_evidence_confidence_bounds (e : t) (s : string) :
  unit_interval (confidence e) ->
  unit_interval (confidence (add_evidence e s)).
Proof.
  unfold unit_interval, add_evidence. intros Hc.
  destruct (str_in s (sources e)); [assumption|]. simpl. split.
  - apply py_min_glb; [lra|].
    assert (0 <= inject_Z (Z.of_nat (List.length (sources e ++ [s]))))
      by (change 0 with (inject_Z 0); rewrite <- Zle_Qle; lia).
    nra.
  - apply py_min_le_l.
Qed.

Lemma apply_preserves (e : t) (o : op) :
  unit_interval (weight e) -> unit_interval (confidence e) -> op_ok o ->
  unit_interval (weight (apply e o))
  /\ unit_interval (confidence (apply e o))
  /\ tension (apply e o)
     == tension e + inject_Z (Z.of_nat (tension_records [o])).
Proof.
  intros Hw Hc Hok.
  assert (Hz : forall x : Q, x == x + inject_Z (Z.of_nat 0))
    by (intros x; simpl; change (inject_Z 0) with 0; ring).
  destruct o as [a|a|s|]; simpl in *; (split; [|split]).
  - now apply strengthen_weight_bounds.
  - exact Hc.
  - apply Hz.
  - now apply weaken_weight_bounds.
  - exact Hc.
  - apply Hz.
  - unfold add_evidence. now destruct (str_in s (sources e)).
  - now apply add_evidence_confidence_bounds.
  - unfold add_evidence. destruct (str_in s (sources e)); apply Hz.
  - exact Hw.
  - exact Hc.
  - unfold tension_records; simpl. reflexivity.
Qed.

Lemma tension_records_cons (o : op) (ops : list op) :
  inject_Z (Z.of_nat (tension_records (o :: ops)))
  == inject_Z (Z.of_nat (tension_records [o]))
     + inject_Z (Z.of_nat (tension_records ops)).
Proof.
  rewrite <- inject_Z_plus, <- Nat2Z.inj_add.
  unfold tension_records. simpl.
  destruct o; simpl; reflexivity.
Qed.

End EdgeBounds.

(** C2 (amended).  Starting from an edge whose weight, confidence and
    tension lie in [[0,1]], every sequence of [strengthen]/[weaken] calls
    with amounts in [[0,1]], [add_evidence] and [record_tension] calls keeps
    the weight and the confidence in [[0,1]].  The tension is a counter: it
    never drops below 0 and grows by exactly 1 with each [record_tension],
    so it is not bounded by 1. *)
Theorem Edge_mutators_bounds (e : Edge.t) (ops : list Edge.op) :
  Edge.in_bounds e ->
  Forall Edge.op_ok ops ->
  Edge.unit_interval (Edge.weight (Edge.run e ops))
  /\ Edge.unit_interval (Edge.confidence (Edge.run e ops))
  /\ Edge.tension (Edge.run e ops)
     == Edge.tension e + inject_Z (Z.of_nat (Edge.tension_records ops))
  /\ 0 <= Edge.tension (Edge.run e ops).
Proof.
  intros (Hw & Hc & Ht) Hops.
  assert (Hmain :
    Edge.unit_interval (Edge.weight (Edge.run e ops))
    /\ Edge.unit_interval (Edge.confidence (Edge.run e ops))
    /\ Edge.tension (Edge.run e ops)
       == Edge.tension e + inject_Z (Z.of_nat (Edge.tension_records ops))).
  { clear Ht. revert e Hw Hc.
    induction Hops as [|o ops Hok Hops IH]; intros e Hw Hc.
    - simpl. split; [exact Hw | split; [exact Hc |]].
      unfold Edge.tension_records; simpl. change (inject_Z 0) with 0. ring.
    - destruct (apply_preserves e o Hw Hc Hok) as (Hw' & Hc' & Ht').
      destruct (IH (Edge.apply e o) Hw' Hc') as (Hw2 & Hc2 & Ht2).
      change (Edge.run e (o :: ops)) with (Edge.run (Edge.apply e o) ops).
      split; [exact Hw2 | split; [exact Hc2 |]].
      rewrite Ht2, Ht', (tension_records_cons o ops). ring. }
  destruct Hmain as (Hw' & Hc' & Ht').
  split; [exact Hw' | split; [exact Hc' | split; [exact Ht' |]]].
  rewrite Ht'.
  assert (0 <= inject_Z (Z.of_nat (Edge.tension_records ops)))
    by (change 0 with (inject_Z 0); rewrite <- Zle_Qle; lia).
  destruct Ht. lra.
Qed.

Lemma Edge_mutators_bounds_witness :
  let e := Edge.new "a" "b" IMPLIES 0.5 in
  let ops := [Edge.Strengthen 0.1; Edge.RecordTension; Edge.Weaken 1;
              Edge.AddEvidence "url"; Edge.RecordTension] in
  Edge.unit_interval (Edge.weight (Edge.run e ops))
  /\ Edge.unit_interval (Edge.confidence (Edge.run e ops))
  /\ Edge.tension (Edge.run e ops)
     == Edge.tension e + inject_Z (Z.of_nat (Edge.tension_records ops))
  /\ 0 <= Edge.tension (Edge.run e ops).
Proof.
  apply Edge_mutators_bounds.
  - unfold Edge.in_bounds, Edge.unit_interval; simpl. lra.
  - repeat constructor; simpl; lra.
Defined.

(** C2 (as stated) fails: two [record_tension] calls on a freshly built
    edge, whose three fields start inside [[0,1]], leave a tension of 2. *)
Lemma Edge_tension_exceeds_one :
  let e := Edge.new "a" "b" CONTRADICTS 0.5 in
  let ops := [Edge.RecordTension; Edge.RecordTension] in
  Edge.in_bounds e
  /\ Forall Edge.op_ok ops
  /\ Edge.tension (Edge.run e ops) == 2
  /\ ~ Edge.in_bounds (Edge.run e ops).
Proof.
  repeat split; simpl; try lra; try (repeat constructor).
  unfold Edge.in_bounds, Edge.unit_interval. simpl. lra.
Qed.

(* ================================================================= *)
(** ** Adding an edge twice *)

Lemma EdgeType_eqb_eq (a b : EdgeType) : EdgeType_eqb a b = true <-> a = b.
Proof.
  split.
  - destruct a, b; simpl; intros H; try reflexivity; discriminate.
  - intros ->. now destruct b.
Qed.

Section AddEdge.
Import IdeologicalGraph.

Lemma same_triple_spec (e1 e2 : Edge.t) :
  same_triple e1 e2 = true <->
  Edge.source_id e1 = Edge.source_id e2
  /\ Edge.target_id e1 = Edge.target_id e2
  /\ Edge.edge_type e1 = Edge.edge_type e2.
Proof.
  unfold same_triple.
  rewrite !andb_true_iff, !String.eqb_eq, EdgeType_eqb_eq. tauto.
Qed.

Lemma same_triple_id (e1 e2 : Edge.t) :
  same_triple e1 e2 = true -> Edge.id e1 = Edge.id e2.
Proof.
  rewrite same_triple_spec. intros (Hs & Ht & Hty).
  unfold Edge.id. now rewrite Hs, Ht, Hty.
Qed.

Lemma same_triple_strengthen (e e' : Edge.t) (a : Q) :
  same_triple e (Edge.strengthen e' a) = same_triple e e'.
Proof. reflexivity. Qed.

Lemma add_edge_stored (g : t) (e : Edge.t) :
  Dict.get (edges (fst (add_edge g e))) (Edge.id e)
  = Some (snd (add_edge g e)).
Proof.
  unfold add_edge.
  destruct (Dict.get (edges g) (Edge.id e)); simpl; apply get_set_same.
Qed.

Lemma add_edge_learning_rate (g : t) (e : Edge.t) :
  learning_rate (fst (add_edge g e)) = learning_rate g.
Proof.
  unfold add_edge. now destruct (Dict.get (edges g) (Edge.id e)).
Qed.

Lemma add_edge_weight_le_1 (g : t) (e : Edge.t) :
  Edge.weight e <= 1 -> Edge.weight (snd (add_edge g e)) <= 1.
Proof.
  intros Hw. unfold add_edge.
  destruct (Dict.get (edges g) (Edge.id e)); simpl;
    [apply py_min_le_l | exact Hw].
Qed.

Lemma add_edge_keyed (g : t) (e : Edge.t) :
  keyed_by_id g -> keyed_by_id (fst (add_edge g e)).
Proof.
  intros [Hwf Hkey]. unfold add_edge.
  destruct (Dict.get (edges g) (Edge.id e)) as [existing|] eqn:Hget;
    simpl; (split; [now apply wf_set|]); intros k e' Hin;
    apply In_set in Hin; destruct Hin as [[-> ->]|Hin];
    try (now apply Hkey).
  - apply get_In, Hkey in Hget. exact Hget.
  - reflexivity.
Qed.

Lemma stored_none (d : Dict.t Edge.t) (e : Edge.t) :
  (forall k e', In (k, e') d -> k = Edge.id e') ->
  ~ In (Edge.id e) (Dict.keys d) ->
  filter (same_triple e) (Dict.values d) = [].
Proof.
  unfold Dict.keys, Dict.values.
  induction d as [|[k0 e0] r IH]; simpl; intros Hkey Hnin; [reflexivity|].
  destruct (same_triple e e0) eqn:E.
  - exfalso. apply Hnin. left.
    rewrite (Hkey k0 e0 (or_introl eq_refl)).
    symmetry. now apply same_triple_id.
  - apply IH; [|tauto]. intros k e' H. apply Hkey. now right.
Qed.

Lemma stored_at_most_one (g : t) (e : Edge.t) :
  keyed_by_id g -> (List.length (stored_for g e) <= 1)%nat.
Proof.
  unfold keyed_by_id, stored_for, Dict.wf, Dict.items.
  generalize (edges g) as d. intros d [Hnd Hkey].
  induction d as [|[k0 e0] r IH]; simpl; [lia|].
  unfold Dict.keys in Hnd. simpl in Hnd.
  inversion Hnd as [|? ? Hnotin Hnd']; subst.
  assert (Hkey' : forall k e', In (k, e') r -> k = Edge.id e')
    by (intros k e' H; apply Hkey; now right).
  destruct (same_triple e e0) eqn:E.
  - rewrite stored_none; [simpl; lia | exact Hkey' |].
    rewrite (same_triple_id _ _ E).
    rewrite <- (Hkey k0 e0 (or_introl eq_refl)). exact Hnotin.
  - now apply IH.
Qed.

Lemma stored_member (g : t) (k : string) (e e' : Edge.t) :
  Dict.get (edges g) k = Some e' -> same_triple e e' = true ->
  In e' (stored_for g e).
Proof.
  intros Hget Hsame. unfold stored_for. apply filter_In. split.
  - apply get_In in Hget. unfold Dict.values.
    change e' with (snd (k, e')). now apply in_map.
  - exact Hsame.
Qed.

Lemma singleton_of_member (A : Type) (x : A) (l : list A) :
  (List.length l <= 1)%nat -> In x l -> l = [x].
Proof.
  destruct l as [|y [|z l]]; simpl; intros Hlen Hin.
  - contradiction.
  - destruct Hin as [->|[]]. reflexivity.
  - lia.
Qed.

End AddEdge.

(** C4 (amended).  On a graph whose edge map is keyed by edge id and whose
    learning rate is not negative, take two [add_edge] calls with edges of
    the same (source, target, type), the first of weight at most 1.  The
    second call adds no entry: the map still holds one entry per key and
    at most one edge with that triple, exactly one when the edge stored
    under the id carries the triple.  The weight stored under the id after
    the second call is at least the weight before it. *)
Theorem add_edge_twice (g : IdeologicalGraph.t) (e1 e2 : Edge.t) :
  IdeologicalGraph.keyed_by_id g ->
  IdeologicalGraph.same_triple e1 e2 = true ->
  0 <= IdeologicalGraph.learning_rate g ->
  Edge.weight e1 <= 1 ->
  let g1 := fst (IdeologicalGraph.add_edge g e1) in
  let g2 := fst (IdeologicalGraph.add_edge g1 e2) in
  exists before after,
    Dict.get (IdeologicalGraph.edges g1) (Edge.id e1) = Some before
    /\ Dict.get (IdeologicalGraph.edges g2) (Edge.id e1) = Some after
    /\ Dict.keys (IdeologicalGraph.edges g2)
       = Dict.keys (IdeologicalGraph.edges g1)
    /\ Dict.wf (IdeologicalGraph.edges g2)
    /\ (List.length (IdeologicalGraph.stored_for g2 e1) <= 1)%nat
    /\ (IdeologicalGraph.same_triple e1 before = true ->
        IdeologicalGraph.stored_for g2 e1 = [after])
    /\ Edge.weight before <= Edge.weight after.
Proof.
  intros Hkeyed Hsame Hlr Hw g1 g2.
  pose proof (add_edge_stored g e1) as Hbefore.
  pose proof (add_edge_keyed g e1 Hkeyed) as Hkeyed1.
  pose proof (add_edge_keyed g1 e2 Hkeyed1) as Hkeyed2.
  pose proof (add_edge_weight_le_1 g e1 Hw) as Hw1.
  fold g1 in Hbefore, Hkeyed1.
  set (before := snd (IdeologicalGraph.add_edge g e1)) in *.
  assert (Hstep : IdeologicalGraph.add_edge g1 e2
                  = (IdeologicalGraph.with_edges g1
                       (Dict.set (IdeologicalGraph.edges g1) (Edge.id e1)
                          (Edge.strengthen before
                             (IdeologicalGraph.learning_rate g1))),
                     Edge.strengthen before
                       (IdeologicalGraph.learning_rate g1))).
  { unfold IdeologicalGraph.add_edge.
    rewrite <- (same_triple_id _ _ Hsame), Hbefore. reflexivity. }
  set (after := Edge.strengthen before (IdeologicalGraph.learning_rate g1))
    in *.
  assert (Hafter : Dict.get (IdeologicalGraph.edges g2) (Edge.id e1)
                   = Some after).
  { unfold g2. rewrite Hstep. simpl. apply get_set_same. }
  exists before, after.
  split; [exact Hbefore|]. split; [exact Hafter|].
  split.
  { unfold g2. rewrite Hstep. simpl. apply keys_set_present.
    destruct (in_dec string_dec (Edge.id e1)
                (Dict.keys (IdeologicalGraph.edges g1))) as [H|H];
      [exact H|].
    apply get_None_keys in H. congruence. }
  split; [apply Hkeyed2|].
  split; [now apply stored_at_most_one|].
  split.
  - intros Hcarry. apply singleton_of_member.
    + now apply stored_at_most_one.
    + eapply stored_member; [exact Hafter|]. exact Hcarry.
  - unfold after. apply strengthen_weight_mono; [exact Hw1|].
    unfold g1. now rewrite add_edge_learning_rate.
Qed.

Lemma add_edge_twice_witness :
  let g := IdeologicalGraph.new in
  let e := Edge.new "p1" "p2" IMPLIES 0.5 in
  let g1 := fst (IdeologicalGraph.add_edge g e) in
  let g2 := fst (IdeologicalGraph.add_edge g1 e) in
  exists before after,
    Dict.get (IdeologicalGraph.edges g1) (Edge.id e) = Some before
    /\ Dict.get (IdeologicalGraph.edges g2) (Edge.id e) = Some after
    /\ Dict.keys (IdeologicalGraph.edges g2)
       = Dict.keys (IdeologicalGraph.edges g1)
    /\ Dict.wf (IdeologicalGraph.edges g2)
    /\ (List.length (IdeologicalGraph.stored_for g2 e) <= 1)%nat
    /\ (IdeologicalGraph.same_triple e before = true ->
        IdeologicalGraph.stored_for g2 e = [after])
    /\ Edge.weight before <= Edge.weight after.
Proof.
  apply add_edge_twice.
  - split; [constructor | intros k e' []].
  - reflexivity.
  - simpl. lra.
  - simpl. lra.
Defined.

(** C4 (as stated) fails in three ways.  An edge whose id coincides with
    that of a stored edge of another triple is merged into it, so no stored
    edge carries its triple; a first weight above 1 is cut back to 1 by the
    second call; a negative learning rate lowers the weight. *)
Lemma add_edge_twice_fails :
  (let g :=
     fst (IdeologicalGraph.add_edge IdeologicalGraph.new
            (Edge.new "a->b" "c" IMPLIES 0.5)) in
   let e := Edge.new "a" "b->c" IMPLIES 0.5 in
   let g2 := fst (IdeologicalGraph.add_edge
                    (fst (IdeologicalGraph.add_edge g e)) e) in
   IdeologicalGraph.stored_for g2 e = [])
  /\
  (let e := Edge.new "a" "b" IMPLIES 2 in
   let g1 := fst (IdeologicalGraph.add_edge IdeologicalGraph.new e) in
   let g2 := fst (IdeologicalGraph.add_edge g1 e) in
   exists before after,
     Dict.get (IdeologicalGraph.edges g1) (Edge.id e) = Some before
     /\ Dict.get (IdeologicalGraph.edges g2) (Edge.id e) = Some after
     /\ Edge.weight after < Edge.weight before)
  /\
  (let g := IdeologicalGraph.mk Dict.empty Dict.empty Dict.empty
              "ideograph" (-0.5) 0.05 in
   let e := Edge.new "a" "b" IMPLIES 0.5 in
   let g1 := fst (IdeologicalGraph.add_edge g e) in
   let g2 := fst (IdeologicalGraph.add_edge g1 e) in
   exists before after,
     Dict.get (IdeologicalGraph.edges g1) (Edge.id e) = Some before
     /\ Dict.get (IdeologicalGraph.edges g2) (Edge.id e) = Some after
     /\ Edge.weight after < Edge.weight before).
Proof.
  split; [reflexivity|]. split.
  - eexists. eexists. split; [reflexivity|]. split; [reflexivity|].
    vm_compute. reflexivity.
  - eexists. eexists. split; [reflexivity|]. split; [reflexivity|].
    vm_compute. reflexivity.
Qed.

(* ================================================================= *)
(** ** The walk step *)

Section WalkStep.
Import IdeologicalGraph.
Variable set_iter : list string -> list string.

Lemma path_record_choice (w : Walker.t) (c : Choice.t) :
  Walker.path (Walker.record_choice w c) = Walker.path w.
Proof. reflexivity. Qed.


Lemma lookup_edge_stored (g : t) (s tg key : string) (e : Edge.t) :
  Dict.wf (edges g) ->
  lookup_edge g s tg None = Some (key, e) ->
  Dict.get (edges g) key = Some e
  /\ Edge.source_id e = s /\ Edge.target_id e = tg.
Proof.
  intros Hwf Hfind. unfold lookup_edge in Hfind.
  apply find_some in Hfind. destruct Hfind as [Hin Hmatch].
  simpl in Hmatch. apply andb_true_iff in Hmatch.
  destruct Hmatch as [Hs Ht].
  apply String.eqb_eq in Hs. apply String.eqb_eq in Ht.
  split; [now apply In_get | now split].
Qed.



End WalkStep.

(** C5.  [walk_step] on a position id that is not in the graph's position
    map returns the empty list and leaves the graph and the walker as they
    were. *)
Theorem walk_step_unknown_position
        (set_iter : list string -> list string)
        (g : IdeologicalGraph.t) (walker : Walker.t) (position_id : string)
        (accepted : bool) (confidence : Q) (reasoning : option string) :
  Dict.mem (IdeologicalGraph.positions g) position_id = false ->
  IdeologicalGraph.walk_step set_iter g walker position_id accepted
                             confidence reasoning
  = (g, walker, []).
Proof.
  unfold Dict.mem, IdeologicalGraph.walk_step,
    IdeologicalGraph.get_position.
  destruct (Dict.get (IdeologicalGraph.positions g) position_id);
    [discriminate | reflexivity].
Qed.

Lemma walk_step_unknown_position_witness :
  IdeologicalGraph.walk_step py_set Scenario.implies_graph
    (Scenario.walker ["A"]) "Z" true 0.5 None
  = (Scenario.implies_graph, Scenario.walker ["A"], []).
Proof.
  apply walk_step_unknown_position. reflexivity.
Defined.




(* ================================================================= *)
(** ** Saving and loading *)

Lemma Domain_of_value_value (d : Domain) : Domain_of_value (Domain_value d) = Some d.
Proof. destruct d; reflexivity. Qed.

Lemma EdgeType_of_value_value (ty : EdgeType) :
  EdgeType_of_value (EdgeType_value ty) = Some ty.
Proof. destruct ty; reflexivity. Qed.

Section DictMap.
Context {A B : Type}.
Variable f : A -> B.

Lemma keys_map_values (d : Dict.t A) :
  Dict.keys (Dict.map_values f d) = Dict.keys d.
Proof.
  unfold Dict.keys, Dict.map_values. rewrite map_map. reflexivity.
Qed.

Lemma get_map_values (d : Dict.t A) (k : string) :
  Dict.get (Dict.map_values f d) k = option_map f (Dict.get d k).
Proof.
  induction d as [|[k0 v0] r IH]; simpl; [reflexivity|].
  now destruct (String.eqb k0 k).
Qed.

(** Assigning the entries of a dictionary one by one to fresh keys
    rebuilds it at the end of the target. *)
Lemma fold_set_fresh (items : Dict.t A) (d0 : Dict.t B) :
  NoDup (Dict.keys d0 ++ Dict.keys items) ->
  fold_left (fun d kv => Dict.set d (fst kv) (f (snd kv))) items d0
  = (d0 ++ Dict.map_values f items)%list.
Proof.
  revert d0. induction items as [|[k v] r IH]; intros d0 Hnd; simpl.
  - now rewrite app_nil_r.
  - assert (Hfresh : ~ In k (Dict.keys d0)).
    { intro Hin. simpl in Hnd. apply NoDup_remove_2 in Hnd.
      apply Hnd. apply in_or_app. now left. }
    rewrite set_absent by exact Hfresh.
    rewrite IH.
    + rewrite <- app_assoc. reflexivity.
    + unfold Dict.keys in *. rewrite map_app. simpl.
      rewrite <- app_assoc. exact Hnd.
Qed.
End DictMap.

Section RoundTrip.
Import IdeologicalGraph Persistence.
Variable _generate_id : string -> string.

Lemma position_of_doc_to_doc (p : Position.t) :
  Position.has_id p ->
  position_of_doc _generate_id (position_to_doc p)
  = Ok (reloaded_position p).
Proof.
  intros Hid. unfold position_of_doc, position_to_doc, parse_Domain.
  simpl. rewrite Domain_of_value_value. simpl.
  unfold Position.new, reloaded_position. f_equal. f_equal.
  destruct Hid as [Hid|Hclaim].
  - apply String.eqb_neq in Hid. now rewrite Hid.
  - rewrite Hclaim. simpl. now rewrite andb_false_r.
Qed.

Lemma edge_of_doc_to_doc (e : Edge.t) :
  edge_of_doc (edge_to_doc e) = Ok (reloaded_edge e).
Proof.
  unfold edge_of_doc, edge_to_doc, parse_EdgeType. simpl.
  now rewrite EdgeType_of_value_value.
Qed.

Lemma load_positions_saved (items : Dict.t Position.t) (graph : t) :
  Forall (fun kv => Position.has_id (snd kv)) items ->
  load_positions _generate_id (Dict.map_values position_to_doc items) graph
  = Ok (with_positions graph
          (fold_left
             (fun d kv => Dict.set d (fst kv) (reloaded_position (snd kv)))
             items (positions graph))).
Proof.
  intros Hall. revert graph.
  induction Hall as [|[k p] r Hp Hr IH]; intros graph; simpl.
  - now destruct graph.
  - simpl in Hp. rewrite (position_of_doc_to_doc p Hp). simpl.
    rewrite IH. reflexivity.
Qed.

Lemma load_edges_saved (items : Dict.t Edge.t) (graph : t) :
  load_edges (Dict.map_values edge_to_doc items) graph
  = Ok (with_edges graph
          (fold_left
             (fun d kv => Dict.set d (fst kv) (reloaded_edge (snd kv)))
             items (edges graph))).
Proof.
  revert graph. induction items as [|[k e] r IH]; intros graph; simpl.
  - now destruct graph.
  - rewrite edge_of_doc_to_doc. simpl. rewrite IH. reflexivity.
Qed.

Lemma read_after_save (g : t) (path : string) (fs : disk) :
  save g path fs path = Some (Json (to_doc g)).
Proof.
  unfold save, write_text. now rewrite String.eqb_refl.
Qed.

(** What [load] returns on the file [save] wrote. *)
Lemma load_save (g : t) (path : string) (fs : disk) :
  Dict.wf (positions g) -> Dict.wf (edges g) ->
  Forall (fun kv => Position.has_id (snd kv)) (Dict.items (positions g)) ->
  load _generate_id (save g path fs) path
  = Ok (mk (Dict.map_values reloaded_position (positions g))
           (Dict.map_values reloaded_edge (edges g))
           Dict.empty (name g) 0.1 0.05).
Proof.
  intros Hwfp Hwfe Hids. unfold load. rewrite read_after_save. simpl.
  rewrite load_positions_saved by exact Hids. simpl.
  rewrite load_edges_saved. simpl.
  rewrite (fold_set_fresh reloaded_position (positions g) Dict.empty)
    by exact Hwfp.
  rewrite (fold_set_fresh reloaded_edge (edges g) Dict.empty)
    by exact Hwfe.
  reflexivity.
Qed.

End RoundTrip.

(** C3 (amended).  For every graph whose position and edge maps hold one
    entry per key and whose positions have an id whenever they have a
    claim, [load(save(graph))] succeeds and yields a graph with the same
    position keys and edge keys, in which every position has identical id,
    claim, domain, valence, level, visit_count, canonical_score and
    traditions, and every edge identical source_id, target_id, edge_type,
    weight, evidence_count, confidence, co_occurrence and tension.  These
    are the fields written to disk; the evidence sources of positions and
    edges and the priority context of edges come back empty. *)
Theorem save_load_round_trip
        (_generate_id : string -> string)
        (g : IdeologicalGraph.t) (path : string) (fs : Persistence.disk) :
  Dict.wf (IdeologicalGraph.positions g) ->
  Dict.wf (IdeologicalGraph.edges g) ->
  Forall (fun kv => Position.has_id (snd kv))
         (Dict.items (IdeologicalGraph.positions g)) ->
  exists g',
    Persistence.load _generate_id (Persistence.save g path fs) path
    = Persistence.Ok g'
    /\ Dict.keys (IdeologicalGraph.positions g')
       = Dict.keys (IdeologicalGraph.positions g)
    /\ Dict.keys (IdeologicalGraph.edges g')
       = Dict.keys (IdeologicalGraph.edges g)
    /\ (forall k p,
           Dict.get (IdeologicalGraph.positions g) k = Some p ->
           exists p',
             Dict.get (IdeologicalGraph.positions g') k = Some p'
             /\ Persistence.same_saved_position p p'
             /\ Position.sources p' = [])
    /\ (forall k e,
           Dict.get (IdeologicalGraph.edges g) k = Some e ->
           exists e',
             Dict.get (IdeologicalGraph.edges g') k = Some e'
             /\ Persistence.same_saved_edge e e'
             /\ Edge.priority_context e' = None
             /\ Edge.sources e' = []).
Proof.
  intros Hwfp Hwfe Hids.
  eexists. split; [now apply load_save|]. simpl.
  split; [apply keys_map_values|]. split; [apply keys_map_values|]. split.
  - intros k p Hget. exists (Persistence.reloaded_position p).
    rewrite get_map_values, Hget. simpl.
    split; [reflexivity|]. split; [|reflexivity].
    unfold Persistence.same_saved_position. simpl. tauto.
  - intros k e Hget. exists (Persistence.reloaded_edge e).
    rewrite get_map_values, Hget. simpl.
    split; [reflexivity|]. split; [|split; reflexivity].
    unfold Persistence.same_saved_edge. simpl. tauto.
Qed.

Lemma save_load_round_trip_witness :
  exists g',
    Persistence.load (fun claim => claim)
      (Persistence.save Scenario.priority_graph "graph.json"
                        Scenario.empty_disk) "graph.json"
    = Persistence.Ok g'
    /\ Dict.keys (IdeologicalGraph.positions g') = ["A"]
    /\ Dict.keys (IdeologicalGraph.edges g') = ["A->B:prioritizes_over"].
Proof.
  destruct (save_load_round_trip (fun claim => claim)
              Scenario.priority_graph "graph.json" Scenario.empty_disk)
    as (g' & Hload & Hpk & Hek & _).
  - repeat constructor. simpl. tauto.
  - repeat constructor. simpl. tauto.
  - constructor; [left; discriminate | constructor].
  - exists g'. split; [exact Hload|]. split; [exact Hpk | exact Hek].
Defined.

(** C3 (as stated) fails on the full field set: the priority context of a
    [prioritizes_over] edge is not written, so it is lost by a save followed
    by a load. *)
Lemma save_load_drops_priority_context :
  let g := Scenario.priority_graph in
  let key := "A->B:prioritizes_over" in
  exists e e' g',
    Dict.get (IdeologicalGraph.edges g) key = Some e
    /\ Persistence.load (fun claim => claim)
         (Persistence.save g "graph.json" Scenario.empty_disk) "graph.json"
       = Persistence.Ok g'
    /\ Dict.get (IdeologicalGraph.edges g') key = Some e'
    /\ Edge.priority_context e = Some "wartime"
    /\ Edge.priority_context e' = None.
Proof.
  simpl. do 3 eexists.
  split; [reflexivity|]. split; [reflexivity|].
  split; [reflexivity|]. split; reflexivity.
Qed.

Section LoadErrors.
Import IdeologicalGraph Persistence.
Variable _generate_id : string -> string.

Lemma position_of_doc_unknown (pdata : position_doc) :
  unknown_domain pdata ->
  exists err, position_of_doc _generate_id pdata = Raise err.
Proof.
  unfold unknown_domain, position_of_doc, parse_Domain. intros Hunk.
  destruct (pd_id pdata); simpl; [|eauto].
  destruct (pd_claim pdata); simpl; [|eauto].
  rewrite Hunk. simpl. eauto.
Qed.

Lemma edge_of_doc_unknown (edata : edge_doc) :
  unknown_edge_type edata ->
  exists err, edge_of_doc edata = Raise err.
Proof.
  unfold unknown_edge_type, edge_of_doc, parse_EdgeType. intros Hunk.
  destruct (ed_source_id edata); simpl; [|eauto].
  destruct (ed_target_id edata); simpl; [|eauto].
  rewrite Hunk. simpl. eauto.
Qed.

Lemma load_positions_unknown (items : Dict.t position_doc) (graph : t) :
  Exists (fun kv => unknown_domain (snd kv)) items ->
  exists err, load_positions _generate_id items graph = Raise err.
Proof.
  intros Hex. revert graph.
  induction Hex as [[k pdata] r Hunk|[k pdata] r Hex IH]; intros graph;
    simpl.
  - destruct (position_of_doc_unknown pdata Hunk) as [err ->].
    simpl. eauto.
  - destruct (position_of_doc _generate_id pdata); simpl; eauto.
Qed.

Lemma load_edges_unknown (items : Dict.t edge_doc) (graph : t) :
  Exists (fun kv => unknown_edge_type (snd kv)) items ->
  exists err, load_edges items graph = Raise err.
Proof.
  intros Hex. revert graph.
  induction Hex as [[k edata] r Hunk|[k edata] r Hex IH]; intros graph;
    simpl.
  - destruct (edge_of_doc_unknown edata Hunk) as [err ->]. simpl. eauto.
  - destruct (edge_of_doc edata); simpl; eauto.
Qed.

End LoadErrors.

(** C10.  [load] on a path that holds no file returns a fresh graph, with
    empty position, edge and walker maps, and raises nothing.  A file that
    exists is read: if its document names an unknown domain or edge type,
    or if it is no JSON, the load raises. *)
Theorem load_missing_file
        (_generate_id : string -> string)
        (fs : Persistence.disk) (path : string) :
  match fs path with
  | None =>
      Persistence.load _generate_id fs path
      = Persistence.Ok IdeologicalGraph.new
      /\ IdeologicalGraph.positions IdeologicalGraph.new = Dict.empty
      /\ IdeologicalGraph.edges IdeologicalGraph.new = Dict.empty
      /\ IdeologicalGraph.walkers IdeologicalGraph.new = Dict.empty
  | Some (Persistence.Json data) =>
      Persistence.has_unknown_enum data ->
      exists err,
        Persistence.load _generate_id fs path = Persistence.Raise err
  | Some (Persistence.Garbage _) =>
      Persistence.load _generate_id fs path
      = Persistence.Raise Persistence.JSONDecodeError
  end.
Proof.
  unfold Persistence.load.
  destruct (fs path) as [[data|text]|].
  - intros [Hpos|Hedge].
    + destruct (load_positions_unknown _generate_id _
                  (IdeologicalGraph.mk Dict.empty Dict.empty Dict.empty
                     (Persistence.get_default (Persistence.gd_name data)
                                              "ideograph") 0.1 0.05)
                  Hpos) as [err Herr].
      rewrite Herr. simpl. eauto.
    + destruct (Persistence.load_positions _ _ _) as [graph|err]; simpl.
      * now apply load_edges_unknown.
      * eauto.
  - reflexivity.
  - repeat split; reflexivity.
Qed.

Lemma load_missing_file_witness :
  Persistence.load (fun claim => claim) Scenario.empty_disk "nowhere.json"
  = Persistence.Ok IdeologicalGraph.new
  /\ exists err,
       Persistence.load (fun claim => claim)
         (Persistence.write_text Scenario.empty_disk "bad.json"
            (Persistence.Json Scenario.bad_domain_doc)) "bad.json"
       = Persistence.Raise err.
Proof.
  split.
  - apply (load_missing_file (fun claim => claim) Scenario.empty_disk
                             "nowhere.json").
  - apply (load_missing_file (fun claim => claim)
             (Persistence.write_text Scenario.empty_disk "bad.json"
                (Persistence.Json Scenario.bad_domain_doc)) "bad.json").
    left. constructor. reflexivity.
Defined.

(* ================================================================= *)
(** ** The signed graph measure *)

Section SGM.
Import WeightedBalanceState.

Lemma explicit_sign_find (a b : string) (edges : list Edge.t) :
  explicit_sign a b edges
  = match find (signed_between a b) edges with
    | Some edge =>
        if EdgeType_eqb (Edge.edge_type edge) CONTRADICTS
        then Some (-1) else Some 1
    | None => None
    end.
Proof.
  induction edges as [|edge rest IH]; simpl; [reflexivity|].
  unfold signed_between at 1.
  destruct ((String.eqb (Edge.source_id edge) a
             && String.eqb (Edge.target_id edge) b)
            || (String.eqb (Edge.source_id edge) b
                && String.eqb (Edge.target_id edge) a)); simpl;
    [|exact IH].
  destruct (EdgeType_eqb (Edge.edge_type edge) CONTRADICTS) eqn:Ec; simpl.
  - now rewrite Ec.
  - destruct (EdgeType_eqb (Edge.edge_type edge) IMPLIES); simpl.
    + now rewrite Ec.
    + exact IH.
Qed.

Lemma joined_sign (st : t) (edges : list Edge.t) (x y : string)
      (ty : EdgeType) :
  joined edges x y ty ->
  _get_relation_sign st x y edges
  = Some (if EdgeType_eqb ty CONTRADICTS then -1 else 1).
Proof.
  intros (edge & Hfind & Hty). unfold _get_relation_sign.
  rewrite explicit_sign_find, Hfind, Hty.
  now destruct (EdgeType_eqb ty CONTRADICTS).
Qed.

Lemma classify_one_contradiction (st : t) (edges : list Edge.t)
      (a b c : string) :
  two_implies_one_contradicts edges a b c ->
  classify st edges (a, b, c) = Some false.
Proof.
  intros [(Hab & Hbc & Hca)|[(Hab & Hbc & Hca)|(Hab & Hbc & Hca)]];
    unfold classify;
    rewrite (joined_sign st _ _ _ _ Hab), (joined_sign st _ _ _ _ Hbc),
      (joined_sign st _ _ _ _ Hca); reflexivity.
Qed.

Lemma count_member (A : Type) (f : A -> bool) (x : A) (l : list A) :
  In x l -> f x = true -> (1 <= List.length (filter f l))%nat.
Proof.
  intros Hin Hf.
  assert (Hin' : In x (filter f l)) by (apply filter_In; now split).
  destruct (filter f l); [contradiction | simpl; lia].
Qed.

Lemma ratio_bounds (n t : Z) :
  (0 < t)%Z -> (- t <= n <= t)%Z ->
  -1 <= inject_Z n / inject_Z t <= 1.
Proof.
  intros Ht Hn.
  assert (Hpos : 0 < inject_Z t)
    by (change 0 with (inject_Z 0); now rewrite <- Zlt_Qlt).
  assert (Hlo : - inject_Z t <= inject_Z n)
    by (rewrite <- inject_Z_opp, <- Zle_Qle; lia).
  assert (Hhi : inject_Z n <= inject_Z t)
    by (rewrite <- Zle_Qle; lia).
  split.
  - apply Qle_shift_div_l; [exact Hpos | lra].
  - apply Qle_shift_div_r; [exact Hpos | lra].
Qed.

End SGM.

Section Balance.
Import WeightedBalanceState.

Lemma In_with_rest (xs : list string) (x : string) (r : list string) :
  In (x, r) (with_rest xs) ->
  In x xs /\ (forall y, In y r -> In y xs).
Proof.
  induction xs as [|z zs IH]; simpl; [tauto|].
  intros [[= <- <-]|Hin].
  - split; [now left | intros y Hy; now right].
  - destruct (IH Hin) as [Hx Hr].
    split; [now right | intros y Hy; right; now apply Hr].
Qed.

Lemma In_triads (xs : list string) (a b c : string) :
  In (a, b, c) (triads xs) -> In a xs /\ In b xs /\ In c xs.
Proof.
  unfold triads. rewrite in_flat_map. intros ([a' ra] & Ha & Hin).
  rewrite in_flat_map in Hin. destruct Hin as ([b' rb] & Hb & Hin).
  rewrite in_map_iff in Hin. destruct Hin as (c' & [= <- <- <-] & Hc).
  simpl in *.
  destruct (In_with_rest _ _ _ Ha) as [Ha1 Ha2].
  destruct (In_with_rest _ _ _ Hb) as [Hb1 Hb2].
  split; [exact Ha1|]. split; [now apply Ha2|]. apply Ha2. now apply Hb2.
Qed.

Lemma key_has_attitude (st : t) (a : string) :
  In a (Dict.keys (attitudes st)) ->
  exists v, Dict.get (attitudes st) a = Some v.
Proof.
  intros Hin. destruct (Dict.get (attitudes st) a) as [v|] eqn:E;
    [now exists v|].
  apply get_None_keys in E. contradiction.
Qed.

(** A relation sign, when there is one, is 1 or -1. *)
Lemma sign_values (st : t) (a b : string) (edges : list Edge.t) (s : Q) :
  _get_relation_sign st a b edges = Some s -> s = 1 \/ s = -1.
Proof.
  unfold _get_relation_sign. rewrite explicit_sign_find.
  destruct (find (signed_between a b) edges) as [edge|].
  - destruct (EdgeType_eqb (Edge.edge_type edge) CONTRADICTS);
      intros [= <-]; tauto.
  - destruct (Dict.get (attitudes st) a); [|discriminate].
    destruct (Dict.get (attitudes st) b); [|discriminate].
    destruct (Qlt_le_dec 0 _); intros [= <-]; tauto.
Qed.

(** Between two attitude-bearing positions there always is a sign. *)
Lemma sign_determined (st : t) (a b : string) (edges : list Edge.t) :
  In a (Dict.keys (attitudes st)) -> In b (Dict.keys (attitudes st)) ->
  exists s, _get_relation_sign st a b edges = Some s.
Proof.
  intros Ha Hb. unfold _get_relation_sign.
  destruct (explicit_sign a b edges) as [s|]; [now exists s|].
  destruct (key_has_attitude st a Ha) as [va ->].
  destruct (key_has_attitude st b Hb) as [vb ->].
  eauto.
Qed.

Lemma classify_determined (st : t) (edges : list Edge.t)
      (abc : string * string * string) :
  In abc (triads (Dict.keys (attitudes st))) ->
  exists balanced, classify st edges abc = Some balanced.
Proof.
  destruct abc as [[a b] c]. intros Hin.
  destruct (In_triads _ _ _ _ Hin) as (Ha & Hb & Hc).
  unfold classify.
  destruct (sign_determined st a b edges Ha Hb) as [sab ->].
  destruct (sign_determined st b c edges Hb Hc) as [sbc ->].
  destruct (sign_determined st c a edges Hc Ha) as [sca ->].
  eauto.
Qed.

Lemma count_split (l : list (option bool)) :
  Forall (fun o => exists b, o = Some b) l ->
  (List.length (filter is_balanced l) + List.length (filter is_imbalanced l)
   = List.length l)%nat.
Proof.
  induction 1 as [|o l [b ->] Hall IH]; [reflexivity|].
  destruct b; simpl; lia.
Qed.

Lemma length_with_rest (xs : list string) :
  List.length (with_rest xs) = List.length xs.
Proof. induction xs as [|x r IH]; simpl; [reflexivity | now rewrite IH]. Qed.

(** The number of pairs [i < j] of a list. *)
Lemma pairs_count (xs : list string) :
  (2 * List.length
         (flat_map (fun br => map (fun c => (fst br, c)) (snd br))
                   (with_rest xs))
   = List.length xs * (List.length xs - 1))%nat.
Proof.
  induction xs as [|x r IH]; [reflexivity|].
  cbn [with_rest flat_map fst snd]. rewrite length_app, length_map.
  cbn [List.length]. nia.
Qed.

Lemma inner_count (a : string) (xs : list string) :
  List.length
    (flat_map (fun br : string * list string =>
                 map (fun c => (a, fst br, c)) (snd br))
              (with_rest xs))
  = List.length
      (flat_map (fun br : string * list string =>
                   map (fun c => (fst br, c)) (snd br))
                (with_rest xs)).
Proof.
  induction (with_rest xs) as [|br l IH]; [reflexivity|].
  simpl. rewrite !length_app, !length_map. now rewrite IH.
Qed.

(** The number of triads [i < j < k] of a list of [n] elements is
    [n (n-1) (n-2) / 6]. *)
Lemma triads_count (xs : list string) :
  (6 * List.length (triads xs)
   = List.length xs * (List.length xs - 1) * (List.length xs - 2))%nat.
Proof.
  unfold triads. induction xs as [|x r IH]; [reflexivity|].
  cbn [with_rest flat_map fst snd]. rewrite length_app, inner_count.
  pose proof (pairs_count r) as Hp.
  cbn [List.length]. destruct r as [|y r']; [reflexivity|].
  cbn [List.length] in *. nia.
Qed.

End Balance.

Section SgmRefinement.
Import WeightedBalanceState.
















End SgmRefinement.



(* ================================================================= *)
(** ** Predictions without signal *)

Section Probing.
Import IdeologicalGraph AdaptiveProber.

Lemma filter_none (A : Type) (f : A -> bool) (l : list A) :
  (forall x, In x l -> f x = false) -> filter f l = [].
Proof.
  induction l as [|x r IH]; simpl; intros Hall; [reflexivity|].
  rewrite (Hall x (or_introl eq_refl)). apply IH.
  intros y Hy. apply Hall. now right.
Qed.

Lemma str_in_py_set (x : string) (xs : list string) :
  str_in x (py_set xs) = true <-> In x xs.
Proof.
  rewrite str_in_In. unfold py_set. apply nodup_In.
Qed.

Lemma py_set_empty (xs : list string) : py_set xs = [] -> xs = [].
Proof.
  destruct xs as [|x r]; [reflexivity|]. intros H. exfalso.
  assert (Hin : In x (py_set (x :: r)))
    by (unfold py_set; apply nodup_In; now left).
  now rewrite H in Hin.
Qed.

Lemma py_set_nonempty (x : string) (xs : list string) :
  is_empty (py_set (x :: xs)) = false.
Proof.
  destruct (py_set (x :: xs)) eqn:E; [|reflexivity].
  apply py_set_empty in E. discriminate.
Qed.

Lemma value_implies (ty : EdgeType) :
  String.eqb (EdgeType_value ty) "implies" = true -> ty = IMPLIES.
Proof. destruct ty; simpl; intros H; try reflexivity; discriminate. Qed.

Lemma value_contradicts (ty : EdgeType) :
  String.eqb (EdgeType_value ty) "contradicts" = true -> ty = CONTRADICTS.
Proof. destruct ty; simpl; intros H; try reflexivity; discriminate. Qed.

Lemma some_choice_some_set (walker : Walker.t) :
  Walker.choices walker <> [] ->
  is_empty (py_set (Walker.positions_accepted walker))
  && is_empty (py_set (Walker.positions_rejected walker)) = false.
Proof.
  intros Hne. unfold Walker.positions_accepted, Walker.positions_rejected.
  destruct (Walker.choices walker) as [|c r]; [contradiction|]. simpl.
  destruct (Choice.accepted c); simpl.
  - now rewrite py_set_nonempty.
  - now rewrite py_set_nonempty, andb_false_r.
Qed.

Lemma no_implies_signals (g : t) (walker : Walker.t)
      (position : Position.t) :
  no_signals g walker position ->
  implies_signals g (py_set (Walker.positions_accepted walker)) position
  = [].
Proof.
  intros (Himp & _ & _). apply filter_none. intros e He.
  unfold edges_to in He. apply filter_In in He.
  destruct He as [Hin Htarget]. apply String.eqb_eq in Htarget.
  destruct (String.eqb (EdgeType_value (Edge.edge_type e)) "implies")
    eqn:Ety; [|reflexivity].
  apply value_implies in Ety. simpl.
  destruct (str_in (Edge.source_id e) _) eqn:Ein; [|reflexivity].
  apply str_in_py_set in Ein. exfalso.
  now apply (Himp e Hin Ety Htarget).
Qed.

Lemma no_contradicts_signals (g : t) (walker : Walker.t)
      (position : Position.t) :
  no_signals g walker position ->
  contradicts_signals g (py_set (Walker.positions_accepted walker))
                      position
  = [].
Proof.
  intros (_ & Hcon & _). apply filter_none. intros e Hin.
  destruct (String.eqb (EdgeType_value (Edge.edge_type e)) "contradicts")
    eqn:Ety; [|reflexivity].
  apply value_contradicts in Ety. simpl.
  destruct (Hcon e Hin Ety) as [Hsrc Htgt].
  apply orb_false_iff. split; apply andb_false_iff.
  - destruct (String.eqb_spec (Edge.source_id e) (Position.id position))
      as [Heq|]; [right | now left].
    destruct (str_in (Edge.target_id e) _) eqn:Ein; [|reflexivity].
    apply str_in_py_set in Ein. exfalso. now apply Hsrc.
  - destruct (String.eqb_spec (Edge.target_id e) (Position.id position))
      as [Heq|]; [right | now left].
    destruct (str_in (Edge.source_id e) _) eqn:Ein; [|reflexivity].
    apply str_in_py_set in Ein. exfalso. now apply Htgt.
Qed.

Lemma no_rejected_signals (g : t) (walker : Walker.t)
      (position : Position.t) :
  no_signals g walker position ->
  rejected_signals g (py_set (Walker.positions_rejected walker)) position
  = [].
Proof.
  intros (_ & _ & Hrej). apply filter_none. intros rej_id Hin.
  unfold py_set in Hin. apply nodup_In in Hin.
  unfold get_edge, lookup_edge.
  destruct (find _ (Dict.items (edges g))) as [[k e]|] eqn:Hfind;
    [|reflexivity].
  exfalso. apply find_some in Hfind. destruct Hfind as [Hitem Hmatch].
  simpl in Hmatch. apply andb_true_iff in Hmatch.
  destruct Hmatch as [Hs Ht].
  apply String.eqb_eq in Hs. apply String.eqb_eq in Ht.
  apply (Hrej e).
  - unfold Dict.values. change e with (snd (k, e)). now apply in_map.
  - now rewrite Hs.
  - exact Ht.
Qed.

End Probing.

(** C7.  For every graph and position, [predict_position] on a walker with
    no choice returns predicted_acceptance 0.5 and uncertainty 1.0; on a
    walker with at least one choice whose history bears no signal on the
    position (no [implies] edge from an accepted position, no [contradicts]
    edge touching an accepted position, no edge from a rejected position)
    it returns predicted_acceptance 0.5 and uncertainty 0.8. *)
Theorem predict_position_no_signal
        (g : IdeologicalGraph.t) (walker : Walker.t)
        (position : Position.t) :
  let prediction := AdaptiveProber.predict_position g walker position in
  (Walker.choices walker = [] ->
   Prediction.predicted_acceptance prediction == 0.5
   /\ Prediction.uncertainty prediction == 1)
  /\ (Walker.choices walker <> [] ->
      AdaptiveProber.no_signals g walker position ->
      Prediction.predicted_acceptance prediction == 0.5
      /\ Prediction.uncertainty prediction == 0.8).
Proof.
  intros prediction. unfold prediction, AdaptiveProber.predict_position.
  split.
  - intros Hnone.
    unfold Walker.positions_accepted, Walker.positions_rejected.
    rewrite Hnone. simpl. split; reflexivity.
  - intros Hsome Hquiet.
    rewrite (some_choice_some_set walker Hsome).
    rewrite (no_implies_signals g walker position Hquiet).
    rewrite (no_contradicts_signals g walker position Hquiet).
    rewrite (no_rejected_signals g walker position Hquiet).
    simpl. split; reflexivity.
Qed.

Lemma predict_position_no_signal_witness :
  (let prediction :=
     AdaptiveProber.predict_position Scenario.detached_graph
       (Scenario.walker []) (Scenario.position "D" 0) in
   Prediction.predicted_acceptance prediction == 0.5
   /\ Prediction.uncertainty prediction == 1)
  /\
  (let prediction :=
     AdaptiveProber.predict_position Scenario.detached_graph
       Scenario.decided_walker (Scenario.position "D" 0) in
   Prediction.predicted_acceptance prediction == 0.5
   /\ Prediction.uncertainty prediction == 0.8).
Proof.
  split.
  - apply (predict_position_no_signal Scenario.detached_graph
             (Scenario.walker []) (Scenario.position "D" 0)).
    reflexivity.
  - apply (predict_position_no_signal Scenario.detached_graph
             Scenario.decided_walker (Scenario.position "D" 0)).
    + discriminate.
    + unfold AdaptiveProber.no_signals. simpl. split; [|split].
      * intros e [<-|[]] _ _ [H|[]]. discriminate H.
      * intros e [<-|[]] H. discriminate H.
      * intros e [<-|[]] [H|[]]. discriminate H.
Defined.

(* ================================================================= *)
(** ** Voids *)

Section Voids.
Import IdeologicalGraph AttractorDetector.

Lemma In_insert_desc (A : Type) (key : A -> Q) (x y : A) (l : list A) :
  In y (insert_desc key x l) <-> y = x \/ In y l.
Proof.
  induction l as [|z r IH]; simpl.
  - intuition.
  - destruct (Qle_bool (key z) (key x)); simpl; [intuition|].
    rewrite IH. intuition.
Qed.

Lemma In_sort_desc (A : Type) (key : A -> Q) (y : A) (l : list A) :
  In y (sort_desc key l) <-> In y l.
Proof.
  induction l as [|x r IH]; simpl; [tauto|].
  rewrite In_insert_desc, IH. intuition.
Qed.

Lemma py_int_inject_Z (x : Q) (n : Z) : x == inject_Z n -> py_int x = n.
Proof.
  unfold Qeq, py_int. simpl. intros H.
  rewrite Z.mul_1_r in H. rewrite H.
  apply Z.quot_mul. discriminate.
Qed.

(** The loop body of [detect_voids] on a position that nobody visited
    and whose single incoming edge, of weight 1, comes from a position
    visited 100 times. *)
Lemma void_at_full (g : t) (pos_id : string) (position source : Position.t)
      (e : Edge.t) (min_expected min_void_ratio : Q) :
  edges_to g pos_id = [e] ->
  Edge.weight e == 1 ->
  get_position g (Edge.source_id e) = Some source ->
  Position.visit_count source = 100%Z ->
  Position.visit_count position = 0%Z ->
  min_expected <= 100 ->
  min_void_ratio <= 1 ->
  exists v,
    void_at g min_expected min_void_ratio pos_id position = [v]
    /\ Void.position_id v = pos_id
    /\ Void.void_ratio v == 1
    /\ Void.expected_visitors v = 100%Z
    /\ Void.actual_visitors v = 0%Z.
Proof.
  intros Hedges Hweight Hsource Hvisits Hactual Hmin Hratio.
  unfold void_at. rewrite Hedges.
  unfold expected_visits. simpl. rewrite Hsource, Hvisits, Hactual. simpl.
  set (expected := 0 + inject_Z 100 * Edge.weight e).
  assert (Hexp : expected == 100).
  { unfold expected. rewrite Hweight. reflexivity. }
  destruct (Qlt_le_dec expected min_expected) as [Hlt|_];
    [exfalso; rewrite Hexp in Hlt; lra|].
  destruct (Qlt_le_dec 0 expected) as [_|Hle];
    [|exfalso; rewrite Hexp in Hle; lra].
  assert (Hvoid : 1 - inject_Z 0 / expected == 1).
  { rewrite Hexp. reflexivity. }
  destruct (Qlt_le_dec (1 - inject_Z 0 / expected) min_void_ratio)
    as [Hlt|_]; [exfalso; rewrite Hvoid in Hlt; lra|].
  eexists. split; [reflexivity|]. simpl.
  split; [reflexivity|]. split; [exact Hvoid|].
  split; [|reflexivity].
  apply py_int_inject_Z. exact Hexp.
Qed.

End Voids.

(** C8.  Take a position with visit_count 0 whose only incoming edge has
    weight 1.0 and comes from a position with visit_count 100.  For
    min_expected <= 100, [detect_voids] computes expected = 100 and
    void_ratio = 1.0 for it, and the position is in the result whenever
    min_void_ratio <= 1.0. *)
Theorem detect_voids_full_void
        (g : IdeologicalGraph.t) (pos_id : string)
        (position source : Position.t) (e : Edge.t)
        (min_expected min_void_ratio : Q) :
  In (pos_id, position) (Dict.items (IdeologicalGraph.positions g)) ->
  IdeologicalGraph.edges_to g pos_id = [e] ->
  Edge.weight e == 1 ->
  IdeologicalGraph.get_position g (Edge.source_id e) = Some source ->
  Position.visit_count source = 100%Z ->
  Position.visit_count position = 0%Z ->
  min_expected <= 100 ->
  min_void_ratio <= 1 ->
  fst (AttractorDetector.expected_visits g [e]) == 100
  /\ exists v,
       In v (AttractorDetector.detect_voids g min_expected min_void_ratio)
       /\ Void.position_id v = pos_id
       /\ Void.void_ratio v == 1
       /\ Void.expected_visitors v = 100%Z
       /\ Void.actual_visitors v = 0%Z.
Proof.
  intros Hin Hedges Hweight Hsource Hvisits Hactual Hmin Hratio. split.
  - unfold AttractorDetector.expected_visits. simpl.
    rewrite Hsource, Hvisits. simpl. rewrite Hweight. reflexivity.
  - destruct (void_at_full g pos_id position source e min_expected
                min_void_ratio Hedges Hweight Hsource Hvisits Hactual
                Hmin Hratio) as (v & Hv & Hrest).
    exists v. split; [|exact Hrest].
    unfold AttractorDetector.detect_voids.
    apply In_sort_desc, in_flat_map.
    exists (pos_id, position). split; [exact Hin|].
    simpl. rewrite Hv. now left.
Qed.

Lemma detect_voids_full_void_witness :
  exists v,
    In v (AttractorDetector.detect_voids Scenario.void_graph 5 0.7)
    /\ Void.position_id v = "P"
    /\ Void.void_ratio v == 1
    /\ Void.expected_visitors v = 100%Z
    /\ Void.actual_visitors v = 0%Z.
Proof.
  apply (detect_voids_full_void Scenario.void_graph "P"
           (Scenario.position "P" 0) (Scenario.position "S" 100)
           (Edge.new "S" "P" IMPLIES 1) 5 0.7).
  - simpl. right. now left.
  - reflexivity.
  - reflexivity.
  - reflexivity.
  - reflexivity.
  - reflexivity.
  - lra.
  - lra.
Defined.

(* ================================================================= *)
(** ** Fork decisiveness *)

Lemma downstream_share (n : Z) :
  (n <= 50)%Z <-> inject_Z n / 50 <= 1.
Proof.
  assert (H50 : (0 : Q) < 50) by reflexivity.
  split.
  - intros Hn. apply Qle_shift_div_r; [exact H50|].
    change (1 * 50) with (inject_Z 50). now rewrite <- Zle_Qle.
  - intros Hq. rewrite Zle_Qle.
    assert (H : inject_Z n == inject_Z n / 50 * 50) by field.
    rewrite H. change (inject_Z 50) with (1 * 50).
    apply Qmult_le_compat_r; [exact Hq | discriminate].
Qed.

(** C9 (amended).  For every ForkDecisiveness record, decisiveness_score
    equals 0.3 information_gain + 0.25 prediction_accuracy
    + 0.2 (downstream_positions / 50) + 0.15 variance_explained
    + 0.1 betweenness.  The downstream term is not capped: the score agrees
    with the capped formula exactly when downstream_positions is at most
    50, and exceeds it above 50. *)
Theorem decisiveness_score_formula (d : ForkDecisiveness.t) :
  ForkDecisiveness.decisiveness_score d == ForkDecisiveness.uncapped_score d
  /\ ((ForkDecisiveness.downstream_positions d <= 50)%Z ->
      ForkDecisiveness.decisiveness_score d
      == ForkDecisiveness.capped_score d)
  /\ ((50 < ForkDecisiveness.downstream_positions d)%Z ->
      ForkDecisiveness.capped_score d
      < ForkDecisiveness.decisiveness_score d).
Proof.
  unfold ForkDecisiveness.decisiveness_score,
    ForkDecisiveness.uncapped_score, ForkDecisiveness.capped_score.
  split; [ring|]. split.
  - intros Hle. apply downstream_share in Hle.
    rewrite (py_min_r 1 _ Hle). ring.
  - intros Hgt.
    assert (Hshare : 1 < inject_Z (ForkDecisiveness.downstream_positions d)
                         / 50).
    { apply Qnot_le_lt. intros Hle. apply downstream_share in Hle. lia. }
    unfold py_min.
    destruct (Qlt_le_dec
                (inject_Z (ForkDecisiveness.downstream_positions d) / 50) 1);
      lra.
Qed.

Lemma decisiveness_score_formula_witness :
  ForkDecisiveness.decisiveness_score (Scenario.fork_record 10)
  == ForkDecisiveness.capped_score (Scenario.fork_record 10)
  /\ ForkDecisiveness.capped_score (Scenario.fork_record 100)
     < ForkDecisiveness.decisiveness_score (Scenario.fork_record 100).
Proof.
  split.
  - apply (decisiveness_score_formula (Scenario.fork_record 10)).
    simpl. lia.
  - apply (decisiveness_score_formula (Scenario.fork_record 100)).
    simpl. lia.
Defined.

(** C9 (as stated) fails: with 100 downstream positions the downstream
    term contributes 0.4, not 0.2, and the score differs from the capped
    formula. *)
Lemma decisiveness_score_not_capped :
  let d := Scenario.fork_record 100 in
  ForkDecisiveness.decisiveness_score d == 0.55
  /\ ForkDecisiveness.capped_score d == 0.35
  /\ (inject_Z (ForkDecisiveness.downstream_positions d) / 50) * 0.2 == 0.4
  /\ ~ ForkDecisiveness.decisiveness_score d
       == ForkDecisiveness.capped_score d.
Proof.
  repeat split; try reflexivity.
  intros H. discriminate H.
Qed.

(* ================================================================= *)
(** * Further properties of the entity model *)

Section EdgeDynamics.
Import Edge.

Lemma run_app (e : t) (ops1 ops2 : list op) :
  run e (ops1 ++ ops2) = run (run e ops1) ops2.
Proof. unfold run. apply fold_left_app. Qed.

Lemma repeat_snoc (A : Type) (x : A) (n : nat) :
  repeat x (S n) = (repeat x n ++ [x])%list.
Proof.
  induction n as [|n IH]; [reflexivity|].
  simpl in *. now rewrite <- IH.
Qed.

Lemma strengthen_gap (e : t) (a : Q) :
  weight e <= 1 -> a <= 1 ->
  1 - weight (strengthen e a) == (1 - a) * (1 - weight e).
Proof.
  intros Hw Ha. simpl.
  assert (H : weight e + a * (1 - weight e) <= 1) by nra.
  rewrite (py_min_r 1 _ H). ring.
Qed.

Lemma weaken_scale (e : t) (a : Q) :
  0 <= weight e -> a <= 1 ->
  weight (weaken e a) == (1 - a) * weight e.
Proof.
  intros Hw Ha. simpl.
  assert (H : 0 <= weight e - a * weight e) by nra.
  rewrite (py_max_r 0 _ H). ring.
Qed.

Lemma qpow_nonneg (x : Q) (n : nat) : 0 <= x -> 0 <= qpow x n.
Proof.
  intros Hx. induction n as [|n IH]; simpl; [lra | nra].
Qed.

Lemma qpow_le_1 (x : Q) (n : nat) : 0 <= x <= 1 -> qpow x n <= 1.
Proof.
  intros Hx. induction n as [|n IH]; simpl; [lra|].
  pose proof (qpow_nonneg x n (proj1 Hx)). nra.
Qed.

End EdgeDynamics.

(** X1.  Repeated strengthening closes the gap to 1 geometrically and
    repeated weakening scales the weight geometrically: after [n] calls
    with amount [a] in [[0,1]] on a weight [w] in [[0,1]], the weight is
    [1 - (1-a)^n (1-w)], respectively [(1-a)^n w].  The clamps of the two
    methods never fire on such input. *)
Theorem Edge_repeated_updates (e : Edge.t) (a : Q) (n : nat) :
  Edge.unit_interval (Edge.weight e) ->
  0 <= a <= 1 ->
  1 - Edge.weight (Edge.run e (repeat (Edge.Strengthen a) n))
  == qpow (1 - a) n * (1 - Edge.weight e)
  /\ Edge.weight (Edge.run e (repeat (Edge.Weaken a) n))
     == qpow (1 - a) n * Edge.weight e.
Proof.
  intros [Hw0 Hw1] [Ha0 Ha1].
  assert (Hq : forall m, 0 <= qpow (1 - a) m <= 1).
  { intros m. split; [apply qpow_nonneg | apply qpow_le_1]; lra. }
  induction n as [|n [IHs IHw]].
  - simpl. split; ring.
  - rewrite !repeat_snoc, !run_app.
    change (Edge.run ?x [Edge.Strengthen a]) with (Edge.strengthen x a).
    change (Edge.run ?x [Edge.Weaken a]) with (Edge.weaken x a).
    specialize (Hq n). split.
    + rewrite strengthen_gap; [rewrite IHs; simpl; ring | | lra].
      assert (0 <= 1 - Edge.weight
                        (Edge.run e (repeat (Edge.Strengthen a) n)))
        by (rewrite IHs; nra).
      lra.
    + rewrite weaken_scale; [rewrite IHw; simpl; ring | | lra].
      rewrite IHw. nra.
Qed.

Lemma Edge_repeated_updates_witness :
  let e := Edge.new "a" "b" IMPLIES 0.5 in
  1 - Edge.weight (Edge.run e (repeat (Edge.Strengthen 0.1) 3))
  == qpow (1 - 0.1) 3 * (1 - Edge.weight e)
  /\ Edge.weight (Edge.run e (repeat (Edge.Weaken 0.1) 3))
     == qpow (1 - 0.1) 3 * Edge.weight e.
Proof.
  apply Edge_repeated_updates.
  - unfold Edge.unit_interval. simpl. lra.
  - lra.
Defined.

(** X2.  [add_evidence] is idempotent on a source: a second call with the
    same source changes nothing.  The source is then listed, a list of
    sources without duplicates stays so, and a source that was not listed
    raises the evidence count to the new number of sources. *)
Theorem Edge_add_evidence_idempotent (e : Edge.t) (source : string) :
  Edge.add_evidence (Edge.add_evidence e source) source
  = Edge.add_evidence e source
  /\ In source (Edge.sources (Edge.add_evidence e source))
  /\ (NoDup (Edge.sources e) ->
      NoDup (Edge.sources (Edge.add_evidence e source)))
  /\ (~ In source (Edge.sources e) ->
      Edge.evidence_count (Edge.add_evidence e source)
      = (Z.of_nat (List.length (Edge.sources e)) + 1)%Z).
Proof.
  unfold Edge.add_evidence.
  destruct (str_in source (Edge.sources e)) eqn:Hin.
  - rewrite Hin. apply str_in_In in Hin.
    split; [reflexivity|]. split; [exact Hin|].
    split; [tauto | contradiction].
  - simpl. rewrite str_in_app_self.
    assert (Hnin : ~ In source (Edge.sources e)).
    { intros H. apply str_in_In in H. congruence. }
    split; [reflexivity|]. split.
    + apply in_or_app. right. now left.
    + split.
      * intros Hnd. apply NoDup_app; [exact Hnd | repeat constructor; simpl; tauto|].
        intros x Hx [<-|[]]. contradiction.
      * intros _. rewrite length_app. simpl. lia.
Qed.

(* ================================================================= *)
(** * Further properties of the graph *)

Section WalkFacts.
Import IdeologicalGraph.
Variable set_iter : list string -> list string.

(** The state reached by a step on a known position. *)
Lemma walk_step_state (g : t) (walker : Walker.t) (position_id : string)
      (accepted : bool) (confidence : Q) (reasoning : option string)
      (position : Position.t) :
  get_position g position_id = Some position ->
  fst (walk_step set_iter g walker position_id accepted confidence reasoning)
  = _update_edges_from_choice
      (with_positions g
         (Dict.set (positions g) position_id
                   (Position.record_visit position)))
      (Walker.record_choice (Walker.visit walker position_id)
         (Choice.mk position_id "" accepted confidence reasoning
                    false 0 None))
      (Choice.mk position_id "" accepted confidence reasoning false 0 None).
Proof.
  intros Hpos. unfold walk_step. rewrite Hpos.
  destruct (_update_edges_from_choice _ _ _). reflexivity.
Qed.

Lemma walk_step_unknown (g : t) (walker : Walker.t) (position_id : string)
      (accepted : bool) (confidence : Q) (reasoning : option string) :
  get_position g position_id = None ->
  walk_step set_iter g walker position_id accepted confidence reasoning
  = (g, walker, []).
Proof. intros Hpos. unfold walk_step. now rewrite Hpos. Qed.

Lemma add_edge_positions (g : t) (e : Edge.t) :
  positions (fst (add_edge g e)) = positions g.
Proof.
  unfold add_edge. now destruct (Dict.get (edges g) (Edge.id e)).
Qed.

Lemma update_edges_positions (g : t) (walker : Walker.t) (choice : Choice.t) :
  positions (fst (_update_edges_from_choice g walker choice)) = positions g.
Proof.
  unfold _update_edges_from_choice.
  destruct (List.length (Walker.path walker) <? 2)%nat; [reflexivity|].
  destruct (Choice.accepted choice);
    destruct (lookup_edge g _ _ None) as [[key e]|]; try reflexivity.
  - unfold connect.
    destruct (add_edge g _) as [g' new_edge] eqn:E. simpl.
    change g' with (fst (g', new_edge)). rewrite <- E.
    apply add_edge_positions.
  - now destruct (EdgeType_eqb (Edge.edge_type e) IMPLIES).
Qed.

Lemma strengthen_edge_frame (w : Walker.t) (edge_id : string) :
  let w' := Walker.strengthen_edge w edge_id in
  Walker.path w' = Walker.path w
  /\ Walker.choices w' = Walker.choices w
  /\ Walker.prediction_errors w' = Walker.prediction_errors w
  /\ Walker.edges_weakened w' = Walker.edges_weakened w
  /\ In edge_id (Walker.edges_strengthened w')
  /\ (NoDup (Walker.edges_strengthened w) ->
      NoDup (Walker.edges_strengthened w')).
Proof.
  unfold Walker.strengthen_edge.
  destruct (str_in edge_id (Walker.edges_strengthened w)) eqn:E; simpl.
  - apply str_in_In in E. now repeat split.
  - repeat split; try reflexivity.
    + apply in_or_app. right. now left.
    + intros Hnd. apply NoDup_app; [exact Hnd | repeat constructor; simpl; tauto|].
      intros x Hx [<-|[]]. apply str_in_In in Hx. congruence.
Qed.

Lemma weaken_edge_frame (w : Walker.t) (edge_id : string) :
  let w' := Walker.weaken_edge w edge_id in
  Walker.path w' = Walker.path w
  /\ Walker.choices w' = Walker.choices w
  /\ Walker.prediction_errors w' = Walker.prediction_errors w
  /\ Walker.edges_strengthened w' = Walker.edges_strengthened w
  /\ In edge_id (Walker.edges_weakened w')
  /\ (NoDup (Walker.edges_weakened w) -> NoDup (Walker.edges_weakened w')).
Proof.
  unfold Walker.weaken_edge.
  destruct (str_in edge_id (Walker.edges_weakened w)) eqn:E; simpl.
  - apply str_in_In in E. now repeat split.
  - repeat split; try reflexivity.
    + apply in_or_app. right. now left.
    + intros Hnd. apply NoDup_app; [exact Hnd | repeat constructor; simpl; tauto|].
      intros x Hx [<-|[]]. apply str_in_In in Hx. congruence.
Qed.

(** What the edge update does to the walker. *)
Lemma update_edges_walker (g : t) (walker : Walker.t) (choice : Choice.t) :
  let w' := snd (_update_edges_from_choice g walker choice) in
  Walker.path w' = Walker.path walker
  /\ Walker.choices w' = Walker.choices walker
  /\ Walker.prediction_errors w' = Walker.prediction_errors walker
  /\ (NoDup (Walker.edges_strengthened walker) ->
      NoDup (Walker.edges_strengthened w'))
  /\ (NoDup (Walker.edges_weakened walker) ->
      NoDup (Walker.edges_weakened w')).
Proof.
  unfold _update_edges_from_choice.
  destruct (List.length (Walker.path walker) <? 2)%nat;
    [cbn [snd]; now repeat split|].
  destruct (Choice.accepted choice);
    destruct (lookup_edge g _ _ None) as [[key e]|]; cbn [snd];
    try (now repeat split).
  - match goal with
    | |- context [Walker.strengthen_edge walker ?x] =>
        destruct (strengthen_edge_frame walker x)
          as (Hp & Hc & He & Hw & _ & Hnd)
    end.
    cbv zeta in *. rewrite Hp, Hc, He, Hw. now repeat split.
  - destruct (connect g _ _ IMPLIES 0.3) as [g' new_edge]. cbn [snd].
    destruct (strengthen_edge_frame walker (Edge.id new_edge))
      as (Hp & Hc & He & Hw & _ & Hnd).
    cbv zeta in *. rewrite Hp, Hc, He, Hw. now repeat split.
  - destruct (EdgeType_eqb (Edge.edge_type e) IMPLIES); cbn [snd];
      [|now repeat split].
    match goal with
    | |- context [Walker.weaken_edge walker ?x] =>
        destruct (weaken_edge_frame walker x)
          as (Hp & Hc & He & Hs & _ & Hnd)
    end.
    cbv zeta in *. rewrite Hp, Hc, He, Hs. now repeat split.
Qed.

Lemma visit_path (w : Walker.t) (position_id : string) :
  In position_id (Walker.path (Walker.visit w position_id))
  /\ (exists extra, Walker.path (Walker.visit w position_id)
                    = (Walker.path w ++ extra)%list)
  /\ (NoDup (Walker.path w) ->
      NoDup (Walker.path (Walker.visit w position_id)))
  /\ Walker.choices (Walker.visit w position_id) = Walker.choices w
  /\ Walker.prediction_errors (Walker.visit w position_id)
     = Walker.prediction_errors w
  /\ Walker.edges_strengthened (Walker.visit w position_id)
     = Walker.edges_strengthened w
  /\ Walker.edges_weakened (Walker.visit w position_id)
     = Walker.edges_weakened w.
Proof.
  unfold Walker.visit.
  destruct (str_in position_id (Walker.path w)) eqn:E; simpl.
  - apply str_in_In in E. split; [exact E|].
    split; [exists []; now rewrite app_nil_r | now repeat split].
  - split; [apply in_or_app; right; now left|].
    split; [now exists [position_id]|].
    split; [|now repeat split].
    intros Hnd. apply NoDup_app; [exact Hnd | repeat constructor; simpl; tauto|].
    intros x Hx [<-|[]]. apply str_in_In in Hx. congruence.
Qed.

End WalkFacts.

Section WalkEffects.
Import IdeologicalGraph.
Variable set_iter : list string -> list string.

(** The effect of one step on the position map and on the walker. *)
Lemma walk_step_effect (g : t) (walker : Walker.t) (position_id : string)
      (accepted : bool) (confidence : Q) (reasoning : option string) :
  let r := fst (walk_step set_iter g walker position_id accepted confidence
                          reasoning) in
  match get_position g position_id with
  | Some position =>
      positions (fst r)
      = Dict.set (positions g) position_id (Position.record_visit position)
      /\ Walker.path (snd r) = Walker.path (Walker.visit walker position_id)
      /\ Walker.choices (snd r)
         = (Walker.choices walker
            ++ [Choice.mk position_id "" accepted confidence reasoning
                          false 0 None])%list
      /\ Walker.prediction_errors (snd r) = Walker.prediction_errors walker
      /\ (NoDup (Walker.edges_strengthened walker) ->
          NoDup (Walker.edges_strengthened (snd r)))
      /\ (NoDup (Walker.edges_weakened walker) ->
          NoDup (Walker.edges_weakened (snd r)))
  | None => r = (g, walker)
  end.
Proof.
  intros r. unfold r.
  destruct (get_position g position_id) as [position|] eqn:Hpos.
  - rewrite (walk_step_state set_iter g walker position_id accepted
               confidence reasoning position Hpos).
    rewrite update_edges_positions. split; [reflexivity|].
    match goal with
    | |- context [_update_edges_from_choice ?g1 ?w2 ?c] =>
        destruct (update_edges_walker g1 w2 c)
          as (Hp & Hc & He & Hs & Hw)
    end.
    cbv zeta in *. rewrite Hp, Hc, He.
    destruct (visit_path walker position_id)
      as (_ & _ & _ & Hvc & Hve & Hvs & Hvw).
    split; [reflexivity|]. split; [simpl; now rewrite Hvc|].
    split; [simpl; now rewrite Hve|]. split.
    + intros Hnd. apply Hs. simpl. now rewrite Hvs.
    + intros Hnd. apply Hw. simpl. now rewrite Hvw.
  - now rewrite (walk_step_unknown set_iter g walker position_id accepted
                   confidence reasoning Hpos).
Qed.

Lemma get_set_record (d : Dict.t Position.t) (k position_id : string)
      (position p : Position.t) :
  Dict.get d position_id = Some position ->
  Dict.get d k = Some p ->
  Dict.get (Dict.set d position_id (Position.record_visit position)) k
  = Some (if String.eqb k position_id then Position.record_visit p else p).
Proof.
  intros Hpos Hk. destruct (String.eqb_spec k position_id) as [->|Hne].
  - rewrite get_set_same. congruence.
  - rewrite get_set_other by exact Hne. exact Hk.
Qed.

Lemma walk_cons (g : t) (walker : Walker.t) (s : step) (steps : list step) :
  walk set_iter g walker (s :: steps)
  = walk set_iter
      (fst (fst (walk_step set_iter g walker (step_position_id s)
                           (step_accepted s) (step_confidence s)
                           (step_reasoning s))))
      (snd (fst (walk_step set_iter g walker (step_position_id s)
                           (step_accepted s) (step_confidence s)
                           (step_reasoning s))))
      steps.
Proof.
  unfold walk. simpl.
  destruct (fst (walk_step set_iter g walker _ _ _ _)). reflexivity.
Qed.

End WalkEffects.

(** X3.  A walk keeps the walker's lists free of duplicates: if the path,
    the strengthened-edge list and the weakened-edge list have no
    duplicates before a sequence of [walk_step] calls, they have none
    after it, and the path only grows at its end. *)
Theorem walk_keeps_lists_distinct
        (set_iter : list string -> list string)
        (steps : list IdeologicalGraph.step)
        (g : IdeologicalGraph.t) (walker : Walker.t) :
  let walker' := snd (IdeologicalGraph.walk set_iter g walker steps) in
  (NoDup (Walker.path walker) -> NoDup (Walker.path walker'))
  /\ (NoDup (Walker.edges_strengthened walker) ->
      NoDup (Walker.edges_strengthened walker'))
  /\ (NoDup (Walker.edges_weakened walker) ->
      NoDup (Walker.edges_weakened walker'))
  /\ exists visited,
       Walker.path walker' = (Walker.path walker ++ visited)%list.
Proof.
  revert g walker.
  induction steps as [|s steps IH]; intros g walker.
  - simpl. repeat split; try tauto. exists []. now rewrite app_nil_r.
  - rewrite walk_cons.
    pose proof (walk_step_effect set_iter g walker
                  (IdeologicalGraph.step_position_id s)
                  (IdeologicalGraph.step_accepted s)
                  (IdeologicalGraph.step_confidence s)
                  (IdeologicalGraph.step_reasoning s)) as Heff.
    cbv zeta in Heff.
    set (r := fst (IdeologicalGraph.walk_step set_iter g walker _ _ _ _))
      in *.
    destruct (IH (fst r) (snd r)) as (IHp & IHs & IHw & visited & IHv).
    destruct (visit_path walker (IdeologicalGraph.step_position_id s))
      as (_ & (extra & Hextra) & Hnd & _).
    destruct (IdeologicalGraph.get_position g _).
    + destruct Heff as (_ & Hpath & _ & _ & Hs & Hw).
      split; [intros H; apply IHp; rewrite Hpath; now apply Hnd|].
      split; [intros H; now apply IHs, Hs|].
      split; [intros H; now apply IHw, Hw|].
      exists (extra ++ visited)%list.
      rewrite IHv, Hpath, Hextra. now rewrite app_assoc.
    + rewrite Heff in *. simpl in *.
      split; [exact IHp|]. split; [exact IHs|]. split; [exact IHw|].
      now exists visited.
Qed.

Lemma walk_keeps_lists_distinct_witness :
  let walker' :=
    snd (IdeologicalGraph.walk py_set Scenario.implies_graph
           (Scenario.walker [])
           [IdeologicalGraph.mk_step "A" true 0.8 None;
            IdeologicalGraph.mk_step "B" true 0.8 None;
            IdeologicalGraph.mk_step "A" false 0.5 None]) in
  NoDup (Walker.path walker') /\ NoDup (Walker.edges_strengthened walker').
Proof.
  pose proof (walk_keeps_lists_distinct py_set
                [IdeologicalGraph.mk_step "A" true 0.8 None;
                 IdeologicalGraph.mk_step "B" true 0.8 None;
                 IdeologicalGraph.mk_step "A" false 0.5 None]
                Scenario.implies_graph (Scenario.walker []))
    as (Hp & Hs & _).
  split; [apply Hp | apply Hs]; constructor.
Defined.

(** X4.  After any sequence of [walk_step] calls the position map has the
    same keys, and the visit count of every stored position has grown by
    the number of steps that named its key; its id and claim are
    unchanged.  In particular no visit count ever decreases. *)
Theorem walk_counts_visits
        (set_iter : list string -> list string)
        (steps : list IdeologicalGraph.step)
        (g : IdeologicalGraph.t) (walker : Walker.t)
        (k : string) (p : Position.t) :
  Dict.get (IdeologicalGraph.positions g) k = Some p ->
  let g' := fst (IdeologicalGraph.walk set_iter g walker steps) in
  Dict.keys (IdeologicalGraph.positions g')
  = Dict.keys (IdeologicalGraph.positions g)
  /\ exists p',
       Dict.get (IdeologicalGraph.positions g') k = Some p'
       /\ Position.visit_count p'
          = (Position.visit_count p
             + Z.of_nat
                 (count_occ string_dec
                    (map IdeologicalGraph.step_position_id steps) k))%Z
       /\ Position.id p' = Position.id p
       /\ Position.claim p' = Position.claim p.
Proof.
  revert g walker p.
  induction steps as [|s steps IH]; intros g walker p Hk g'.
  - simpl. split; [reflexivity|]. exists p.
    split; [exact Hk|]. split; [lia | now split].
  - unfold g'. rewrite walk_cons.
    pose proof (walk_step_effect set_iter g walker
                  (IdeologicalGraph.step_position_id s)
                  (IdeologicalGraph.step_accepted s)
                  (IdeologicalGraph.step_confidence s)
                  (IdeologicalGraph.step_reasoning s)) as Heff.
    cbv zeta in Heff.
    set (r := fst (IdeologicalGraph.walk_step set_iter g walker _ _ _ _))
      in *.
    unfold IdeologicalGraph.get_position in Heff.
    destruct (Dict.get (IdeologicalGraph.positions g)
                       (IdeologicalGraph.step_position_id s))
      as [position|] eqn:Hpos.
    + destruct Heff as (Hposs & _).
      pose proof (get_set_record _ k _ position p Hpos Hk) as Hk'.
      rewrite <- Hposs in Hk'.
      destruct (IH (fst r) (snd r) _ Hk') as (Hkeys & p' & Hget & Hcount & Hid & Hclaim).
      split.
      * rewrite Hkeys, Hposs. apply keys_set_present.
        destruct (in_dec string_dec (IdeologicalGraph.step_position_id s)
                    (Dict.keys (IdeologicalGraph.positions g)))
          as [H|H]; [exact H|].
        apply get_None_keys in H. congruence.
      * exists p'. split; [exact Hget|]. simpl.
        destruct (String.eqb_spec k (IdeologicalGraph.step_position_id s))
          as [->|Hne].
        -- destruct (string_dec _ _) as [_|Hc]; [|congruence].
           simpl in *. split; [lia | now split].
        -- destruct (string_dec _ _) as [Hc|_]; [congruence|].
           split; [exact Hcount | now split].
    + rewrite Heff. simpl.
      destruct (IH g walker p Hk) as (Hkeys & p' & Hget & Hcount & Hid & Hclaim).
      split; [exact Hkeys|]. exists p'. split; [exact Hget|].
      destruct (string_dec (IdeologicalGraph.step_position_id s) k)
        as [Hc|_]; [congruence|].
      split; [exact Hcount | now split].
Qed.

Lemma walk_counts_visits_witness :
  exists p',
    Dict.get
      (IdeologicalGraph.positions
         (fst (IdeologicalGraph.walk py_set Scenario.implies_graph
                 (Scenario.walker [])
                 [IdeologicalGraph.mk_step "A" true 0.8 None;
                  IdeologicalGraph.mk_step "B" true 0.8 None;
                  IdeologicalGraph.mk_step "A" false 0.5 None])))
      "A" = Some p'
    /\ Position.visit_count p' = 2%Z.
Proof.
  destruct (walk_counts_visits py_set
              [IdeologicalGraph.mk_step "A" true 0.8 None;
               IdeologicalGraph.mk_step "B" true 0.8 None;
               IdeologicalGraph.mk_step "A" false 0.5 None]
              Scenario.implies_graph (Scenario.walker []) "A"
              (Scenario.position "A" 0) eq_refl)
    as (_ & p' & Hget & Hcount & _).
  exists p'. split; [exact Hget | exact Hcount].
Defined.

Section WalkLog.
Import IdeologicalGraph.
Variable set_iter : list string -> list string.

Lemma mem_set_present (d : Dict.t Position.t) (k k' : string)
      (v v' : Position.t) :
  Dict.get d k = Some v ->
  Dict.mem (Dict.set d k v') k' = Dict.mem d k'.
Proof.
  intros Hk. unfold Dict.mem.
  destruct (String.eqb_spec k' k) as [->|Hne].
  - now rewrite get_set_same, Hk.
  - now rewrite get_set_other.
Qed.

End WalkLog.

(** X5.  A walk logs exactly one choice for each step on a known position,
    in order, with the answer and confidence given, and none for a step on
    an unknown position; it never records a prediction error. *)
Theorem walk_logs_choices
        (set_iter : list string -> list string)
        (steps : list IdeologicalGraph.step)
        (g : IdeologicalGraph.t) (walker : Walker.t) :
  let walker' := snd (IdeologicalGraph.walk set_iter g walker steps) in
  Walker.choices walker'
  = (Walker.choices walker
     ++ map IdeologicalGraph.step_choice
          (filter (fun s => Dict.mem (IdeologicalGraph.positions g)
                                     (IdeologicalGraph.step_position_id s))
                  steps))%list
  /\ Walker.prediction_errors walker' = Walker.prediction_errors walker.
Proof.
  revert g walker.
  induction steps as [|s steps IH]; intros g walker.
  - simpl. now rewrite app_nil_r.
  - rewrite walk_cons.
    pose proof (walk_step_effect set_iter g walker
                  (IdeologicalGraph.step_position_id s)
                  (IdeologicalGraph.step_accepted s)
                  (IdeologicalGraph.step_confidence s)
                  (IdeologicalGraph.step_reasoning s)) as Heff.
    cbv zeta in Heff.
    set (r := fst (IdeologicalGraph.walk_step set_iter g walker _ _ _ _))
      in *.
    destruct (IH (fst r) (snd r)) as (IHc & IHe).
    unfold IdeologicalGraph.get_position in Heff.
    destruct (Dict.get (IdeologicalGraph.positions g)
                       (IdeologicalGraph.step_position_id s))
      as [position|] eqn:Hpos.
    + destruct Heff as (Hposs & _ & Hch & Herr & _).
      assert (Hmem : Dict.mem (IdeologicalGraph.positions g)
                              (IdeologicalGraph.step_position_id s) = true)
        by (unfold Dict.mem; now rewrite Hpos).
      cbn [filter]. rewrite Hmem.
      rewrite IHc, IHe, Hch, Herr, Hposs. split; [|reflexivity].
      rewrite <- app_assoc. cbn [map app]. f_equal. f_equal. f_equal.
      apply filter_ext. intros s'.
      now apply mem_set_present with (v := position).
    + assert (Hmem : Dict.mem (IdeologicalGraph.positions g)
                              (IdeologicalGraph.step_position_id s) = false)
        by (unfold Dict.mem; now rewrite Hpos).
      cbn [filter]. rewrite Hmem.
      rewrite Heff in *. simpl in *. now split.
Qed.

(** X6.  After [add_edge(e)], a lookup by source, target and type returns
    the edge [add_edge] returned: [e] itself if its id was free, otherwise
    the stored edge strengthened by the learning rate.  Entries under other
    ids and the position map are untouched. *)
Theorem add_edge_then_get_edge (g : IdeologicalGraph.t) (e : Edge.t) :
  let g' := fst (IdeologicalGraph.add_edge g e) in
  let stored := snd (IdeologicalGraph.add_edge g e) in
  IdeologicalGraph.get_edge g' (Edge.source_id e) (Edge.target_id e)
                            (Some (Edge.edge_type e))
  = Some stored
  /\ stored
     = match Dict.get (IdeologicalGraph.edges g) (Edge.id e) with
       | Some existing =>
           Edge.strengthen existing (IdeologicalGraph.learning_rate g)
       | None => e
       end
  /\ (forall k, k <> Edge.id e ->
                Dict.get (IdeologicalGraph.edges g') k
                = Dict.get (IdeologicalGraph.edges g) k)
  /\ IdeologicalGraph.positions g' = IdeologicalGraph.positions g.
Proof.
  intros g' stored.
  split; [|split; [|split]].
  - unfold IdeologicalGraph.get_edge, IdeologicalGraph.lookup_edge.
    fold (Edge.id e). unfold g', stored. now rewrite add_edge_stored.
  - unfold stored, IdeologicalGraph.add_edge.
    now destruct (Dict.get (IdeologicalGraph.edges g) (Edge.id e)).
  - intros k Hk. unfold g', IdeologicalGraph.add_edge.
    destruct (Dict.get (IdeologicalGraph.edges g) (Edge.id e)); simpl;
      now apply get_set_other.
  - apply add_edge_positions.
Qed.

Section AddPosition.
Import IdeologicalGraph.

Lemma Source_eqb_refl (s : Source.t) : Source.eqb s s = true.
Proof.
  unfold Source.eqb.
  rewrite !String.eqb_refl.
  assert (Hq : Qeq_bool (Source.credibility s) (Source.credibility s) = true)
    by (apply Qeq_bool_iff; reflexivity).
  rewrite Hq.
  destruct (Source.url s); destruct (Source.timestamp s);
    now rewrite ?String.eqb_refl, ?Z.eqb_refl.
Qed.

Lemma add_source_fields (p : Position.t) (s : Source.t) :
  let p' := Position.add_source p s in
  Position.id p' = Position.id p
  /\ Position.claim p' = Position.claim p
  /\ Position.domain p' = Position.domain p
  /\ Position.valence p' = Position.valence p
  /\ Position.level p' = Position.level p
  /\ Position.visit_count p' = Position.visit_count p
  /\ Position.canonical_score p' = Position.canonical_score p
  /\ Position.traditions p' = Position.traditions p
  /\ (exists added,
         Position.sources p' = (Position.sources p ++ added)%list)
  /\ existsb (Source.eqb s) (Position.sources p') = true.
Proof.
  unfold Position.add_source.
  destruct (existsb (Source.eqb s) (Position.sources p)) eqn:E; simpl.
  - repeat split; try reflexivity; [|exact E].
    exists []. now rewrite app_nil_r.
  - repeat split; try reflexivity; [now exists [s]|].
    rewrite existsb_app. simpl. now rewrite Source_eqb_refl, orb_true_r.
Qed.

Lemma add_sources_fields (ss : list Source.t) (p : Position.t) :
  let p' := fold_left Position.add_source ss p in
  Position.id p' = Position.id p
  /\ Position.claim p' = Position.claim p
  /\ Position.domain p' = Position.domain p
  /\ Position.valence p' = Position.valence p
  /\ Position.level p' = Position.level p
  /\ Position.visit_count p' = Position.visit_count p
  /\ Position.canonical_score p' = Position.canonical_score p
  /\ Position.traditions p' = Position.traditions p
  /\ (exists added,
         Position.sources p' = (Position.sources p ++ added)%list)
  /\ (forall s, In s ss ->
                existsb (Source.eqb s) (Position.sources p') = true).
Proof.
  revert p. induction ss as [|s ss IH]; intros p; simpl.
  - repeat split; try reflexivity; [|contradiction].
    exists []. now rewrite app_nil_r.
  - destruct (IH (Position.add_source p s))
      as (H1 & H2 & H3 & H4 & H5 & H6 & H7 & H8 & (added & Hadd) & Hall).
    destruct (add_source_fields p s)
      as (G1 & G2 & G3 & G4 & G5 & G6 & G7 & G8 & (added0 & Hadd0) & Hs).
    cbv zeta in *.
    rewrite H1, H2, H3, H4, H5, H6, H7, H8, G1, G2, G3, G4, G5, G6, G7, G8.
    repeat split; try reflexivity.
    + exists (added0 ++ added)%list. rewrite Hadd, Hadd0.
      now rewrite app_assoc.
    + intros s' [<-|Hin]; [|now apply Hall].
      rewrite Hadd, existsb_app, Hs. reflexivity.
Qed.

(** What the merge loop of [add_position] appends: sources of the
    position given that equal no source stored before and no source
    appended earlier. *)
Lemma add_sources_once (ss : list Source.t) (p : Position.t) :
  exists added,
    Position.sources (fold_left Position.add_source ss p)
    = (Position.sources p ++ added)%list
    /\ Forall (fun a => In a ss
                        /\ existsb (Source.eqb a) (Position.sources p)
                           = false) added
    /\ ForallOrdPairs (fun a b => Source.eqb b a = false) added.
Proof.
  revert p. induction ss as [|s ss IH]; intros p; cbn [fold_left].
  - exists []. rewrite app_nil_r. repeat constructor.
  - destruct (IH (Position.add_source p s)) as (added & Hsrc & Hnew & Hord).
    assert (Hstep : Position.sources (Position.add_source p s)
                    = if existsb (Source.eqb s) (Position.sources p)
                      then Position.sources p
                      else (Position.sources p ++ [s])%list).
    { unfold Position.add_source.
      now destruct (existsb (Source.eqb s) (Position.sources p)). }
    rewrite Hstep in Hsrc, Hnew.
    destruct (existsb (Source.eqb s) (Position.sources p)) eqn:Hs.
    + exists added. split; [exact Hsrc|]. split; [|exact Hord].
      apply Forall_impl with (2 := Hnew). intros a [Hin Ha].
      split; [now right | exact Ha].
    + exists (s :: added). split; [now rewrite Hsrc, <- app_assoc|].
      assert (Hsplit : forall a,
                 existsb (Source.eqb a) (Position.sources p ++ [s]) = false ->
                 existsb (Source.eqb a) (Position.sources p) = false
                 /\ Source.eqb a s = false).
      { intros a Ha. rewrite existsb_app in Ha. cbn [existsb] in Ha.
        rewrite orb_false_r in Ha. now apply orb_false_iff in Ha. }
      split.
      * constructor; [split; [now left | exact Hs]|].
        apply Forall_impl with (2 := Hnew). intros a [Hin Ha].
        split; [now right | now apply Hsplit].
      * constructor; [|exact Hord].
        apply Forall_impl with (2 := Hnew). intros a [_ Ha].
        now apply Hsplit.
Qed.

End AddPosition.

(** X7.  [add_position] never replaces a stored position.  If the id is
    new, the position is stored as given.  If the id is taken, the stored
    position keeps all its fields and its evidence sources, and gains the
    sources of the position given, each at most once: what is appended are
    sources of the position given, none of them equal to a source stored
    before or to one appended earlier, and every source of the position
    given then has an equal among the stored ones.  In both cases the
    position returned is the one then stored under the id, and other
    entries and the edges are untouched. *)
Theorem add_position_merges (g : IdeologicalGraph.t) (p : Position.t) :
  let g' := fst (IdeologicalGraph.add_position g p) in
  let stored := snd (IdeologicalGraph.add_position g p) in
  IdeologicalGraph.get_position g' (Position.id p) = Some stored
  /\ (forall k, k <> Position.id p ->
                IdeologicalGraph.get_position g' k
                = IdeologicalGraph.get_position g k)
  /\ IdeologicalGraph.edges g' = IdeologicalGraph.edges g
  /\ match IdeologicalGraph.get_position g (Position.id p) with
     | None => stored = p
     | Some existing =>
         Persistence.same_saved_position existing stored
         /\ (exists added,
                Position.sources stored
                = (Position.sources existing ++ added)%list
                /\ Forall (fun a =>
                             In a (Position.sources p)
                             /\ existsb (Source.eqb a)
                                        (Position.sources existing) = false)
                          added
                /\ ForallOrdPairs (fun a b => Source.eqb b a = false)
                                  added)
         /\ (forall s, In s (Position.sources p) ->
                       existsb (Source.eqb s) (Position.sources stored)
                       = true)
         /\ Dict.keys (IdeologicalGraph.positions g')
            = Dict.keys (IdeologicalGraph.positions g)
     end.
Proof.
  intros g' stored. unfold g', stored, IdeologicalGraph.add_position,
    IdeologicalGraph.get_position.
  destruct (Dict.get (IdeologicalGraph.positions g) (Position.id p))
    as [existing|] eqn:Hget; simpl.
  - split; [apply get_set_same|].
    split; [intros k Hk; now apply get_set_other|].
    split; [reflexivity|].
    destruct (add_sources_fields (Position.sources p) existing)
      as (H1 & H2 & H3 & H4 & H5 & H6 & H7 & H8 & Hadd & Hall).
    cbv zeta in *.
    split; [unfold Persistence.same_saved_position; tauto|].
    split; [apply add_sources_once|]. split; [exact Hall|].
    apply keys_set_present.
    destruct (in_dec string_dec (Position.id p)
                (Dict.keys (IdeologicalGraph.positions g))) as [H|H];
      [exact H|].
    apply get_None_keys in H. congruence.
  - split; [apply get_set_same|].
    split; [intros k Hk; now apply get_set_other|].
    split; reflexivity.
Qed.

Section EdgeUpdates.
Import IdeologicalGraph.

Lemma same_triple_refl (e : Edge.t) : same_triple e e = true.
Proof. apply same_triple_spec. now repeat split. Qed.

(** Assigning to a key a value with the triple of the edge stored there, if
    any, keeps every stored edge's triple and keeps the keys in order. *)
Lemma set_keeps_triples (d : Dict.t Edge.t) (key : string) (v : Edge.t) :
  (forall e, Dict.get d key = Some e -> same_triple e v = true) ->
  (exists added,
      Dict.keys (Dict.set d key v) = (Dict.keys d ++ added)%list
      /\ (List.length added <= 1)%nat)
  /\ (forall k x, Dict.get d k = Some x ->
                  exists x', Dict.get (Dict.set d key v) k = Some x'
                             /\ same_triple x x' = true).
Proof.
  intros Hsame. split.
  - destruct (in_dec string_dec key (Dict.keys d)) as [Hin|Hnin].
    + exists []. rewrite keys_set_present by exact Hin.
      rewrite app_nil_r. split; [reflexivity | simpl; lia].
    + exists [key]. rewrite keys_set_absent by exact Hnin.
      split; [reflexivity | simpl; lia].
  - intros k x Hk. destruct (String.eqb_spec k key) as [->|Hne].
    + exists v. rewrite get_set_same. split; [reflexivity | now apply Hsame].
    + exists x. rewrite get_set_other by exact Hne.
      split; [exact Hk | apply same_triple_refl].
Qed.

(** What the edge update does to the edge map of a graph with one entry
    per key. *)
Lemma update_edges_keeps_edges (g : t) (walker : Walker.t)
      (choice : Choice.t) :
  Dict.wf (edges g) ->
  let g' := fst (_update_edges_from_choice g walker choice) in
  Dict.wf (edges g')
  /\ (exists added,
         Dict.keys (edges g') = (Dict.keys (edges g) ++ added)%list
         /\ (List.length added <= 1)%nat)
  /\ (forall k x, Dict.get (edges g) k = Some x ->
                  exists x', Dict.get (edges g') k = Some x'
                             /\ same_triple x x' = true).
Proof.
  intros Hwf.
  assert (Hid : Dict.wf (edges g)
                /\ (exists added,
                       Dict.keys (edges g) = (Dict.keys (edges g) ++ added)%list
                       /\ (List.length added <= 1)%nat)
                /\ (forall k x, Dict.get (edges g) k = Some x ->
                                exists x', Dict.get (edges g) k = Some x'
                                           /\ same_triple x x' = true)).
  { split; [exact Hwf|]. split.
    - exists []. rewrite app_nil_r. split; [reflexivity | simpl; lia].
    - intros k x Hk. exists x. split; [exact Hk | apply same_triple_refl]. }
  unfold _update_edges_from_choice.
  destruct (List.length (Walker.path walker) <? 2)%nat; [exact Hid|].
  destruct (Choice.accepted choice);
    destruct (lookup_edge g _ _ None) as [[key e]|] eqn:Hlook;
    cbn [fst]; try exact Hid.
  - destruct (lookup_edge_stored g _ _ key e Hwf Hlook) as (Hget & _).
    split; [now apply wf_set|]. apply set_keeps_triples.
    intros e0 He0. rewrite Hget in He0. injection He0 as <-.
    apply same_triple_spec. now repeat split.
  - unfold connect, add_edge.
    destruct (Dict.get (edges g) (Edge.id _)) as [existing|] eqn:Hget;
      cbn [fst edges with_edges];
      (split; [now apply wf_set|]); apply set_keeps_triples;
      intros e0 He0; rewrite Hget in He0; [|discriminate].
    injection He0 as <-. apply same_triple_spec. now repeat split.
  - destruct (EdgeType_eqb (Edge.edge_type e) IMPLIES); cbn [fst];
      [|exact Hid].
    destruct (lookup_edge_stored g _ _ key e Hwf Hlook) as (Hget & _).
    split; [now apply wf_set|]. apply set_keeps_triples.
    intros e0 He0. rewrite Hget in He0. injection He0 as <-.
    apply same_triple_spec. now repeat split.
Qed.

Lemma walk_step_keeps_edges (set_iter : list string -> list string)
      (g : t) (walker : Walker.t) (position_id : string) (accepted : bool)
      (confidence : Q) (reasoning : option string) :
  Dict.wf (edges g) ->
  let g' := fst (fst (walk_step set_iter g walker position_id accepted
                                confidence reasoning)) in
  Dict.wf (edges g')
  /\ (exists added,
         Dict.keys (edges g') = (Dict.keys (edges g) ++ added)%list
         /\ (List.length added <= 1)%nat)
  /\ (forall k x, Dict.get (edges g) k = Some x ->
                  exists x', Dict.get (edges g') k = Some x'
                             /\ same_triple x x' = true).
Proof.
  intros Hwf g'. unfold g'.
  destruct (get_position g position_id) as [position|] eqn:Hpos.
  - rewrite (walk_step_state set_iter g walker position_id accepted
               confidence reasoning position Hpos).
    apply (update_edges_keeps_edges
             (with_positions g
                (Dict.set (positions g) position_id
                          (Position.record_visit position)))).
    exact Hwf.
  - rewrite (walk_step_unknown set_iter g walker position_id accepted
               confidence reasoning Hpos).
    simpl. split; [exact Hwf|]. split.
    + exists []. rewrite app_nil_r. split; [reflexivity | simpl; lia].
    + intros k x Hk. exists x. split; [exact Hk | apply same_triple_refl].
Qed.

End EdgeUpdates.

(** X8.  A walk never deletes or reorders edges.  On a graph whose edge
    map has one entry per key, after any sequence of [walk_step] calls the
    old keys are still there in their order, followed by at most one new
    key per step, and every edge stored before is still stored under its
    key with the same source, target and type: edges are only reweighted
    or added. *)
Theorem walk_keeps_edges
        (set_iter : list string -> list string)
        (steps : list IdeologicalGraph.step)
        (g : IdeologicalGraph.t) (walker : Walker.t) :
  Dict.wf (IdeologicalGraph.edges g) ->
  let g' := fst (IdeologicalGraph.walk set_iter g walker steps) in
  Dict.wf (IdeologicalGraph.edges g')
  /\ (exists added,
         Dict.keys (IdeologicalGraph.edges g')
         = (Dict.keys (IdeologicalGraph.edges g) ++ added)%list
         /\ (List.length added <= List.length steps)%nat)
  /\ (forall k e,
         Dict.get (IdeologicalGraph.edges g) k = Some e ->
         exists e',
           Dict.get (IdeologicalGraph.edges g') k = Some e'
           /\ Edge.source_id e' = Edge.source_id e
           /\ Edge.target_id e' = Edge.target_id e
           /\ Edge.edge_type e' = Edge.edge_type e).
Proof.
  revert g walker.
  induction steps as [|s steps IH]; intros g walker Hwf g'.
  - simpl. split; [exact Hwf|]. split.
    + exists []. rewrite app_nil_r. split; [reflexivity | simpl; lia].
    + intros k e Hk. exists e. now repeat split.
  - unfold g'. rewrite walk_cons.
    destruct (walk_step_keeps_edges set_iter g walker
                (IdeologicalGraph.step_position_id s)
                (IdeologicalGraph.step_accepted s)
                (IdeologicalGraph.step_confidence s)
                (IdeologicalGraph.step_reasoning s) Hwf)
      as (Hwf1 & (added1 & Hkeys1 & Hlen1) & Hkeep1).
    cbv zeta in *.
    set (r := fst (IdeologicalGraph.walk_step set_iter g walker _ _ _ _))
      in *.
    destruct (IH (fst r) (snd r) Hwf1)
      as (Hwf2 & (added2 & Hkeys2 & Hlen2) & Hkeep2).
    split; [exact Hwf2|]. split.
    + exists (added1 ++ added2)%list.
      rewrite Hkeys2, Hkeys1, <- app_assoc. split; [reflexivity|].
      rewrite length_app. simpl. lia.
    + intros k e Hk.
      destruct (Hkeep1 k e Hk) as (e1 & Hk1 & Hsame1).
      destruct (Hkeep2 k e1 Hk1) as (e2 & Hk2 & Hs & Ht & Hty).
      apply same_triple_spec in Hsame1.
      destruct Hsame1 as (Hs1 & Ht1 & Hty1).
      exists e2. split; [exact Hk2|]. repeat split; congruence.
Qed.

Lemma walk_keeps_edges_witness :
  let g' :=
    fst (IdeologicalGraph.walk py_set Scenario.mixed_graph
           (Scenario.walker [])
           [IdeologicalGraph.mk_step "A" true 0.8 None;
            IdeologicalGraph.mk_step "B" false 0.8 None;
            IdeologicalGraph.mk_step "B" true 0.8 None]) in
  exists added,
    Dict.keys (IdeologicalGraph.edges g')
    = (["A->B:contradicts"; "A->B:implies"] ++ added)%list
    /\ (List.length added <= 3)%nat.
Proof.
  apply (walk_keeps_edges py_set
           [IdeologicalGraph.mk_step "A" true 0.8 None;
            IdeologicalGraph.mk_step "B" false 0.8 None;
            IdeologicalGraph.mk_step "B" true 0.8 None]
           Scenario.mixed_graph (Scenario.walker [])).
  repeat constructor; simpl; intuition discriminate.
Defined.

Section AcceptedStep.
Import IdeologicalGraph.


End AcceptedStep.



Section Suggestions.
Import IdeologicalGraph.

Lemma resolve_stored (g : t) (ids : list string) (p : Position.t) :
  In p (resolve g ids) -> In p (Dict.values (positions g)).
Proof.
  unfold resolve. rewrite in_flat_map. intros (pid & _ & Hin).
  destruct (Dict.get (positions g) pid) as [q|] eqn:Hget; [|contradiction].
  destruct Hin as [<-|[]]. apply get_In in Hget.
  unfold Dict.values. change q with (snd (pid, q)). now apply in_map.
Qed.

Lemma contradicts_stored (g : t) (position_id : string) (p : Position.t) :
  In p (contradicts g position_id) -> In p (Dict.values (positions g)).
Proof.
  unfold contradicts. rewrite in_flat_map. intros (edge & _ & Hin).
  destruct (negb _); [contradiction|].
  destruct (_ && _); [now apply resolve_stored in Hin|].
  destruct (_ && _); [now apply resolve_stored in Hin | contradiction].
Qed.

Lemma explore_stored (A : Type) (P : A -> Prop) (keep : list A -> A -> bool)
      (candidates acc : list A) :
  Forall P candidates -> Forall P acc ->
  Forall P (fold_left
              (fun acc x => if keep acc x then (acc ++ [x])%list else acc)
              candidates acc).
Proof.
  intros Hc. revert acc. induction Hc as [|x r Hx Hr IH]; intros acc Hacc.
  - exact Hacc.
  - simpl. apply IH. destruct (keep acc x); [|exact Hacc].
    apply Forall_app. split; [exact Hacc | now constructor].
Qed.

Lemma In_firstn (A : Type) (n : nat) (l : list A) (x : A) :
  In x (firstn n l) -> In x l.
Proof.
  intros Hin. rewrite <- (firstn_skipn n l). apply in_or_app. now left.
Qed.

Lemma In_py_take (A : Type) (n : Z) (l : list A) (x : A) :
  In x (py_take n l) -> In x l.
Proof.
  unfold py_take. destruct (0 <=? n)%Z; apply In_firstn.
Qed.

End Suggestions.

(** X10.  [walk_step] returns at most 5 suggestions, and each of them is a
    position stored in the graph as the step leaves it. *)
Theorem walk_step_suggestions
        (set_iter : list string -> list string)
        (g : IdeologicalGraph.t) (walker : Walker.t) (position_id : string)
        (accepted : bool) (confidence : Q) (reasoning : option string) :
  let result :=
    IdeologicalGraph.walk_step set_iter g walker position_id accepted
                               confidence reasoning in
  (List.length (snd result) <= 5)%nat
  /\ Forall (fun p =>
               In p (Dict.values
                       (IdeologicalGraph.positions (fst (fst result)))))
            (snd result).
Proof.
  intros result. unfold result, IdeologicalGraph.walk_step.
  destruct (IdeologicalGraph.get_position g position_id) as [position|];
    [|simpl; split; [lia | constructor]].
  destruct (IdeologicalGraph._update_edges_from_choice _ _ _) as [g2 w3].
  cbn [fst snd]. split; [apply firstn_le_length|].
  apply Forall_forall. intros p Hin. apply In_firstn in Hin. revert p Hin.
  apply Forall_forall.
  apply (explore_stored Position.t
           (fun p => In p (Dict.values (IdeologicalGraph.positions g2)))
           (fun acc neighbor =>
              negb (str_in (Position.id neighbor) (Walker.path w3))
              && negb (existsb (Position.eqb neighbor) acc))).
  - apply Forall_forall. intros p Hp.
    unfold IdeologicalGraph.neighbors in Hp. now apply resolve_stored in Hp.
  - apply Forall_forall. intros p Hp. destruct accepted.
    + unfold IdeologicalGraph.implies in Hp. now apply resolve_stored in Hp.
    + now apply contradicts_stored in Hp.
Qed.

Section Queries.
Import IdeologicalGraph.

Lemma mem_true (d : Dict.t Position.t) (k : string) (p : Position.t) :
  Dict.get d k = Some p -> Dict.mem d k = true.
Proof. intros H. unfold Dict.mem. now rewrite H. Qed.

Lemma resolve_one (g : t) (k : string) (p : Position.t) :
  Dict.get (positions g) k = Some p -> resolve g [k] = [p].
Proof. intros H. unfold resolve. simpl. now rewrite H. Qed.

Lemma In_resolve_one (g : t) (k : string) (p : Position.t) :
  In p (resolve g [k]) -> Dict.get (positions g) k = Some p.
Proof.
  unfold resolve. simpl.
  destruct (Dict.get (positions g) k); simpl; [|tauto].
  intros [->|[]]. reflexivity.
Qed.

(** How a position gets into the result of [contradicts]. *)
Lemma In_contradicts_inv (g : t) (a : string) (p : Position.t) :
  In p (contradicts g a) ->
  exists edge,
    In edge (Dict.values (edges g))
    /\ Edge.edge_type edge = CONTRADICTS
    /\ ((Edge.source_id edge = a
         /\ Dict.get (positions g) (Edge.target_id edge) = Some p)
        \/ (Edge.target_id edge = a
            /\ Dict.get (positions g) (Edge.source_id edge) = Some p)).
Proof.
  unfold contradicts. rewrite in_flat_map.
  intros (edge & Hedge & Hin). exists edge. split; [exact Hedge|].
  destruct (EdgeType_eqb (Edge.edge_type edge) CONTRADICTS) eqn:Ety;
    cbn [negb] in Hin; [|contradiction].
  apply EdgeType_eqb_eq in Ety. split; [exact Ety|].
  destruct (String.eqb (Edge.source_id edge) a
            && Dict.mem (positions g) (Edge.target_id edge)) eqn:E1.
  - apply andb_true_iff in E1. destruct E1 as [Hs _].
    apply String.eqb_eq in Hs. apply In_resolve_one in Hin. now left.
  - destruct (String.eqb (Edge.target_id edge) a
              && Dict.mem (positions g) (Edge.source_id edge)) eqn:E2;
      [|contradiction].
    apply andb_true_iff in E2. destruct E2 as [Ht _].
    apply String.eqb_eq in Ht. apply In_resolve_one in Hin. now right.
Qed.

Lemma In_contradicts_source (g : t) (edge : Edge.t) (p : Position.t) :
  In edge (Dict.values (edges g)) ->
  Edge.edge_type edge = CONTRADICTS ->
  Dict.get (positions g) (Edge.target_id edge) = Some p ->
  In p (contradicts g (Edge.source_id edge)).
Proof.
  intros Hedge Hty Hget. unfold contradicts. apply in_flat_map.
  exists edge. split; [exact Hedge|].
  rewrite Hty. cbn [EdgeType_eqb negb].
  rewrite String.eqb_refl, (mem_true _ _ p Hget). cbn [andb].
  rewrite (resolve_one g _ p Hget). now left.
Qed.

Lemma In_contradicts_target (g : t) (edge : Edge.t) (p q : Position.t) :
  In edge (Dict.values (edges g)) ->
  Edge.edge_type edge = CONTRADICTS ->
  Dict.get (positions g) (Edge.source_id edge) = Some p ->
  Dict.get (positions g) (Edge.target_id edge) = Some q ->
  Edge.source_id edge <> Edge.target_id edge ->
  In p (contradicts g (Edge.target_id edge)).
Proof.
  intros Hedge Hty Hget Hq Hne. unfold contradicts. apply in_flat_map.
  exists edge. split; [exact Hedge|].
  rewrite Hty. cbn [EdgeType_eqb negb].
  apply String.eqb_neq in Hne. rewrite Hne. cbn [andb].
  rewrite String.eqb_refl, (mem_true _ _ p Hget). cbn [andb].
  rewrite (resolve_one g _ p Hget). now left.
Qed.

(** One direction of the symmetry of [contradicts]. *)
Lemma contradicts_swap (g : t) (a b : string) (pa pb : Position.t) :
  positions_keyed_by_id g ->
  Dict.get (positions g) a = Some pa ->
  Dict.get (positions g) b = Some pb ->
  In pb (contradicts g a) -> In pa (contradicts g b).
Proof.
  intros Hkeyed Ha Hb Hin.
  destruct (In_contradicts_inv g a pb Hin)
    as (edge & Hedge & Hty & [[Hs Hget]|[Ht Hget]]).
  - assert (Htb : Edge.target_id edge = b).
    { rewrite <- (Hkeyed _ _ Hget). apply (Hkeyed _ _ Hb). }
    destruct (string_dec a b) as [Hab|Hab].
    + assert (pa = pb) by congruence. subst pb. rewrite <- Hab, <- Hs.
      apply In_contradicts_source; [exact Hedge | exact Hty |].
      rewrite Htb, <- Hab. exact Ha.
    + rewrite <- Htb.
      apply In_contradicts_target with (q := pb);
        [exact Hedge | exact Hty | now rewrite Hs | exact Hget | congruence].
  - assert (Hsb : Edge.source_id edge = b).
    { rewrite <- (Hkeyed _ _ Hget). apply (Hkeyed _ _ Hb). }
    rewrite <- Hsb.
    apply In_contradicts_source; [exact Hedge | exact Hty |].
    now rewrite Ht.
Qed.

Lemma connections_bound (g : t) (position : Position.t)
      (accepted : list string) (n : nat) :
  (fold_left
     (fun n pos_id =>
        let n :=
          match get_edge g pos_id (Position.id position) None with
          | Some _ => (n + 1)%nat
          | None => n
          end in
        match get_edge g (Position.id position) pos_id None with
        | Some _ => (n + 1)%nat
        | None => n
        end)
     accepted n
   <= n + List.length accepted * 2)%nat.
Proof.
  revert n. induction accepted as [|a r IH]; intros n; simpl; [lia|].
  eapply Nat.le_trans; [apply IH|].
  destruct (get_edge g a (Position.id position) None);
    destruct (get_edge g (Position.id position) a None); lia.
Qed.

End Queries.

(** X11.  [contradicts] is symmetric on a graph that holds each position
    under its id: for stored positions A and B, B is among the positions
    contradicting A exactly when A is among those contradicting B,
    whichever way the [contradicts] edge points. *)
Theorem contradicts_symmetric (g : IdeologicalGraph.t) (a b : string)
        (pa pb : Position.t) :
  IdeologicalGraph.positions_keyed_by_id g ->
  Dict.get (IdeologicalGraph.positions g) a = Some pa ->
  Dict.get (IdeologicalGraph.positions g) b = Some pb ->
  In pb (IdeologicalGraph.contradicts g a)
  <-> In pa (IdeologicalGraph.contradicts g b).
Proof.
  intros Hkeyed Ha Hb. split.
  - now apply contradicts_swap.
  - now apply contradicts_swap.
Qed.

Lemma contradicts_symmetric_witness :
  In (Scenario.position "B" 0)
     (IdeologicalGraph.contradicts Scenario.mixed_graph "A")
  /\ In (Scenario.position "A" 0)
        (IdeologicalGraph.contradicts Scenario.mixed_graph "B").
Proof.
  assert (H : In (Scenario.position "B" 0)
                 (IdeologicalGraph.contradicts Scenario.mixed_graph "A"))
    by (simpl; now left).
  split; [exact H|].
  apply (contradicts_symmetric Scenario.mixed_graph "A" "B"
           (Scenario.position "A" 0) (Scenario.position "B" 0)).
  - intros k p Hget. apply get_In in Hget.
    destruct Hget as [[= <- <-]|[[= <- <-]|[]]]; reflexivity.
  - reflexivity.
  - reflexivity.
  - exact H.
Defined.

(** X12.  The basin distance of a position always lies in [[0,1]]; it is
    0.5 when nothing was accepted, and 1 when no edge joins the position
    to an accepted one. *)
Theorem basin_distance_bounds (g : IdeologicalGraph.t)
        (position : Position.t) (accepted : list string) :
  let d := IdeologicalGraph._estimate_basin_distance g position accepted in
  0 <= d <= 1
  /\ (accepted = [] -> d == 0.5)
  /\ (accepted <> [] ->
      (forall a, In a accepted ->
                 IdeologicalGraph.get_edge g a (Position.id position) None
                 = None
                 /\ IdeologicalGraph.get_edge g (Position.id position) a None
                    = None) ->
      d == 1).
Proof.
  unfold IdeologicalGraph._estimate_basin_distance.
  destruct accepted as [|a0 r]; [simpl; repeat split; try lra; congruence|].
  cbn [is_empty]. set (accepted := a0 :: r).
  pose proof (connections_bound g position accepted 0) as Hbound.
  cbv zeta in Hbound. cbn [Nat.add] in Hbound.
  set (connections := fold_left _ accepted 0%nat) in *.
  assert (Hpos : (0 < List.length accepted * 2)%nat) by (simpl; lia).
  destruct (Nat.ltb_spec 0 (List.length accepted * 2)) as [_|H]; [|lia].
  assert (Hm : 0 < inject_Z (Z.of_nat (List.length accepted * 2)))
    by (change 0 with (inject_Z 0); rewrite <- Zlt_Qlt; lia).
  assert (Hc0 : 0 <= inject_Z (Z.of_nat connections))
    by (change 0 with (inject_Z 0); rewrite <- Zle_Qle; lia).
  assert (Hcm : inject_Z (Z.of_nat connections)
                <= inject_Z (Z.of_nat (List.length accepted * 2)))
    by (rewrite <- Zle_Qle; lia).
  assert (Hratio : 0 <= inject_Z (Z.of_nat connections)
                        / inject_Z (Z.of_nat (List.length accepted * 2))
                   <= 1).
  { split.
    - apply Qle_shift_div_l; [exact Hm | lra].
    - apply Qle_shift_div_r; [exact Hm | lra]. }
  cbv zeta. split; [lra|]. split; [discriminate|].
  intros _ Hnone.
  assert (Hzero : connections = 0%nat).
  { unfold connections. clear -Hnone. revert Hnone.
    generalize accepted. intros l Hnone.
    induction l as [|a l IH]; [reflexivity|]. simpl.
    destruct (Hnone a (or_introl eq_refl)) as [-> ->].
    apply IH. intros x Hx. apply Hnone. now right. }
  rewrite Hzero. simpl. unfold Qdiv. rewrite Qmult_0_l. reflexivity.
Qed.

(** X13.  Every position suggested by [suggest_outside_basin] is stored in
    the graph, is not on the walker's path and is not implied by any
    position the walker accepted; for [n >= 0] at most [n] positions are
    suggested. *)
Theorem suggest_outside_basin_sound (g : IdeologicalGraph.t)
        (walker : Walker.t) (n : Z) :
  let suggested := IdeologicalGraph.suggest_outside_basin g walker n in
  (forall p, In p suggested ->
             In p (Dict.values (IdeologicalGraph.positions g))
             /\ ~ In (Position.id p) (Walker.path walker)
             /\ (forall a q, In a (Walker.positions_accepted walker) ->
                             In q (IdeologicalGraph.implies g a) ->
                             Position.id q <> Position.id p))
  /\ ((0 <= n)%Z -> (Z.of_nat (List.length suggested) <= n)%Z).
Proof.
  intros suggested. unfold suggested, IdeologicalGraph.suggest_outside_basin.
  split.
  - intros p Hin. apply in_map_iff in Hin.
    destruct Hin as ([p' d] & Hp & Hin). simpl in Hp. subst p'.
    apply In_py_take, In_sort_desc in Hin.
    unfold IdeologicalGraph.basin_candidates in Hin.
    apply in_flat_map in Hin. destruct Hin as (pos & Hpos & Hin).
    destruct (str_in (Position.id pos) (py_set (Walker.path walker)))
      eqn:Hvisited; [contradiction|].
    destruct (str_in (Position.id pos) (py_set (flat_map _ _)))
      eqn:Himplied; [contradiction|].
    destruct Hin as [[= <- _]|[]].
    split; [exact Hpos|]. split.
    + intros H. apply str_in_py_set in H. congruence.
    + intros a q Ha Hq Heq.
      assert (Htrue : str_in (Position.id pos)
                (py_set
                   (flat_map
                      (fun pos_id =>
                         map Position.id (IdeologicalGraph.implies g pos_id))
                      (py_set (Walker.positions_accepted walker)))) = true).
      { apply str_in_py_set. apply in_flat_map. exists a. split.
        - unfold py_set. now apply nodup_In.
        - rewrite <- Heq. now apply in_map. }
      congruence.
  - intros Hn. rewrite length_map. unfold py_take.
    destruct (Z.leb_spec 0 n) as [_|H]; [|lia].
    pose proof (firstn_le_length (Z.to_nat n)
                  (sort_desc snd (IdeologicalGraph.basin_candidates g walker))).
    lia.
Qed.

(* ================================================================= *)
(** * Further properties of the balance state *)

(** X14.  In [calculate_sgm] no triad is ever skipped: every triad of
    attitude-bearing positions has its three signs, each 1 or -1, so the
    balanced and imbalanced counts add up to the number of triads,
    [k (k-1) (k-2) / 6] for [k] attitudes. *)
Theorem calculate_sgm_counts_all_triads (st : WeightedBalanceState.t)
        (edges : list Edge.t) :
  let k := List.length (WeightedBalanceState.attitudes st) in
  (6 * (WeightedBalanceState.balanced_count st edges
        + WeightedBalanceState.imbalanced_count st edges)
   = k * (k - 1) * (k - 2))%nat
  /\ forall a b c,
       In (a, b, c)
          (WeightedBalanceState.triads
             (Dict.keys (WeightedBalanceState.attitudes st))) ->
       exists sab sbc sca,
         WeightedBalanceState._get_relation_sign st a b edges = Some sab
         /\ WeightedBalanceState._get_relation_sign st b c edges = Some sbc
         /\ WeightedBalanceState._get_relation_sign st c a edges = Some sca
         /\ (sab = 1 \/ sab = -1) /\ (sbc = 1 \/ sbc = -1)
         /\ (sca = 1 \/ sca = -1).
Proof.
  intros k. split.
  - unfold WeightedBalanceState.balanced_count,
      WeightedBalanceState.imbalanced_count.
    rewrite count_split.
    + rewrite length_map, triads_count. unfold k, Dict.keys.
      now rewrite length_map.
    + apply Forall_forall. intros o Ho. apply in_map_iff in Ho.
      destruct Ho as (abc & <- & Hin). now apply classify_determined.
  - intros a b c Hin.
    destruct (In_triads _ _ _ _ Hin) as (Ha & Hb & Hc).
    destruct (sign_determined st a b edges Ha Hb) as [sab Hab].
    destruct (sign_determined st b c edges Hb Hc) as [sbc Hbc].
    destruct (sign_determined st c a edges Hc Ha) as [sca Hca].
    exists sab, sbc, sca. repeat split; try assumption;
      eapply sign_values; eassumption.
Qed.

Section Sorting.
Context {A : Type}.
Variable key : A -> Q.

Lemma length_insert_desc (x : A) (l : list A) :
  List.length (insert_desc key x l) = S (List.length l).
Proof.
  induction l as [|y r IH]; simpl; [reflexivity|].
  destruct (Qle_bool (key y) (key x)); simpl; [reflexivity | now rewrite IH].
Qed.

Lemma length_sort_desc (l : list A) :
  List.length (sort_desc key l) = List.length l.
Proof.
  induction l as [|x r IH]; simpl; [reflexivity|].
  now rewrite length_insert_desc, IH.
Qed.

Lemma insert_desc_sorted (x : A) (l : list A) :
  StronglySorted (descending key) l ->
  StronglySorted (descending key) (insert_desc key x l).
Proof.
  induction 1 as [|y r Hsorted IH Hall]; simpl.
  - constructor; constructor.
  - destruct (Qle_bool (key y) (key x)) eqn:E.
    + apply Qle_bool_iff in E. constructor.
      * now constructor.
      * constructor; [exact E|].
        apply Forall_forall. intros z Hz.
        rewrite Forall_forall in Hall. specialize (Hall z Hz).
        unfold descending in *. lra.
    + assert (Hlt : key x <= key y).
      { destruct (Qlt_le_dec (key x) (key y)) as [H|H]; [lra|].
        apply Qle_bool_iff in H. congruence. }
      constructor; [exact IH|].
      apply Forall_forall. intros z Hz.
      apply In_insert_desc in Hz. destruct Hz as [->|Hz]; [exact Hlt|].
      rewrite Forall_forall in Hall. now apply Hall.
Qed.

Lemma sort_desc_sorted (l : list A) :
  StronglySorted (descending key) (sort_desc key l).
Proof.
  induction l as [|x r IH]; simpl; [constructor|].
  now apply insert_desc_sorted.
Qed.

Lemma firstn_sorted (n : nat) (l : list A) :
  StronglySorted (descending key) l -> StronglySorted (descending key) (firstn n l).
Proof.
  intros Hs. revert n. induction Hs as [|x r Hs IH Hall]; intros n.
  - rewrite firstn_nil. constructor.
  - destruct n as [|n]; [constructor|]. simpl. constructor; [apply IH|].
    apply Forall_forall. intros z Hz. apply In_firstn in Hz.
    rewrite Forall_forall in Hall. now apply Hall.
Qed.

Lemma py_take_sorted (n : Z) (l : list A) :
  StronglySorted (descending key) l -> StronglySorted (descending key) (py_take n l).
Proof.
  intros Hs. unfold py_take. destruct (0 <=? n)%Z; now apply firstn_sorted.
Qed.

End Sorting.

Section Imbalance.
Import WeightedBalanceState.

(** A triad yields an entry exactly when [calculate_sgm] counts it as
    imbalanced. *)
Lemma imbalanced_entry_count (st : t) (edges : list Edge.t)
      (abc : string * string * string) :
  List.length (imbalanced_entry st edges abc)
  = if is_imbalanced (classify st edges abc) then 1%nat else 0%nat.
Proof.
  destruct abc as [[a b] c]. unfold imbalanced_entry, classify.
  destruct (_get_relation_sign st a b edges) as [sab|] eqn:Hab;
    [|reflexivity].
  destruct (_get_relation_sign st b c edges) as [sbc|] eqn:Hbc;
    [|reflexivity].
  destruct (_get_relation_sign st c a edges) as [sca|] eqn:Hca;
    [|reflexivity].
  destruct (sign_values _ _ _ _ _ Hab) as [-> | ->];
    destruct (sign_values _ _ _ _ _ Hbc) as [-> | ->];
    destruct (sign_values _ _ _ _ _ Hca) as [-> | ->]; reflexivity.
Qed.

Lemma imbalanced_entries_count (st : t) (edges : list Edge.t)
      (l : list (string * string * string)) :
  List.length (flat_map (imbalanced_entry st edges) l)
  = List.length (filter is_imbalanced (map (classify st edges) l)).
Proof.
  induction l as [|abc l IH]; [reflexivity|].
  cbn [flat_map map filter]. rewrite length_app, imbalanced_entry_count, IH.
  now destruct (is_imbalanced (classify st edges abc)).
Qed.

Lemma imbalanced_entry_inv (st : t) (edges : list Edge.t)
      (abc : string * string * string) (a b c : string) (s : Q) :
  In (a, b, c, s) (imbalanced_entry st edges abc) ->
  abc = (a, b, c)
  /\ classify st edges abc = Some false
  /\ s = (Qabs (attitude_or_0 st a) + Qabs (attitude_or_0 st b)
          + Qabs (attitude_or_0 st c)) / 3.
Proof.
  destruct abc as [[a' b'] c']. intros Hin.
  assert (Hclass : classify st edges (a', b', c') = Some false).
  { pose proof (imbalanced_entry_count st edges (a', b', c')) as Hcount.
    destruct (imbalanced_entry st edges (a', b', c')); [contradiction|].
    destruct (classify st edges (a', b', c')) as [[|]|];
      [discriminate | reflexivity | discriminate]. }
  unfold imbalanced_entry in Hin.
  destruct (_get_relation_sign st a' b' edges) as [sab|]; [|contradiction].
  destruct (_get_relation_sign st b' c' edges) as [sbc|]; [|contradiction].
  destruct (_get_relation_sign st c' a' edges) as [sca|]; [|contradiction].
  cbv zeta in Hin.
  destruct (Qlt_le_dec (sab * sbc * sca) 0); [|contradiction].
  destruct Hin as [[= <- <- <- <-]|[]].
  split; [reflexivity|]. split; [exact Hclass | reflexivity].
Qed.

End Imbalance.

(** X15.  [find_imbalanced_triads] returns exactly the triads that
    [calculate_sgm] counts as imbalanced: as many entries as the
    imbalanced count, each a triad of the attitude map classified as
    imbalanced and scored by the mean absolute attitude of its three
    positions, in descending order of score. *)
Theorem find_imbalanced_triads_spec (st : WeightedBalanceState.t)
        (edges : list Edge.t) :
  let found := WeightedBalanceState.find_imbalanced_triads st edges in
  List.length found = WeightedBalanceState.imbalanced_count st edges
  /\ (forall a b c s,
         In (a, b, c, s) found ->
         In (a, b, c)
            (WeightedBalanceState.triads
               (Dict.keys (WeightedBalanceState.attitudes st)))
         /\ WeightedBalanceState.classify st edges (a, b, c) = Some false
         /\ s = (Qabs (WeightedBalanceState.attitude_or_0 st a)
                 + Qabs (WeightedBalanceState.attitude_or_0 st b)
                 + Qabs (WeightedBalanceState.attitude_or_0 st c)) / 3)
  /\ StronglySorted (descending snd) found.
Proof.
  intros found. unfold found, WeightedBalanceState.find_imbalanced_triads.
  split; [|split].
  - rewrite length_sort_desc. apply imbalanced_entries_count.
  - intros a b c s Hin. apply In_sort_desc, in_flat_map in Hin.
    destruct Hin as (abc & Habc & Hin).
    destruct (imbalanced_entry_inv st edges abc a b c s Hin)
      as (-> & Hc & Hs).
    now repeat split.
  - apply sort_desc_sorted.
Qed.

Section Extremeness.
Import WeightedBalanceState.

Lemma sum_abs_bounds (M : Q) (l : list Q) (acc : Q) :
  (forall v, In v l -> Qabs v <= M) ->
  acc <= fold_left (fun acc v => acc + Qabs v) l acc
  /\ fold_left (fun acc v => acc + Qabs v) l acc
     <= acc + M * inject_Z (Z.of_nat (List.length l)).
Proof.
  revert acc. induction l as [|v r IH]; intros acc Hall.
  - simpl. change (inject_Z 0) with 0. lra.
  - cbn [fold_left].
    destruct (IH (acc + Qabs v) (fun x Hx => Hall x (or_intror Hx)))
      as [Hlo Hhi].
    pose proof (Qabs_nonneg v) as Hv.
    pose proof (Hall v (or_introl eq_refl)) as HvM.
    assert (Hlen : inject_Z (Z.of_nat (List.length (v :: r)))
                   == inject_Z (Z.of_nat (List.length r)) + 1).
    { cbn [List.length]. rewrite Nat2Z.inj_succ, <- Z.add_1_r.
      now rewrite inject_Z_plus. }
    rewrite Hlen. split; nra.
Qed.

Lemma sum_abs_nonneg (l : list Q) (acc : Q) :
  acc <= fold_left (fun acc v => acc + Qabs v) l acc.
Proof.
  revert acc. induction l as [|v r IH]; intros acc; [simpl; lra|].
  cbn [fold_left]. pose proof (IH (acc + Qabs v)).
  pose proof (Qabs_nonneg v). lra.
Qed.

End Extremeness.

Lemma sum_abs_spec (l : list Q) (acc : Q) :
  fold_left (fun acc v => acc + Qabs v) l acc
  == acc + WeightedBalanceState.abs_sum l.
Proof.
  revert acc. induction l as [|v r IH]; intros acc;
    cbn [fold_left WeightedBalanceState.abs_sum]; [lra|].
  rewrite IH. lra.
Qed.

Lemma calculate_extremeness_mean (st : WeightedBalanceState.t) :
  WeightedBalanceState.attitudes st <> [] ->
  snd (WeightedBalanceState.calculate_extremeness st)
  == WeightedBalanceState.abs_sum
       (Dict.values (WeightedBalanceState.attitudes st))
     / inject_Z (Z.of_nat (List.length (WeightedBalanceState.attitudes st))).
Proof.
  intros Hsome. unfold WeightedBalanceState.calculate_extremeness.
  destruct (WeightedBalanceState.attitudes st) as [|kv r];
    [contradiction|].
  cbn [is_empty snd]. rewrite sum_abs_spec.
  now rewrite Qplus_0_l.
Qed.

Lemma calculate_extremeness_facts (st : WeightedBalanceState.t) :
  let st' := fst (WeightedBalanceState.calculate_extremeness st) in
  let value := snd (WeightedBalanceState.calculate_extremeness st) in
  0 <= value
  /\ (WeightedBalanceState.attitudes st = [] -> value == 0)
  /\ (forall M,
         0 <= M ->
         (forall v, In v (Dict.values (WeightedBalanceState.attitudes st)) ->
                    Qabs v <= M) ->
         value <= M)
  /\ WeightedBalanceState.attitudes st' = WeightedBalanceState.attitudes st
  /\ WeightedBalanceState.sgm st' = WeightedBalanceState.sgm st
  /\ WeightedBalanceState.constraint st'
     = WeightedBalanceState.constraint st.
Proof.
  unfold WeightedBalanceState.calculate_extremeness.
  destruct (WeightedBalanceState.attitudes st) as [|kv r] eqn:Hatt.
  - cbn [is_empty fst snd].
    split; [lra|]. split; [intros _; reflexivity|].
    split; [intros M HM _; exact HM | now repeat split].
  - cbn [is_empty fst snd WeightedBalanceState.attitudes
         WeightedBalanceState.sgm WeightedBalanceState.constraint].
    set (l := Dict.values (kv :: r)).
    set (n := inject_Z (Z.of_nat (List.length (kv :: r)))).
    assert (Hn : 0 < n).
    { unfold n. change 0 with (inject_Z 0). rewrite <- Zlt_Qlt.
      simpl. lia. }
    assert (Hlen : inject_Z (Z.of_nat (List.length l)) == n).
    { unfold l, n, Dict.values. now rewrite length_map. }
    split; [|split; [discriminate | split; [|now repeat split]]].
    + apply Qle_shift_div_l; [exact Hn|].
      pose proof (sum_abs_nonneg l 0). lra.
    + intros M HM Hall. apply Qle_shift_div_r; [exact Hn|].
      destruct (sum_abs_bounds M l 0 Hall) as [_ Hhi].
      rewrite Hlen in Hhi. lra.
Qed.

(** X16.  [calculate_extremeness] returns 0 for an empty attitude map and
    otherwise the mean absolute attitude, the sum of the absolute attitudes
    divided by their number: a value that is never negative and never
    above a bound that holds for every absolute attitude, so it lies in
    [[0,1]] when the attitudes lie in [[-1,1]].  Only the extremeness field
    of the state changes. *)
Theorem calculate_extremeness_bounds (st : WeightedBalanceState.t) :
  let st' := fst (WeightedBalanceState.calculate_extremeness st) in
  let value := snd (WeightedBalanceState.calculate_extremeness st) in
  (WeightedBalanceState.attitudes st <> [] ->
   value
   == WeightedBalanceState.abs_sum
        (Dict.values (WeightedBalanceState.attitudes st))
      / inject_Z (Z.of_nat (List.length (WeightedBalanceState.attitudes st))))
  /\ 0 <= value
  /\ (WeightedBalanceState.attitudes st = [] -> value == 0)
  /\ (forall M,
         0 <= M ->
         (forall v, In v (Dict.values (WeightedBalanceState.attitudes st)) ->
                    Qabs v <= M) ->
         value <= M)
  /\ WeightedBalanceState.attitudes st' = WeightedBalanceState.attitudes st
  /\ WeightedBalanceState.sgm st' = WeightedBalanceState.sgm st
  /\ WeightedBalanceState.constraint st'
     = WeightedBalanceState.constraint st.
Proof.
  exact (conj (calculate_extremeness_mean st)
              (calculate_extremeness_facts st)).
Qed.

Section Attitudes.
Import TensionAnalyzer.

Lemma attitudes_fold_snoc (choices : list Choice.t) (c : Choice.t)
      (d : Dict.t Q) :
  fold_left
    (fun d choice =>
       Dict.set d (Choice.position_id choice) (attitude_of choice))
    (choices ++ [c]) d
  = Dict.set
      (fold_left
         (fun d choice =>
            Dict.set d (Choice.position_id choice) (attitude_of choice))
         choices d)
      (Choice.position_id c) (attitude_of c).
Proof. now rewrite fold_left_app. Qed.



Lemma attitudes_of_values (choices : list Choice.t) (v : Q) :
  In v (Dict.values (attitudes_of choices)) ->
  exists c, In c choices /\ v = attitude_of c.
Proof.
  unfold attitudes_of.
  induction choices as [|c choices IH] using rev_ind; [contradiction|].
  rewrite attitudes_fold_snoc. unfold Dict.values. rewrite in_map_iff.
  intros ([k x] & Hx & Hin). simpl in Hx. subst x.
  apply In_set in Hin. destruct Hin as [[_ ->]|Hin].
  - exists c. split; [apply in_or_app; right; now left | reflexivity].
  - destruct IH as (c' & Hc' & Hv).
    + unfold Dict.values. apply in_map_iff. now exists (k, v).
    + exists c'. split; [apply in_or_app; now left | exact Hv].
Qed.

Lemma attitude_of_abs (c : Choice.t) :
  0 <= Choice.confidence c <= 1 -> Qabs (attitude_of c) <= 1.
Proof.
  intros Hc. apply Qabs_Qle_condition. unfold attitude_of.
  destruct (Choice.accepted c); split; lra.
Qed.

End Attitudes.

Section BalanceState.
Import WeightedBalanceState TensionAnalyzer.

Lemma calculate_sgm_state (st : t) (edges : list Edge.t) :
  let st' := fst (calculate_sgm st edges) in
  attitudes st' = attitudes st
  /\ extremeness st' = extremeness st
  /\ constraint st' = constraint st
  /\ (-1 <= sgm st <= 1 -> -1 <= sgm st' <= 1).
Proof.
  unfold calculate_sgm.
  destruct (List.length (attitudes st) <? 3)%nat; [now repeat split|].
  destruct (Nat.eqb_spec (balanced_count st edges + imbalanced_count st edges)
                         0) as [Hz|Hnz]; [now repeat split|].
  cbn [fst attitudes extremeness constraint sgm].
  split; [reflexivity|]. split; [reflexivity|]. split; [reflexivity|].
  intros _. apply ratio_bounds; lia.
Qed.

Lemma calculate_constraint_state (st : t) (edges : list Edge.t) :
  let st' := fst (calculate_constraint st edges) in
  attitudes st' = attitudes st
  /\ sgm st' = sgm st
  /\ extremeness st' = extremeness st
  /\ (0 <= constraint st -> 0 <= constraint st')
  /\ ((List.length (attitudes st) < 2)%nat ->
      snd (calculate_constraint st edges) == 0).
Proof.
  unfold calculate_constraint.
  destruct (Nat.ltb_spec (List.length (attitudes st)) 2) as [Hlt|Hge];
    [cbn [fst snd]; repeat split; try tauto; reflexivity|].
  cbn [fst snd attitudes sgm extremeness constraint].
  split; [reflexivity|]. split; [reflexivity|]. split; [reflexivity|].
  split; [|lia]. intros _.
  destruct (Qlt_le_dec 0 _) as [Hpos|_]; [|lra].
  apply Qle_shift_div_l; [exact Hpos|].
  match goal with
  | |- 0 * _ <= inject_Z (Z.of_nat ?n) =>
      assert (0 <= inject_Z (Z.of_nat n))
        by (change 0 with (inject_Z 0); rewrite <- Zle_Qle; lia)
  end.
  lra.
Qed.

Lemma calculate_extremeness_field (st : t) :
  extremeness (fst (calculate_extremeness st))
  = if is_empty (attitudes st) then extremeness st
    else snd (calculate_extremeness st).
Proof.
  unfold calculate_extremeness. now destruct (is_empty (attitudes st)).
Qed.

Lemma balance_state_fields (g : IdeologicalGraph.t) (walker : Walker.t) :
  let st := get_walker_balance_state g walker in
  attitudes st = attitudes_of (Walker.choices walker)
  /\ -1 <= sgm st <= 1
  /\ 0 <= constraint st
  /\ ((forall v, In v (Dict.values (attitudes_of (Walker.choices walker))) ->
                 Qabs v <= 1) ->
      0 <= extremeness st <= 1).
Proof.
  unfold get_walker_balance_state.
  pose proof (calculate_sgm_state
                (mk (attitudes_of (Walker.choices walker)) 0 0 0)
                (Dict.values (IdeologicalGraph.edges g)))
    as (Ha1 & He1 & Hc1 & Hs1).
  cbv zeta in *.
  remember (fst (calculate_sgm
                   (mk (attitudes_of (Walker.choices walker)) 0 0 0)
                   (Dict.values (IdeologicalGraph.edges g)))) as st1.
  pose proof (calculate_extremeness_facts st1)
    as (Hlo & _ & Hhi & Ha2 & Hs2 & Hc2).
  pose proof (calculate_extremeness_field st1) as Hfield.
  cbv zeta in *.
  remember (fst (calculate_extremeness st1)) as st2.
  pose proof (calculate_constraint_state st2
                (Dict.values (IdeologicalGraph.edges g)))
    as (Ha3 & Hs3 & He3 & Hc3 & _).
  cbv zeta in *.
  remember (fst (calculate_constraint st2
                   (Dict.values (IdeologicalGraph.edges g)))) as st3.
  simpl in Ha1, He1, Hc1, Hs1.
  split; [now rewrite Ha3, Ha2, Ha1|].
  split; [rewrite Hs3, Hs2; apply Hs1; lra|].
  split; [apply Hc3; rewrite Hc2, Hc1; lra|].
  intros Habs. rewrite He3, Hfield.
  destruct (is_empty (attitudes st1)).
  - rewrite He1. lra.
  - split; [exact Hlo|]. apply Hhi; [lra|]. now rewrite Ha1.
Qed.

End BalanceState.


(** X18.  For a walker whose choices carry confidences in [[0,1]], the
    balance state has every attitude in [[-1,1]], a signed graph measure in
    [[-1,1]], an extremeness in [[0,1]] and a constraint that is not
    negative. *)
Theorem balance_state_ranges (g : IdeologicalGraph.t) (walker : Walker.t) :
  (forall c, In c (Walker.choices walker) ->
             0 <= Choice.confidence c <= 1) ->
  let st := TensionAnalyzer.get_walker_balance_state g walker in
  (forall v, In v (Dict.values (WeightedBalanceState.attitudes st)) ->
             -1 <= v <= 1)
  /\ -1 <= WeightedBalanceState.sgm st <= 1
  /\ 0 <= WeightedBalanceState.extremeness st <= 1
  /\ 0 <= WeightedBalanceState.constraint st.
Proof.
  intros Hconf st.
  destruct (balance_state_fields g walker) as (Hatt & Hsgm & Hcon & Hext).
  fold st in Hatt, Hsgm, Hcon, Hext.
  assert (Habs : forall v,
             In v (Dict.values
                     (TensionAnalyzer.attitudes_of (Walker.choices walker))) ->
             Qabs v <= 1).
  { intros v Hv. apply attitudes_of_values in Hv.
    destruct Hv as (c & Hc & ->). apply attitude_of_abs. now apply Hconf. }
  split; [|split; [exact Hsgm | split; [|exact Hcon]]].
  - intros v Hv. rewrite Hatt in Hv.
    apply (proj1 (Qabs_Qle_condition v 1)). now apply Habs.
  - now apply Hext.
Qed.

Lemma balance_state_ranges_witness :
  let st := TensionAnalyzer.get_walker_balance_state Scenario.mixed_graph
                                                     Scenario.decided_walker in
  -1 <= WeightedBalanceState.sgm st <= 1
  /\ 0 <= WeightedBalanceState.extremeness st <= 1.
Proof.
  destruct (balance_state_ranges Scenario.mixed_graph
                                 Scenario.decided_walker)
    as (_ & Hsgm & Hext & _).
  - intros c [<-|[<-|[]]]; simpl; lra.
  - split; [exact Hsgm | exact Hext].
Defined.

(* ================================================================= *)
(** * Further properties of the prober *)

Section PredictionFacts.
Import IdeologicalGraph AdaptiveProber.

Lemma clamp_bounds (x : Q) : 0 <= py_max 0 (py_min 1 x) <= 1.
Proof.
  unfold py_max, py_min.
  destruct (Qlt_le_dec x 1); destruct (Qlt_le_dec 0 _); lra.
Qed.

Lemma decay_bounds (n : nat) :
  0 < 1 / (1 + 0.3 * inject_Z (Z.of_nat n)) <= 1.
Proof.
  assert (Hn : 0 <= inject_Z (Z.of_nat n))
    by (change 0 with (inject_Z 0); rewrite <- Zle_Qle; lia).
  assert (Hd : 0 < 1 + 0.3 * inject_Z (Z.of_nat n)) by lra.
  split.
  - apply Qlt_shift_div_l; [exact Hd | lra].
  - apply Qle_shift_div_r; [exact Hd | lra].
Qed.

(** The ranges of what [predict_position] returns. *)
Lemma predict_position_facts (g : t) (walker : Walker.t)
      (position : Position.t) :
  let prediction := predict_position g walker position in
  0 <= Prediction.predicted_acceptance prediction <= 1
  /\ 0 < Prediction.uncertainty prediction <= 1
  /\ Prediction.position_id prediction = Position.id position
  /\ Prediction.was_tested prediction = false
  /\ Prediction.actual_acceptance prediction = None.
Proof.
  unfold predict_position.
  destruct (is_empty _ && is_empty _).
  - simpl. repeat split; lra.
  - destruct (_ =? 0)%nat.
    + simpl. repeat split; lra.
    + cbv zeta.
      cbn [Prediction.predicted_acceptance Prediction.uncertainty
           Prediction.position_id Prediction.was_tested
           Prediction.actual_acceptance].
      split; [apply clamp_bounds|]. split; [apply decay_bounds|].
      now repeat split.
Qed.

End PredictionFacts.

(** X19.  Whatever the graph, the walker and the position,
    [predict_position] returns a predicted acceptance in [[0,1]] and an
    uncertainty in (0,1]: the uncertainty never reaches 0.  The prediction
    is about the position asked for and is not yet tested. *)
Theorem predict_position_ranges (g : IdeologicalGraph.t) (walker : Walker.t)
        (position : Position.t) :
  let prediction := AdaptiveProber.predict_position g walker position in
  0 <= Prediction.predicted_acceptance prediction <= 1
  /\ 0 < Prediction.uncertainty prediction <= 1
  /\ Prediction.position_id prediction = Position.id position
  /\ Prediction.was_tested prediction = false
  /\ Prediction.actual_acceptance prediction = None.
Proof. exact (predict_position_facts g walker position). Qed.

(** X20.  A prediction that was not tested is never wrong and has error
    magnitude 0.  For a tested prediction, being wrong means an error
    magnitude of at least 0.5; with a predicted acceptance in [[0,1]] the
    magnitude lies in [[0,1]] and a prediction that is not wrong has a
    magnitude of at most 0.5. *)
Theorem prediction_error_magnitude (p : Prediction.t) :
  (Prediction.was_tested p = false \/ Prediction.actual_acceptance p = None ->
   Prediction.was_wrong p = false /\ Prediction.error_magnitude p == 0)
  /\ (Prediction.was_wrong p = true -> 0.5 <= Prediction.error_magnitude p)
  /\ (0 <= Prediction.predicted_acceptance p <= 1 ->
      0 <= Prediction.error_magnitude p <= 1
      /\ (Prediction.was_wrong p = false ->
          Prediction.error_magnitude p <= 0.5)).
Proof.
  unfold Prediction.was_wrong, Prediction.error_magnitude.
  destruct (Prediction.was_tested p); destruct (Prediction.actual_acceptance p)
    as [actual|];
    try (repeat split; intros; try reflexivity; try discriminate; lra).
  split; [intros [H|H]; discriminate|].
  pose proof (Qabs_nonneg (Prediction.predicted_acceptance p
                           - (if actual then 1 else 0))) as Hnn.
  split.
  - destruct (Qlt_le_dec 0.5 (Prediction.predicted_acceptance p));
      destruct actual; cbn [negb Bool.eqb]; try discriminate; intros _.
    + pose proof (Qle_Qabs (Prediction.predicted_acceptance p - 0)). lra.
    + pose proof (Qle_Qabs (- (Prediction.predicted_acceptance p - 1)))
        as H.
      rewrite Qabs_opp in H. lra.
  - intros Hrange. split.
    + split; [exact Hnn|]. apply Qabs_Qle_condition.
      destruct actual; split; lra.
    + destruct (Qlt_le_dec 0.5 (Prediction.predicted_acceptance p));
        destruct actual; cbn [negb Bool.eqb]; try discriminate; intros _;
        apply Qabs_Qle_condition; split; lra.
Qed.

Lemma prediction_error_magnitude_witness :
  let p := Prediction.mk "A" 0.9 0.2 "" (Some false) true in
  Prediction.was_wrong p = true /\ 0.5 <= Prediction.error_magnitude p.
Proof.
  cbv zeta. split; [reflexivity|].
  apply (proj1 (proj2 (prediction_error_magnitude
                         (Prediction.mk "A" 0.9 0.2 "" (Some false) true)))).
  reflexivity.
Defined.

(** X21.  [find_highest_uncertainty] returns predictions for stored
    positions that are not on the walker's path, each computed by
    [predict_position], most uncertain first, and at most [n] of them for
    [n >= 0]. *)
Theorem find_highest_uncertainty_sound (g : IdeologicalGraph.t)
        (walker : Walker.t) (n : Z) :
  let found := AdaptiveProber.find_highest_uncertainty g walker n in
  (forall prediction,
      In prediction found ->
      exists position,
        In position (Dict.values (IdeologicalGraph.positions g))
        /\ ~ In (Position.id position) (Walker.path walker)
        /\ prediction = AdaptiveProber.predict_position g walker position)
  /\ StronglySorted (descending Prediction.uncertainty) found
  /\ ((0 <= n)%Z -> (Z.of_nat (List.length found) <= n)%Z).
Proof.
  intros found. unfold found, AdaptiveProber.find_highest_uncertainty.
  split; [|split].
  - intros prediction Hin.
    apply In_py_take, In_sort_desc, in_map_iff in Hin.
    destruct Hin as (position & <- & Hin).
    unfold AdaptiveProber.get_untested_positions in Hin.
    apply filter_In in Hin. destruct Hin as [Hstored Huntested].
    exists position. split; [exact Hstored|]. split; [|reflexivity].
    intros Hpath. apply str_in_py_set in Hpath.
    rewrite Hpath in Huntested. discriminate.
  - apply py_take_sorted, sort_desc_sorted.
  - intros Hn. unfold py_take.
    destruct (Z.leb_spec 0 n) as [_|H]; [|lia].
    match goal with
    | |- context [firstn ?k ?l] => pose proof (firstn_le_length k l)
    end.
    lia.
Qed.

(** X22.  [record_response] marks the prediction as tested with the answer
    given.  It appends one prediction error exactly when the predicted
    side (predicted acceptance above 0.5) differs from the answer; that
    error has severity 1 - uncertainty.  The walker's path, choices and
    edge lists are never changed. *)
Theorem record_response_spec (g : IdeologicalGraph.t) (walker : Walker.t)
        (probe : ProbeQuestion.t) (accepted : bool) :
  let walker' := fst (AdaptiveProber.record_response g walker probe accepted) in
  let probe' := snd (AdaptiveProber.record_response g walker probe accepted) in
  let predicted_yes :=
    if Qlt_le_dec 0.5 (Prediction.predicted_acceptance
                         (ProbeQuestion.prediction probe))
    then true else false in
  Prediction.was_tested (ProbeQuestion.prediction probe') = true
  /\ Prediction.actual_acceptance (ProbeQuestion.prediction probe')
     = Some accepted
  /\ Walker.path walker' = Walker.path walker
  /\ Walker.choices walker' = Walker.choices walker
  /\ Walker.edges_strengthened walker' = Walker.edges_strengthened walker
  /\ Walker.edges_weakened walker' = Walker.edges_weakened walker
  /\ if Bool.eqb predicted_yes accepted
     then Walker.prediction_errors walker' = Walker.prediction_errors walker
     else exists error,
            Walker.prediction_errors walker'
            = (Walker.prediction_errors walker ++ [error])%list
            /\ PredictionError.position_id error
               = ProbeQuestion.position_id probe
            /\ PredictionError.predicted error = predicted_yes
            /\ PredictionError.actual error = accepted
            /\ PredictionError.severity error
               == 1 - Prediction.uncertainty (ProbeQuestion.prediction probe).
Proof.
  unfold AdaptiveProber.record_response, Prediction.was_wrong.
  cbn [Prediction.was_tested Prediction.actual_acceptance
       Prediction.predicted_acceptance Prediction.uncertainty].
  destruct (Qlt_le_dec 0.5 _); destruct accepted;
    cbn [Bool.eqb negb fst snd ProbeQuestion.prediction
         Prediction.was_tested Prediction.actual_acceptance
         Walker.path Walker.choices Walker.edges_strengthened
         Walker.edges_weakened Walker.prediction_errors];
    repeat (split; [reflexivity|]); try reflexivity;
    eexists; (split; [reflexivity|]);
    cbn [PredictionError.position_id PredictionError.predicted
         PredictionError.actual ProbeQuestion.position_id];
    repeat (split; [reflexivity|]);
    unfold PredictionError.severity; simpl; ring.
Qed.

(* ================================================================= *)
(** * Further properties of the attractor and void detector *)

Section Detector.
Import IdeologicalGraph AttractorDetector.

Lemma reasons_facts (g : t) (position : Position.t)
      (incoming : list Edge.t) :
  let reasons := _hypothesize_void_reasons g position incoming in
  reasons <> []
  /\ NoDup reasons
  /\ (forall r, In r reasons ->
                r = "socially_costly" \/ r = "rare_combination"
                \/ r = "unarticulated" \/ r = "unknown")
  /\ (In "unknown" reasons -> reasons = ["unknown"])
  /\ (In "unarticulated" reasons <-> Position.canonical_score position < 0.3).
Proof.
  unfold _hypothesize_void_reasons.
  destruct (filter _ (contradicts g (Position.id position)));
    destruct (3 <=? _)%nat;
    destruct (Qlt_le_dec (Position.canonical_score position) 0.3);
    cbn [app];
    (split; [discriminate|]);
    (split; [repeat constructor; simpl; intuition discriminate|]);
    (split; [simpl; intuition|]);
    (split; [simpl; intuition discriminate|]);
    simpl; split; intros H; try lra; try (intuition discriminate);
    intuition.
Qed.

Lemma void_at_inv (g : t) (min_expected min_void_ratio : Q)
      (pos_id : string) (position : Position.t) (v : Void.t) :
  In v (void_at g min_expected min_void_ratio pos_id position) ->
  edges_to g pos_id <> []
  /\ Void.position_id v = pos_id
  /\ Void.position_claim v = Position.claim position
  /\ Void.actual_visitors v = Position.visit_count position
  /\ min_expected <= fst (expected_visits g (edges_to g pos_id))
  /\ Void.expected_visitors v
     = py_int (fst (expected_visits g (edges_to g pos_id)))
  /\ Void.expected_from v = snd (expected_visits g (edges_to g pos_id))
  /\ min_void_ratio <= Void.void_ratio v
  /\ Void.possible_reasons v
     = _hypothesize_void_reasons g position (edges_to g pos_id)
  /\ (0 < min_expected ->
      Void.void_ratio v
      == 1 - inject_Z (Position.visit_count position)
             / fst (expected_visits g (edges_to g pos_id))).
Proof.
  unfold void_at.
  destruct (edges_to g pos_id) as [|e es] eqn:Hedges; [contradiction|].
  destruct (expected_visits g (e :: es)) as [expected expected_from].
  destruct (Qlt_le_dec expected min_expected) as [|Hexp]; [contradiction|].
  destruct (Qlt_le_dec _ min_void_ratio) as [|Hratio]; [contradiction|].
  intros [<-|[]]. cbn [fst snd Void.position_id Void.position_claim
                        Void.actual_visitors Void.expected_visitors
                        Void.expected_from Void.void_ratio
                        Void.possible_reasons].
  split; [discriminate|]. repeat (split; [reflexivity || assumption|]).
  intros Hpos. destruct (Qlt_le_dec 0 expected); [reflexivity | lra].
Qed.

Lemma expected_from_sources (g : t) (incoming : list Edge.t)
      (acc : Q * list string) (x : string) :
  In x (snd (fold_left
               (fun acc edge =>
                  match get_position g (Edge.source_id edge) with
                  | Some source =>
                      (fst acc + inject_Z (Position.visit_count source)
                                 * Edge.weight edge,
                       (snd acc ++ [Edge.source_id edge])%list)
                  | None => acc
                  end)
               incoming acc)) ->
  In x (snd acc)
  \/ exists edge, In edge incoming /\ Edge.source_id edge = x
                  /\ Dict.mem (positions g) x = true.
Proof.
  revert acc. induction incoming as [|e es IH]; intros acc Hin; [now left|].
  cbn [fold_left] in Hin. apply IH in Hin.
  destruct Hin as [Hin|(edge & He & Hs & Hm)].
  - destruct (get_position g (Edge.source_id e)) as [source|] eqn:Hsrc;
      [|now left].
    cbn [snd] in Hin. apply in_app_or in Hin.
    destruct Hin as [Hin|[<-|[]]]; [now left|].
    right. exists e. split; [now left|]. split; [reflexivity|].
    unfold Dict.mem. unfold get_position in Hsrc. now rewrite Hsrc.
  - right. exists edge. split; [now right | now split].
Qed.

End Detector.

(** X23.  Every void returned by [detect_voids] stands for a stored
    position with at least one incoming edge: it carries that position's
    claim and visit count, an expectation of at least [min_expected], a
    void ratio of at least [min_void_ratio] (equal to 1 - actual/expected
    when [min_expected] is positive), and expected sources that are stored
    positions with an edge into it.  The voids come in descending order of
    void ratio. *)
Theorem detect_voids_sound (g : IdeologicalGraph.t)
        (min_expected min_void_ratio : Q) :
  let voids := AttractorDetector.detect_voids g min_expected min_void_ratio in
  (forall v,
      In v voids ->
      exists position,
        In (Void.position_id v, position)
           (Dict.items (IdeologicalGraph.positions g))
        /\ IdeologicalGraph.edges_to g (Void.position_id v) <> []
        /\ Void.position_claim v = Position.claim position
        /\ Void.actual_visitors v = Position.visit_count position
        /\ min_expected
           <= fst (AttractorDetector.expected_visits g
                     (IdeologicalGraph.edges_to g (Void.position_id v)))
        /\ min_void_ratio <= Void.void_ratio v
        /\ (0 < min_expected ->
            Void.void_ratio v
            == 1 - inject_Z (Void.actual_visitors v)
                   / fst (AttractorDetector.expected_visits g
                            (IdeologicalGraph.edges_to g
                               (Void.position_id v))))
        /\ (forall x, In x (Void.expected_from v) ->
                      Dict.mem (IdeologicalGraph.positions g) x = true
                      /\ exists edge,
                           In edge (Dict.values (IdeologicalGraph.edges g))
                           /\ Edge.source_id edge = x
                           /\ Edge.target_id edge = Void.position_id v))
  /\ StronglySorted (descending Void.void_ratio) voids.
Proof.
  intros voids. unfold voids, AttractorDetector.detect_voids.
  split; [|apply sort_desc_sorted].
  intros v Hin. apply In_sort_desc, in_flat_map in Hin.
  destruct Hin as ([pos_id position] & Hitem & Hin). cbn [fst snd] in Hin.
  destruct (void_at_inv g min_expected min_void_ratio pos_id position v Hin)
    as (Hedges & Hid & Hclaim & Hactual & Hexp & _ & Hfrom & Hratio & _
        & Hformula).
  exists position. rewrite Hid, Hactual.
  split; [exact Hitem|]. split; [exact Hedges|]. split; [exact Hclaim|].
  split; [reflexivity|]. split; [exact Hexp|]. split; [exact Hratio|].
  split; [exact Hformula|].
  intros x Hx. rewrite Hfrom in Hx.
  unfold AttractorDetector.expected_visits in Hx.
  apply expected_from_sources in Hx.
  destruct Hx as [[]|(edge & He & Hs & Hm)].
  split; [exact Hm|]. exists edge.
  unfold IdeologicalGraph.edges_to in He. apply filter_In in He.
  destruct He as [He Ht]. apply String.eqb_eq in Ht. now repeat split.
Qed.

(** X24.  The hypotheses attached to a void are never empty and never
    repeated; they are taken from "socially_costly", "rare_combination",
    "unarticulated" and "unknown"; "unknown" stands alone when it is
    given; "unarticulated" is given exactly when the canonical score is
    below 0.3. *)
Theorem void_reasons_spec (g : IdeologicalGraph.t) (position : Position.t)
        (incoming : list Edge.t) :
  let reasons :=
    AttractorDetector._hypothesize_void_reasons g position incoming in
  reasons <> []
  /\ NoDup reasons
  /\ (forall r, In r reasons ->
                r = "socially_costly" \/ r = "rare_combination"
                \/ r = "unarticulated" \/ r = "unknown")
  /\ (In "unknown" reasons -> reasons = ["unknown"])
  /\ (In "unarticulated" reasons <-> Position.canonical_score position < 0.3).
Proof. exact (reasons_facts g position incoming). Qed.

Section Attractors.
Import IdeologicalGraph AttractorDetector.

Lemma fold_max_ge_init (vs : list Z) (v : Z) :
  (v <= fold_left Z.max vs v)%Z.
Proof.
  revert v. induction vs as [|x xs IH]; intros v; cbn [fold_left]; [lia|].
  specialize (IH (Z.max v x)). lia.
Qed.

Lemma fold_max_ge (vs : list Z) (v x : Z) :
  In x vs -> (x <= fold_left Z.max vs v)%Z.
Proof.
  revert v. induction vs as [|y ys IH]; intros v Hin; [contradiction|].
  cbn [fold_left]. destruct Hin as [->|Hin].
  - pose proof (fold_max_ge_init ys (Z.max v x)). lia.
  - now apply IH.
Qed.

Lemma max_visits_facts (g : t) :
  (forall p, In p (Dict.values (positions g)) ->
             (0 <= Position.visit_count p)%Z) ->
  (1 <= max_visits g)%Z
  /\ forall p, In p (Dict.values (positions g)) ->
               (Position.visit_count p <= max_visits g)%Z.
Proof.
  intros Hvisits. unfold max_visits.
  destruct (Dict.values (positions g)) as [|p0 ps]; cbn [map].
  - split; [lia | intros p []].
  - pose proof (fold_max_ge_init (map Position.visit_count ps)
                                 (Position.visit_count p0)) as Hinit.
    pose proof (Hvisits p0 (or_introl eq_refl)) as Hp0.
    assert (Hall : forall p, In p (p0 :: ps) ->
                             (Position.visit_count p
                              <= fold_left Z.max
                                   (map Position.visit_count ps)
                                   (Position.visit_count p0))%Z).
    { intros p [<-|Hin]; [exact Hinit|].
      apply fold_max_ge. now apply in_map. }
    destruct (Z.eqb_spec (fold_left Z.max (map Position.visit_count ps)
                                    (Position.visit_count p0)) 0)
      as [Hzero|Hnonzero].
    + split; [lia|]. intros p Hin. specialize (Hall p Hin). lia.
    + split; [lia | exact Hall].
Qed.

Lemma sum_weights_nonneg (incoming : list Edge.t) (acc : Q) :
  (forall e, In e incoming -> 0 <= Edge.weight e) -> 0 <= acc ->
  0 <= fold_left (fun acc e => acc + Edge.weight e) incoming acc.
Proof.
  revert acc. induction incoming as [|e es IH]; intros acc Hw Hacc;
    cbn [fold_left]; [exact Hacc|].
  apply IH; [intros e' He'; apply Hw; now right|].
  pose proof (Hw e (or_introl eq_refl)). lra.
Qed.

Lemma incoming_weight_nonneg (incoming : list Edge.t) :
  (forall e, In e incoming -> 0 <= Edge.weight e) ->
  0 <= incoming_weight incoming.
Proof.
  intros Hw. unfold incoming_weight. destruct incoming as [|e es]; [lra|].
  apply sum_weights_nonneg; [exact Hw | lra].
Qed.

Lemma attractor_strength_range (g : t) (pos_id : string)
      (position : Position.t) :
  (forall p, In p (Dict.values (positions g)) ->
             (0 <= Position.visit_count p)%Z) ->
  In position (Dict.values (positions g)) ->
  attractor_strength g pos_id position <= 1
  /\ ((forall e, In e (edges_to g pos_id) -> 0 <= Edge.weight e) ->
      0 <= attractor_strength g pos_id position).
Proof.
  intros Hvisits Hin.
  destruct (max_visits_facts g Hvisits) as [Hmax Hle].
  specialize (Hle position Hin). specialize (Hvisits position Hin).
  assert (Hscore : -1 <= inject_Z (Position.visit_count position)
                         / inject_Z (max_visits g) <= 1)
    by (apply ratio_bounds; lia).
  assert (Hscore0 : 0 <= inject_Z (Position.visit_count position)
                         / inject_Z (max_visits g)).
  { apply Qle_shift_div_l.
    - change 0 with (inject_Z 0). rewrite <- Zlt_Qlt. lia.
    - ring_simplify. change 0 with (inject_Z 0). rewrite <- Zle_Qle. lia. }
  assert (Hcount : 0 <= inject_Z (Z.of_nat (List.length (edges_to g pos_id)))
                        / 10).
  { apply Qle_shift_div_l; [lra|]. ring_simplify.
    change 0 with (inject_Z 0). rewrite <- Zle_Qle. lia. }
  unfold attractor_strength. cbv zeta.
  pose proof (py_min_le_l 1 (inject_Z (Z.of_nat
                                         (List.length (edges_to g pos_id)))
                             / 10)) as Hc1.
  pose proof (py_min_le_l 1 (incoming_weight (edges_to g pos_id) / 5))
    as Hw1.
  pose proof (py_min_glb 1 _ 0 ltac:(lra) Hcount) as Hc0.
  split; [lra|].
  intros Hweights.
  assert (Hw : 0 <= incoming_weight (edges_to g pos_id) / 5).
  { apply Qle_shift_div_l; [lra|]. ring_simplify.
    now apply incoming_weight_nonneg. }
  pose proof (py_min_glb 1 _ 0 ltac:(lra) Hw) as Hw0.
  lra.
Qed.

Lemma attractor_at_inv (g : t) (min_visits : Z) (min_strength : Q)
      (pos_id : string) (position : Position.t) (a : Attractor.t) :
  In a (attractor_at g min_visits min_strength pos_id position) ->
  (min_visits <= Position.visit_count position)%Z
  /\ min_strength <= attractor_strength g pos_id position
  /\ a = Attractor.mk pos_id (Position.claim position)
           (py_set (map Edge.source_id (edges_to g pos_id)))
           (Position.visit_count position) 0 []
           (attractor_strength g pos_id position).
Proof.
  unfold attractor_at.
  destruct (Z.ltb_spec (Position.visit_count position) min_visits)
    as [|Hvisits]; [contradiction|].
  cbv zeta.
  destruct (Qlt_le_dec _ min_strength) as [|Hstrength]; [contradiction|].
  intros [<-|[]]. split; [lia|]. split; [exact Hstrength | reflexivity].
Qed.

Lemma In_detect_attractors (g : t) (min_visits : Z) (min_strength : Q)
      (a : Attractor.t) :
  In a (detect_attractors g min_visits min_strength) ->
  exists pos_id position,
    In (pos_id, position) (Dict.items (positions g))
    /\ (min_visits <= Position.visit_count position)%Z
    /\ min_strength <= attractor_strength g pos_id position
    /\ a = Attractor.mk pos_id (Position.claim position)
             (py_set (map Edge.source_id (edges_to g pos_id)))
             (Position.visit_count position) 0 []
             (attractor_strength g pos_id position).
Proof.
  unfold detect_attractors. intros Hin.
  apply In_sort_desc, in_flat_map in Hin.
  destruct Hin as ([pos_id position] & Hitem & Hin). cbn [fst snd] in Hin.
  exists pos_id, position. split; [exact Hitem|].
  now apply attractor_at_inv.
Qed.

End Attractors.

(** X25.  Every attractor returned by [detect_attractors] is centred on a
    stored position whose claim and visit count it carries, with at least
    [min_visits] visits and a strength of at least [min_strength]; its
    basin lists, once each, exactly the sources of the edges that point to
    the centre.  The attractors come in descending order of strength. *)
Theorem detect_attractors_sound (g : IdeologicalGraph.t) (min_visits : Z)
        (min_strength : Q) :
  let attractors :=
    AttractorDetector.detect_attractors g min_visits min_strength in
  (forall a,
      In a attractors ->
      exists position,
        In (Attractor.center_id a, position)
           (Dict.items (IdeologicalGraph.positions g))
        /\ Attractor.center_claim a = Position.claim position
        /\ Attractor.visit_count a = Position.visit_count position
        /\ (min_visits <= Attractor.visit_count a)%Z
        /\ min_strength <= Attractor.strength a
        /\ NoDup (Attractor.basin_ids a)
        /\ (forall x,
               In x (Attractor.basin_ids a) <->
               exists edge,
                 In edge (Dict.values (IdeologicalGraph.edges g))
                 /\ Edge.source_id edge = x
                 /\ Edge.target_id edge = Attractor.center_id a))
  /\ StronglySorted (descending Attractor.strength) attractors.
Proof.
  intros attractors. unfold attractors.
  split; [|apply sort_desc_sorted].
  intros a Hin. apply In_detect_attractors in Hin.
  destruct Hin as (pos_id & position & Hitem & Hvisits & Hstrength & ->).
  cbn [Attractor.center_id Attractor.center_claim Attractor.visit_count
       Attractor.strength Attractor.basin_ids].
  exists position. split; [exact Hitem|]. split; [reflexivity|].
  split; [reflexivity|]. split; [exact Hvisits|].
  split; [exact Hstrength|].
  split; [unfold py_set; apply NoDup_nodup|].
  intros x. unfold py_set. rewrite nodup_In, in_map_iff.
  unfold IdeologicalGraph.edges_to. split.
  - intros (edge & Hsrc & Hedge). apply filter_In in Hedge.
    destruct Hedge as [Hedge Htgt]. apply String.eqb_eq in Htgt.
    exists edge. now repeat split.
  - intros (edge & Hedge & Hsrc & Htgt). exists edge.
    split; [exact Hsrc|]. apply filter_In. split; [exact Hedge|].
    now apply String.eqb_eq.
Qed.

(** X26.  On a graph whose visit counts are not negative, no attractor
    has a strength above 1; when the edge weights are not negative either,
    no strength is below 0. *)
Theorem attractor_strength_bounds (g : IdeologicalGraph.t) (min_visits : Z)
        (min_strength : Q) (a : Attractor.t) :
  (forall p, In p (Dict.values (IdeologicalGraph.positions g)) ->
             (0 <= Position.visit_count p)%Z) ->
  In a (AttractorDetector.detect_attractors g min_visits min_strength) ->
  Attractor.strength a <= 1
  /\ ((forall e, In e (Dict.values (IdeologicalGraph.edges g)) ->
                 0 <= Edge.weight e) ->
      0 <= Attractor.strength a).
Proof.
  intros Hvisits Hin. apply In_detect_attractors in Hin.
  destruct Hin as (pos_id & position & Hitem & _ & _ & ->).
  cbn [Attractor.strength].
  assert (Hstored : In position (Dict.values (IdeologicalGraph.positions g))).
  { unfold Dict.values. apply in_map_iff. now exists (pos_id, position). }
  destruct (attractor_strength_range g pos_id position Hvisits Hstored)
    as [Hhi Hlo].
  split; [exact Hhi|]. intros Hweights. apply Hlo.
  intros e He. apply Hweights. unfold IdeologicalGraph.edges_to in He.
  apply filter_In in He. tauto.
Qed.

Lemma attractor_strength_bounds_witness :
  exists a,
    In a (AttractorDetector.detect_attractors Scenario.void_graph 10 0.3)
    /\ Attractor.center_id a = "S"
    /\ Attractor.strength a <= 1
    /\ 0 <= Attractor.strength a.
Proof.
  assert (Hin : In (Attractor.mk "S" "S" [] 100 0 [] (250000000 # 500000000))
                   (AttractorDetector.detect_attractors
                      Scenario.void_graph 10 0.3))
    by (vm_compute; left; reflexivity).
  assert (Hvisits : forall p,
             In p (Dict.values
                     (IdeologicalGraph.positions Scenario.void_graph)) ->
             (0 <= Position.visit_count p)%Z)
    by (intros p [<-|[<-|[]]]; vm_compute; discriminate).
  destruct (attractor_strength_bounds Scenario.void_graph 10 0.3 _
              Hvisits Hin) as [Hhi Hlo].
  eexists. split; [exact Hin|]. split; [reflexivity|].
  split; [exact Hhi|]. apply Hlo.
  intros e [<-|[]]. vm_compute. discriminate.
Defined.

Section Basin.
Import IdeologicalGraph AttractorDetector.

(** The loop "keep the first element with the largest score above the
    starting score". *)
Lemma best_fold (A : Type) (score : A -> Z) (l : list A)
      (best : option A) (best_score : Z) :
  let r := fold_left
             (fun best x =>
                if (snd best <? score x)%Z then (Some x, score x) else best)
             l (best, best_score) in
  (r = (best, best_score)
   /\ forall b, In b l -> (score b <= best_score)%Z)
  \/ (exists before a after,
         l = (before ++ a :: after)%list
         /\ r = (Some a, score a)
         /\ (best_score < score a)%Z
         /\ (forall b, In b before -> (score b < score a)%Z)
         /\ (forall b, In b after -> (score b <= score a)%Z)).
Proof.
  revert best best_score.
  induction l as [|x xs IH]; intros best best_score; cbn [fold_left snd].
  - left. split; [reflexivity | intros b []].
  - destruct (Z.ltb_spec best_score (score x)) as [Hlt|Hge].
    + right.
      destruct (IH (Some x) (score x))
        as [[Hr Hall]|(before & a & after & Hl & Hr & Hbo & Hb & Ha)].
      * exists [], x, xs. cbn [app].
        split; [reflexivity|]. split; [exact Hr|]. split; [exact Hlt|].
        split; [intros b [] | exact Hall].
      * exists (x :: before), a, after. cbn [app].
        split; [now rewrite Hl|]. split; [exact Hr|]. split; [lia|].
        split; [|exact Ha].
        intros b [<-|Hin]; [exact Hbo | now apply Hb].
    + destruct (IH best best_score)
        as [[Hr Hall]|(before & a & after & Hl & Hr & Hbo & Hb & Ha)].
      * left. split; [exact Hr|].
        intros b [<-|Hin]; [exact Hge | now apply Hall].
      * right. exists (x :: before), a, after. cbn [app].
        split; [now rewrite Hl|]. split; [exact Hr|]. split; [exact Hbo|].
        split; [|exact Ha].
        intros b [<-|Hin]; [lia | now apply Hb].
Qed.

Lemma basin_overlap_zero (accepted : list string) (a : Attractor.t) :
  (basin_overlap accepted a <= 0)%Z ->
  ~ In (Attractor.center_id a) accepted
  /\ forall x, In x (Attractor.basin_ids a) -> ~ In x accepted.
Proof.
  unfold basin_overlap. cbv zeta. intros Hle.
  destruct (str_in (Attractor.center_id a) accepted) eqn:Hcenter; [lia|].
  split.
  - intros Hin. apply str_in_In in Hin. congruence.
  - intros x Hbasin Hacc. apply str_in_In in Hbasin.
    pose proof (count_member _
                  (fun x => str_in x (Attractor.basin_ids a))
                  x accepted Hacc Hbasin).
    lia.
Qed.

Lemma map_sorted (A B : Type) (f : A -> B) (R : A -> A -> Prop)
      (R' : B -> B -> Prop) (l : list A) :
  (forall x y, In x l -> In y l -> R x y -> R' (f x) (f y)) ->
  StronglySorted R l -> StronglySorted R' (map f l).
Proof.
  intros Hmono Hs. induction Hs as [|x r Hs IH Hall]; cbn [map];
    constructor.
  - apply IH. intros a b Ha Hb. apply Hmono; now right.
  - apply Forall_forall. intros y Hy. apply in_map_iff in Hy.
    destruct Hy as (z & <- & Hz).
    apply Hmono; [now left | now right|].
    rewrite Forall_forall in Hall. now apply Hall.
Qed.

Lemma length_py_take (A : Type) (n : Z) (l : list A) :
  (0 <= n)%Z -> (List.length (py_take n l) <= Z.to_nat n)%nat.
Proof.
  intros Hn. unfold py_take.
  destruct (Z.leb_spec 0 n); [|lia]. rewrite length_firstn. lia.
Qed.

End Basin.

(** X27.  [find_basin_for_walker] looks among [detect_attractors(10, 0.3)]
    for the attractor that overlaps most with the positions the walker
    accepted.  The attractor returned has a positive overlap, every
    attractor listed before it overlaps strictly less and every one after
    it no more.  It returns nothing exactly when the walker accepted
    neither the centre nor a basin member of any attractor. *)
Theorem find_basin_for_walker_spec (g : IdeologicalGraph.t)
        (walker : Walker.t) :
  let accepted := py_set (Walker.positions_accepted walker) in
  let attractors := AttractorDetector.detect_attractors g 10 0.3 in
  match AttractorDetector.find_basin_for_walker g walker with
  | Some a =>
      exists before after,
        attractors = (before ++ a :: after)%list
        /\ (0 < AttractorDetector.basin_overlap accepted a)%Z
        /\ (forall b, In b before ->
                      (AttractorDetector.basin_overlap accepted b
                       < AttractorDetector.basin_overlap accepted a)%Z)
        /\ (forall b, In b after ->
                      (AttractorDetector.basin_overlap accepted b
                       <= AttractorDetector.basin_overlap accepted a)%Z)
  | None =>
      forall b,
        In b attractors ->
        ~ In (Attractor.center_id b) (Walker.positions_accepted walker)
        /\ forall x, In x (Attractor.basin_ids b) ->
                     ~ In x (Walker.positions_accepted walker)
  end.
Proof.
  intros accepted attractors.
  unfold AttractorDetector.find_basin_for_walker. cbv zeta.
  fold accepted. fold attractors.
  destruct (best_fold _ (AttractorDetector.basin_overlap accepted)
                      attractors None 0%Z)
    as [[Hr Hall]|(before & a & after & Hl & Hr & Hpos & Hb & Ha)];
    cbv zeta in Hr; rewrite Hr; cbn [fst].
  - intros b Hin.
    destruct (basin_overlap_zero accepted b (Hall b Hin)) as [Hc Hbasin].
    unfold accepted, py_set in Hc, Hbasin. split.
    + intros Hacc. apply Hc. now apply nodup_In.
    + intros x Hx Hacc. apply (Hbasin x Hx). now apply nodup_In.
  - exists before, after. now repeat split.
Qed.

(** X28.  Every void suggested by [suggest_void_exploration] is one of
    [detect_voids(5, 0.7)], lies off the walker's path and is expected
    from at least one position the walker accepted.  The suggestions are
    ordered by falling connection score, and there are at most [n] of them
    for [n >= 0]. *)
Theorem suggest_void_exploration_sound (g : IdeologicalGraph.t)
        (walker : Walker.t) (n : Z) :
  let suggested := AttractorDetector.suggest_void_exploration g walker n in
  let accepted := py_set (Walker.positions_accepted walker) in
  (forall v,
      In v suggested ->
      In v (AttractorDetector.detect_voids g 5 0.7)
      /\ ~ In (Void.position_id v) (Walker.path walker)
      /\ exists x, In x (Void.expected_from v)
                   /\ In x (Walker.positions_accepted walker))
  /\ StronglySorted
       (descending
          (fun v => inject_Z (Z.of_nat
                                (AttractorDetector.connection_score
                                   accepted v))))
       suggested
  /\ ((0 <= n)%Z -> (List.length suggested <= Z.to_nat n)%nat).
Proof.
  intros suggested accepted.
  unfold suggested, AttractorDetector.suggest_void_exploration. cbv zeta.
  fold accepted.
  set (candidates := flat_map _ _).
  assert (Hcand : forall c,
             In c candidates ->
             In (fst c) (AttractorDetector.detect_voids g 5 0.7)
             /\ str_in (Void.position_id (fst c))
                       (py_set (Walker.path walker)) = false
             /\ snd c = AttractorDetector.connection_score accepted (fst c)
             /\ (0 < snd c)%nat).
  { intros c Hc. unfold candidates in Hc. apply in_flat_map in Hc.
    destruct Hc as (void & Hvoid & Hc).
    destruct (str_in (Void.position_id void) (py_set (Walker.path walker)))
      eqn:Hvisited; [contradiction|].
    cbv zeta in Hc.
    destruct (Nat.ltb_spec 0 (AttractorDetector.connection_score
                                accepted void)) as [Hpos|];
      [|contradiction].
    destruct Hc as [<-|[]]. cbn [fst snd]. now repeat split. }
  split; [|split].
  - intros v Hv. apply in_map_iff in Hv. destruct Hv as (c & <- & Hc).
    apply In_py_take, In_sort_desc in Hc.
    destruct (Hcand c Hc) as (Hvoid & Hvisited & Hscore & Hpos).
    split; [exact Hvoid|]. split.
    + intros Hpath. apply str_in_py_set in Hpath. congruence.
    + rewrite Hscore in Hpos.
      unfold AttractorDetector.connection_score in Hpos.
      destruct (filter _ _) as [|x r] eqn:Hfilter; [simpl in Hpos; lia|].
      assert (Hx : In x (x :: r)) by now left.
      rewrite <- Hfilter in Hx. apply filter_In in Hx.
      destruct Hx as [Hfrom Hacc]. exists x. split.
      * unfold py_set in Hfrom. now apply nodup_In in Hfrom.
      * now apply str_in_py_set.
  - apply (map_sorted _ _ fst
             (descending (fun c : Void.t * nat =>
                            inject_Z (Z.of_nat (snd c))))).
    + intros x y Hx Hy. apply In_py_take, In_sort_desc in Hx.
      apply In_py_take, In_sort_desc in Hy.
      destruct (Hcand x Hx) as (_ & _ & Hsx & _).
      destruct (Hcand y Hy) as (_ & _ & Hsy & _).
      unfold descending. now rewrite Hsx, Hsy.
    + apply py_take_sorted, sort_desc_sorted.
  - intros Hn. rewrite length_map. now apply length_py_take.
Qed.

(* ================================================================= *)
(** * Further properties of the compaction scores *)

Section Compaction.

Lemma tally_bounds (walker : Walker.t) (items : list (string * string))
      (acc : Z * Z) :
  (0 <= fst acc <= snd acc)%Z ->
  let counts := fold_left (Archetype.tally walker) items acc in
  (0 <= fst counts <= snd counts)%Z.
Proof.
  revert acc. induction items as [|kv items IH]; intros acc Hacc;
    cbn [fold_left]; [exact Hacc|].
  apply IH. unfold Archetype.tally. cbv zeta.
  destruct (str_in _ _); [|destruct (str_in _ _)];
    try destruct (_ =? _)%string; cbn [fst snd]; lia.
Qed.

Lemma tally_undecided (walker : Walker.t) (items : list (string * string))
      (acc : Z * Z) :
  Walker.positions_accepted walker = [] ->
  fold_left (Archetype.tally walker) items acc = acc.
Proof.
  intros Hnone. revert acc.
  induction items as [|kv items IH]; intros acc; cbn [fold_left];
    [reflexivity|].
  rewrite <- (IH acc) at 2. f_equal.
  unfold Archetype.tally. cbv zeta. now rewrite Hnone.
Qed.

Lemma count_choice_fold (fork_id : string) (walkers : list Walker.t)
      (acc : Z * Z) :
  fold_left (GraphCompactor.count_choice fork_id) walkers acc
  = ((fst acc
      + Z.of_nat (List.length (filter (GraphCompactor.took_a fork_id) walkers)))%Z,
     (snd acc
      + Z.of_nat (List.length (filter (GraphCompactor.took_b fork_id) walkers)))%Z).
Proof.
  revert acc. induction walkers as [|w ws IH]; intros [a b];
    cbn [fold_left filter List.length fst snd].
  - f_equal; lia.
  - rewrite IH. unfold GraphCompactor.count_choice, GraphCompactor.took_b,
      GraphCompactor.took_a.
    destruct (str_in (String.append fork_id "_a") _);
      [|destruct (str_in (String.append fork_id "_b") _)];
      cbn [negb andb fst snd List.length]; f_equal; lia.
Qed.

Lemma variance_shape (a b : Z) :
  (0 <= a)%Z -> (0 <= b)%Z -> (a + b <> 0)%Z ->
  let p := inject_Z a / inject_Z (a + b) in
  0 <= 4 * p * (1 - p) <= 1
  /\ (4 * p * (1 - p) == 0 <-> a = 0%Z \/ b = 0%Z)
  /\ (4 * p * (1 - p) == 1 <-> a = b).
Proof.
  intros Ha Hb Hab p.
  assert (HA : 0 <= inject_Z a)
    by (change 0 with (inject_Z 0); rewrite <- Zle_Qle; lia).
  assert (HB : 0 <= inject_Z b)
    by (change 0 with (inject_Z 0); rewrite <- Zle_Qle; lia).
  assert (HT : 0 < inject_Z a + inject_Z b).
  { rewrite <- inject_Z_plus. change 0 with (inject_Z 0).
    rewrite <- Zlt_Qlt. lia. }
  assert (Hp : p * (inject_Z a + inject_Z b) == inject_Z a).
  { unfold p. rewrite inject_Z_plus. field. lra. }
  assert (Hp0 : 0 <= p).
  { unfold p. rewrite inject_Z_plus. apply Qle_shift_div_l; [exact HT|lra]. }
  assert (Hp1 : p <= 1).
  { unfold p. rewrite inject_Z_plus. apply Qle_shift_div_r; [exact HT|lra]. }
  assert (Hzero : forall z : Z, inject_Z z == 0 <-> z = 0%Z).
  { intros z. change 0 with (inject_Z 0). apply inject_Z_injective. }
  clearbody p.
  assert (Hsq : 0 <= (2 * p - 1) * (2 * p - 1)).
  { destruct (Qlt_le_dec (2 * p - 1) 0).
    - setoid_replace ((2 * p - 1) * (2 * p - 1))
        with ((1 - 2 * p) * (1 - 2 * p)) by ring.
      apply Qmult_le_0_compat; lra.
    - apply Qmult_le_0_compat; lra. }
  assert (Hprod : 0 <= p * (1 - p)) by (apply Qmult_le_0_compat; lra).
  split; [split; lra|]. split.
  - split.
    + intros Hv. destruct (Qmult_integral _ _ Hv) as [H0|H1].
      * left. apply Hzero. assert (Hp' : p == 0) by lra.
        rewrite Hp' in Hp. lra.
      * right. apply Hzero. assert (Hp' : p == 1) by lra.
        rewrite Hp' in Hp. lra.
    + intros [H0|H0]; apply Hzero in H0.
      * assert (Hmul : p * (inject_Z a + inject_Z b) == 0) by lra.
        destruct (Qmult_integral _ _ Hmul) as [Hp'|]; [|lra].
        rewrite Hp'. reflexivity.
      * assert (Hmul : (p - 1) * (inject_Z a + inject_Z b) == 0) by lra.
        destruct (Qmult_integral _ _ Hmul) as [Hp'|]; [|lra].
        assert (Hp'' : p == 1) by lra. rewrite Hp''. reflexivity.
  - split.
    + intros Hv.
      assert (Hmul : (2 * p - 1) * (2 * p - 1) == 0) by lra.
      assert (Hhalf : p == 1 # 2)
        by (destruct (Qmult_integral _ _ Hmul); lra).
      rewrite Hhalf in Hp. apply inject_Z_injective. lra.
    + intros <-.
      assert (Hmul : (2 * p - 1) * inject_Z a == 0) by lra.
      destruct (Qmult_integral _ _ Hmul) as [Hp'|]; [|lra].
      assert (Hhalf : p == 1 # 2) by lra. rewrite Hhalf. reflexivity.
Qed.

End Compaction.

(** X29.  [Archetype.matches] is a share between 0 and 1, and it is 0 for
    an archetype without fork choices and for a walker who accepted
    nothing. *)
Theorem Archetype_matches_range (self : Archetype.t) (walker : Walker.t) :
  0 <= Archetype.matches self walker <= 1
  /\ (Archetype.fork_choices self = [] ->
      Archetype.matches self walker == 0)
  /\ (Walker.positions_accepted walker = [] ->
      Archetype.matches self walker == 0).
Proof.
  unfold Archetype.matches, Dict.items.
  split; [|split].
  - destruct (is_empty (Archetype.fork_choices self)); [lra|]. cbv zeta.
    pose proof (tally_bounds walker (Archetype.fork_choices self)
                             (0%Z, 0%Z) ltac:(cbn; lia)) as Hcounts.
    cbv zeta in Hcounts.
    set (counts := fold_left (Archetype.tally walker)
                             (Archetype.fork_choices self) (0%Z, 0%Z))
      in *.
    destruct (Z.ltb_spec 0 (snd counts)) as [Hpos|]; [|lra].
    assert (Hrange : (- snd counts <= fst counts <= snd counts)%Z) by lia.
    pose proof (ratio_bounds (fst counts) (snd counts) Hpos Hrange)
      as [_ Hhi].
    split; [|exact Hhi].
    apply Qle_shift_div_l.
    + change 0 with (inject_Z 0). now rewrite <- Zlt_Qlt.
    + ring_simplify. change 0 with (inject_Z 0). rewrite <- Zle_Qle. lia.
  - intros ->. reflexivity.
  - intros Hnone. destruct (is_empty _); [reflexivity|]. cbv zeta.
    rewrite (tally_undecided walker _ _ Hnone). reflexivity.
Qed.

(** X30.  With [a] the number of walkers who accepted side a of a fork
    and [b] the number who accepted side b but not side a,
    [_calculate_variance_explained] lies between 0 and 1, is 0 exactly
    when one of the two counts is 0, and is 1 exactly when the counts are
    equal and not 0. *)
Theorem variance_explained_spec (fork_id : string)
        (walkers : list Walker.t) :
  let a := List.length (filter (GraphCompactor.took_a fork_id) walkers) in
  let b := List.length (filter (GraphCompactor.took_b fork_id) walkers) in
  let variance :=
    GraphCompactor._calculate_variance_explained fork_id walkers in
  0 <= variance <= 1
  /\ (variance == 0 <-> a = 0%nat \/ b = 0%nat)
  /\ (variance == 1 <-> a = b /\ a <> 0%nat).
Proof.
  intros a b variance.
  unfold variance, GraphCompactor._calculate_variance_explained.
  destruct walkers as [|w ws].
  - cbn [is_empty]. unfold a, b. cbn [filter List.length].
    split; [lra|]. split.
    + split; [now left | reflexivity].
    + split; [intros H; exfalso; revert H; lra | intros [_ H]; now elim H].
  - cbn [is_empty]. cbv zeta.
    rewrite count_choice_fold. cbn [fst snd]. fold a. fold b.
    rewrite !Z.add_0_l.
    destruct (Z.eqb_spec (Z.of_nat a + Z.of_nat b) 0) as [Hzero|Hnonzero].
    + split; [lra|]. split.
      * split; [intros _; left; lia | reflexivity].
      * split; [intros H; exfalso; revert H; lra | intros [_ H]; lia].
    + destruct (variance_shape (Z.of_nat a) (Z.of_nat b)
                               ltac:(lia) ltac:(lia) Hnonzero)
        as (Hrange & Hv0 & Hv1).
      cbv zeta in Hrange, Hv0, Hv1.
      split; [exact Hrange|]. split.
      * rewrite Hv0. lia.
      * rewrite Hv1. lia.
Qed.
